(** * rcc diagnostics: a shallow embedding of package [operations]

    The development follows the two source files of the package:
    [operations/diagnostics.go] (the report, its producers and its two
    renderings) and [operations/tlscheck.go] (the TLS endpoint probe and the
    certificate chain verification).

    Go strings are byte sequences: they are modelled by [string], whose
    characters are the 256 values of [ascii].  Everything the package
    obtains from the operating system, the network or another package is
    read from one record, [Env]; a Go run-time panic is an explicit
    outcome. *)

From Stdlib Require Import ZArith NArith List String Ascii Lia Bool.
From Stdlib Require Import DecimalString HexadecimalString.
From Stdlib.Strings Require Import Byte.
From stdpp Require Import base option list gmap strings sorting.

Open Scope string_scope.

(** ** Go values *)

(** An [error] is modelled by the text of its [Error()] method, which is
    what the verbs [%v] and [%s] print. *)
Definition error := string.

(** A Go result pair [(T, error)] whose value is only meaningful when the
    error is nil. *)
Inductive goresult (A : Type) : Type :=
| Ok (a : A)
| Err (e : error).
Arguments Ok {A} a.
Arguments Err {A} e.

(** What a call does: it returns a value or it panics. *)
Inductive outcome (A : Type) : Type :=
| Returned (a : A)
| Panicked (reason : string).
Arguments Returned {A} a.
Arguments Panicked {A} reason.

Definition is_returned {A} (o : outcome A) : bool :=
  match o with Returned _ => true | Panicked _ => false end.

#[global] Instance byte_eq_decision : EqDecision byte := Byte.byte_eq_dec.

(** A byte slice: the [len] visible elements, and the bytes of the backing
    array that lie between the length and the capacity. *)
Record byteslice := {
  elems : list byte;
  spare : list byte
}.

Definition slice_len (s : byteslice) : nat := length (elems s).
Definition slice_cap (s : byteslice) : nat := length (elems s) + length (spare s).

(** The simple slice expression [s[:n]]: Go checks the upper index against
    the capacity of a slice (not its length) and panics beyond it. *)
Definition slice_to (s : byteslice) (n : nat) : option (list byte) :=
  if (n <=? slice_cap s)%nat then Some (take n (elems s ++ spare s)) else None.

(** ** Package [unicode/utf8] *)

Module utf8.

Definition RuneError : N := 0xFFFD.
Definition locb : N := 0x80.
Definition hicb : N := 0xBF.

(** The table [first] together with [acceptRanges]: what a leading byte
    announces. *)
Inductive lead : Type :=
| LeadASCII
| LeadInvalid
| LeadMulti (size : nat) (lo hi : N).

Definition first (p0 : N) : lead :=
  (if p0 <? 0x80 then LeadASCII
   else if p0 <? 0xC2 then LeadInvalid
   else if p0 <? 0xE0 then LeadMulti 2 locb hicb
   else if p0 =? 0xE0 then LeadMulti 3 0xA0 hicb
   else if p0 =? 0xED then LeadMulti 3 locb 0x9F
   else if p0 <? 0xF0 then LeadMulti 3 locb hicb
   else if p0 =? 0xF0 then LeadMulti 4 0x90 hicb
   else if p0 <? 0xF4 then LeadMulti 4 locb hicb
   else if p0 =? 0xF4 then LeadMulti 4 locb 0x8F
   else LeadInvalid)%N.

Definition cont (b : N) : bool := ((locb <=? b) && (b <=? hicb))%N.

(** [DecodeRuneInString]: the first rune of [s] and its width in bytes. *)
Definition DecodeRuneInString (s : string) : N * nat :=
  match s with
  | EmptyString => (RuneError, 0%nat)
  | String c0 s1 =>
    let p0 := N_of_ascii c0 in
    match first p0 with
    | LeadASCII => (p0, 1%nat)
    | LeadInvalid => (RuneError, 1%nat)
    | LeadMulti sz lo hi =>
      if (String.length s <? sz)%nat then (RuneError, 1%nat) else
      match s1 with
      | EmptyString => (RuneError, 1%nat)
      | String c1 s2 =>
        let b1 := N_of_ascii c1 in
        if ((b1 <? lo) || (hi <? b1))%N then (RuneError, 1%nat) else
        if (sz <=? 2)%nat
        then (N.lor (N.shiftl (N.land p0 0x1F) 6) (N.land b1 0x3F), 2%nat) else
        match s2 with
        | EmptyString => (RuneError, 1%nat)
        | String c2 s3 =>
          let b2 := N_of_ascii c2 in
          if negb (cont b2) then (RuneError, 1%nat) else
          if (sz <=? 3)%nat
          then (N.lor (N.lor (N.shiftl (N.land p0 0x0F) 12)
                             (N.shiftl (N.land b1 0x3F) 6))
                      (N.land b2 0x3F), 3%nat) else
          match s3 with
          | EmptyString => (RuneError, 1%nat)
          | String c3 _ =>
            let b3 := N_of_ascii c3 in
            if negb (cont b3) then (RuneError, 1%nat) else
            (N.lor (N.lor (N.lor (N.shiftl (N.land p0 0x07) 18)
                                 (N.shiftl (N.land b1 0x3F) 12))
                          (N.shiftl (N.land b2 0x3F) 6))
                   (N.land b3 0x3F), 4%nat)
          end
        end
      end
    end
  end.

(** [RuneCountInString]: every decoding step, valid or not, counts for one
    rune.  [skip] is the number of bytes of the current rune still to be
    passed over. *)
Fixpoint count_runes (skip : nat) (s : string) : nat :=
  match s with
  | EmptyString => 0
  | String _ s' =>
    match skip with
    | S k => count_runes k s'
    | O => S (count_runes (snd (DecodeRuneInString s) - 1) s')
    end
  end.

Definition RuneCountInString (s : string) : nat := count_runes 0 s.

Definition MaxRune : N := 0x10FFFF.
Definition surrogateMin : N := 0xD800.
Definition surrogateMax : N := 0xDFFF.

(** [EncodeRune]: the bytes of the UTF-8 encoding of a rune; a rune out of
    range or in the surrogate range is written as [RuneError]. *)
Definition EncodeRune (r : N) : string :=
  let byte1 (n : N) := String (ascii_of_N n) EmptyString in
  let three (r : N) :=
    byte1 (N.lor 0xE0 (N.shiftr r 12)) ++
    byte1 (N.lor 0x80 (N.land (N.shiftr r 6) 0x3F)) ++
    byte1 (N.lor 0x80 (N.land r 0x3F)) in
  (if r <=? 0x7F then byte1 r
   else if r <=? 0x7FF then
     byte1 (N.lor 0xC0 (N.shiftr r 6)) ++ byte1 (N.lor 0x80 (N.land r 0x3F))
   else if (MaxRune <? r) || ((surrogateMin <=? r) && (r <=? surrogateMax)) then
     three RuneError
   else if r <=? 0xFFFF then three r
   else
     byte1 (N.lor 0xF0 (N.shiftr r 18)) ++
     byte1 (N.lor 0x80 (N.land (N.shiftr r 12) 0x3F)) ++
     byte1 (N.lor 0x80 (N.land (N.shiftr r 6) 0x3F)) ++
     byte1 (N.lor 0x80 (N.land r 0x3F)))%N.

(** [ValidString]: every decoding step yields a rune, never the error of
    width one. *)
Fixpoint valid_from (skip : nat) (s : string) : bool :=
  match s with
  | EmptyString => true
  | String _ s' =>
    match skip with
    | S k => valid_from k s'
    | O =>
      let '(r, size) := DecodeRuneInString s in
      if (r =? RuneError)%N && (size =? 1)%nat then false
      else valid_from (size - 1) s'
    end
  end.

Definition ValidString (s : string) : bool := valid_from 0 s.

End utf8.

(** ** Package [fmt]: the verbs the package uses *)

Module fmt.

(** [%d] of a Go [int]. *)
Definition d (z : Z) : string := DecimalString.NilZero.string_of_int (Z.to_int z).

Definition spaces (n : nat) : string := string_of_list_ascii (repeat " "%char n).

(** [%-Ns]: the string, then spaces up to width [w], counted in runes. *)
Definition pad_right (w : nat) (s : string) : string :=
  s ++ spaces (w - utf8.RuneCountInString s).

(** [%v] of a [[]string]. *)
Definition v_strings (l : list string) : string :=
  "[" ++ String.concat " " l ++ "]".

Definition hex_lower (n : N) : string :=
  HexadecimalString.NilZero.string_of_uint (N.to_hex_uint n).

(** [%03x] of an unsigned integer: lower-case hexadecimal, zero padded to
    three digits. *)
Definition x03 (n : N) : string :=
  let h := hex_lower n in
  string_of_list_ascii (repeat "0"%char (3 - String.length h)) ++ h.

Definition hex_digit_upper (n : N) : ascii :=
  (if n <? 10 then ascii_of_N (48 + n) else ascii_of_N (55 + n))%N.

Definition byte_XX (b : byte) : string :=
  let n := Byte.to_N b in
  String (hex_digit_upper (n / 16)) (String (hex_digit_upper (n mod 16)) EmptyString).

(** [% 02X] of a byte slice of at least one element: two upper-case digits
    per byte, separated by spaces. *)
Definition bytes_XX (bs : list byte) : string :=
  String.concat " " (List.map byte_XX bs).

End fmt.

(** ** Package [time]: the layout ["2006-Jan-02"] *)

Inductive Month : Type :=
| January | February | March | April | May | June
| July | August | September | October | November | December.

Definition month_abbrev (m : Month) : string :=
  match m with
  | January => "Jan" | February => "Feb" | March => "Mar" | April => "Apr"
  | May => "May" | June => "Jun" | July => "Jul" | August => "Aug"
  | September => "Sep" | October => "Oct" | November => "Nov" | December => "Dec"
  end.

(** A [time.Time], by the civil date it shows in its own location. *)
Record Time := {
  Year : Z;
  Mon : Month;
  Day : Z
}.

Definition zero_pad (w : nat) (z : Z) : string :=
  let digits := fmt.d (Z.abs z) in
  (if (z <? 0)%Z then "-" else "") ++
  string_of_list_ascii (repeat "0"%char (w - String.length digits)) ++ digits.

Definition Time_Format_2006_Jan_02 (t : Time) : string :=
  zero_pad 4 (Year t) ++ "-" ++ month_abbrev (Mon t) ++ "-" ++ zero_pad 2 (Day t).

(** ** External collaborators *)

(** [cloud.Response], as far as the canary check reads it. *)
Record Response := {
  Response_Status : Z;
  Response_Body : string
}.

(** [cloud.Client]: [Client_Get] answers the request built by [NewRequest]
    for a given path. *)
Record Client := {
  Client_Get : string -> Response
}.

(** [pkix.Name], by the text of its [String()] method. *)
Record pkix_Name := {
  Name_String : string
}.

(** [x509.Certificate], with the fields the package reads. *)
Record Certificate := {
  Raw : list byte;
  Signature : byteslice;
  DNSNames : list string;
  NotBefore : Time;
  NotAfter : Time;
  Subject : pkix_Name;
  Issuer : pkix_Name
}.

(** [x509.CertPool]: the certificates added, in order. *)
Definition CertPool := list Certificate.

Definition NewCertPool : CertPool := [].

(** [AddCert] ignores a certificate whose raw bytes the pool already holds. *)
Definition AddCert (pool : CertPool) (cert : Certificate) : CertPool :=
  if existsb (fun c => bool_decide (Raw c = Raw cert)) pool
  then pool else (pool ++ [cert])%list.

Record VerifyOptions := {
  DNSName : string;
  Roots : option CertPool;
  Intermediates : CertPool
}.

(** [tls.Config], with the fields the probe sets or reads. *)
Record TLSClientConfig := {
  InsecureSkipVerify : bool;
  MinVersion : Z;
  RootCAs : option CertPool
}.

(** [tls.ConnectionState], with the fields the probe reads. *)
Record ConnectionState := {
  Version : Z;
  ServerName : string;
  PeerCertificates : list Certificate
}.

(** Everything the package gets from outside itself.  A field named
    [pkg_Name] stands for the Go identifier [pkg.Name]. *)
Record Env := {
  os_Executable : string * option error;
  os_UserCacheDir : string * option error;
  os_UserConfigDir : string * option error;
  os_UserHomeDir : string * option error;
  os_Getwd : string * option error;
  os_TempDir : string;
  runtime_GOOS : string;
  runtime_GOARCH : string;
  runtime_NumCPU : Z;
  common_Version : string;
  common_ControllerIdentity : string;
  common_DebugFlag : bool;
  xviper_GetInt : string -> Z;
  xviper_TrackingIdentity : string;
  conda_TemplateList : list string;
  conda_MicromambaVersion : string;
  conda_RobocorpHome : string;
  conda_ValidLocation : string -> bool;
  conda_HasLongPathSupport : bool;
  net_LookupHost : string -> goresult (list string);
  cloud_NewClient : string -> goresult Client;
  settings_ConfiguredHttpTransport : TLSClientConfig;
  settings_DocsLink : string -> string;
  (** [http.Client.Head] over a transport with the given TLS settings; the
      [TLS] field of a response is nil when it did not arrive over TLS. *)
  http_Head : TLSClientConfig -> string -> goresult (option ConnectionState);
  (** [Certificate.Verify]: [None] when a chain to a root was found. *)
  x509_Verify : Certificate -> VerifyOptions -> option error;
  (** [strconv.Quote], which the verb [%q] applies to a string. *)
  strconv_Quote : string -> string
}.

(** ** [operations/diagnostics.go] *)

Definition canaryHost := "https://downloads.robocorp.com".
Definition canaryUrl := "/canary.txt".
Definition supportLongPathUrl := "https://robocorp.com/docs/troubleshooting/windows-long-path".
Definition supportNetworkUrl := "https://robocorp.com/docs/troubleshooting/firewall-and-proxies".
Definition supportGeneralUrl := "https://robocorp.com/docs/troubleshooting".
Definition statusOk := "ok".
Definition statusWarning := "warning".
Definition statusFail := "fail".
Definition statusFatal := "fatal".

Definition checkedHosts : list string :=
  [ "api.eu1.robocloud.eu";
    "downloads.robocorp.com";
    "pypi.org";
    "conda.anaconda.org";
    "github.com";
    "files.pythonhosted.org" ].

Record DiagnosticCheck := {
  Type_ : string;
  Status : string;
  Message : string;
  Link : string
}.

Record DiagnosticStatus := {
  Details : gmap string string;
  Checks : list DiagnosticCheck
}.

Definition justText (source : string * option error) : string := fst source.

Definition rccStatusLine (env : Env) : string :=
  let requests := xviper_GetInt env "stats.env.request" in
  let hits := xviper_GetInt env "stats.env.hit" in
  let dirty := xviper_GetInt env "stats.env.dirty" in
  let misses := xviper_GetInt env "stats.env.miss" in
  let failures := xviper_GetInt env "stats.env.failures" in
  let merges := xviper_GetInt env "stats.env.merges" in
  let templates := Z.of_nat (length (conda_TemplateList env)) in
  fmt.d templates ++ " environments, " ++ fmt.d requests ++ " requests, " ++
  fmt.d merges ++ " merges, " ++ fmt.d hits ++ " hits, " ++
  fmt.d dirty ++ " dirty, " ++ fmt.d misses ++ " misses, " ++
  fmt.d failures ++ " failures | " ++ xviper_TrackingIdentity env.

Definition longPathSupportCheck (env : Env) : DiagnosticCheck :=
  if conda_HasLongPathSupport env then
    {| Type_ := "OS";
       Status := statusOk;
       Message := "Supports long enough paths.";
       Link := supportLongPathUrl |}
  else
    {| Type_ := "OS";
       Status := statusFail;
       Message := "Does not support long path names!";
       Link := supportLongPathUrl |}.

Definition robocorpHomeCheck (env : Env) : DiagnosticCheck :=
  if negb (conda_ValidLocation env (conda_RobocorpHome env)) then
    {| Type_ := "RPA";
       Status := statusFatal;
       Message := "ROBOCORP_HOME (" ++ conda_RobocorpHome env ++
                  ") contains characters that makes RPA fail.";
       Link := supportGeneralUrl |}
  else
    {| Type_ := "RPA";
       Status := statusOk;
       Message := "ROBOCORP_HOME (" ++ conda_RobocorpHome env ++ ") is good enough.";
       Link := supportGeneralUrl |}.

Definition dnsLookupCheck (env : Env) (site : string) : DiagnosticCheck :=
  match net_LookupHost env site with
  | Err err =>
    {| Type_ := "network";
       Status := statusFail;
       Message := "DNS lookup " ++ site ++ " failed: " ++ err;
       Link := supportNetworkUrl |}
  | Ok found =>
    {| Type_ := "network";
       Status := statusOk;
       Message := site ++ " found: " ++ fmt.v_strings found;
       Link := supportNetworkUrl |}
  end.

Definition canaryDownloadCheck (env : Env) : DiagnosticCheck :=
  match cloud_NewClient env canaryHost with
  | Err err =>
    {| Type_ := "network";
       Status := statusFail;
       Message := canaryHost ++ ": " ++ err;
       Link := supportNetworkUrl |}
  | Ok client =>
    let response := Client_Get client canaryUrl in
    if negb (Response_Status response =? 200)%Z
       || negb (String.eqb (Response_Body response) "Used to testing connections")
    then
      {| Type_ := "network";
         Status := statusFail;
         Message := "Canary download failed: " ++ fmt.d (Response_Status response) ++
                    ": " ++ Response_Body response;
         Link := supportNetworkUrl |}
    else
      {| Type_ := "network";
         Status := statusOk;
         Message := "Canary download successful: " ++ canaryHost ++ canaryUrl;
         Link := supportNetworkUrl |}
  end.

(** The body of [RunDiagnostics] in two parts: the facts written into
    [Details], then the checks appended to [Checks]. *)
Definition collectDetails (env : Env) : gmap string string :=
  let d0 : gmap string string := ∅ in
  let d1 := <["executable" := fst (os_Executable env)]> d0 in
  let d2 := <["rcc" := common_Version env]> d1 in
  let d3 := <["stats" := rccStatusLine env]> d2 in
  let d4 := <["micromamba" := conda_MicromambaVersion env]> d3 in
  let d5 := <["ROBOCORP_HOME" := conda_RobocorpHome env]> d4 in
  let d6 := <["user-cache-dir" := justText (os_UserCacheDir env)]> d5 in
  let d7 := <["user-config-dir" := justText (os_UserConfigDir env)]> d6 in
  let d8 := <["user-home-dir" := justText (os_UserHomeDir env)]> d7 in
  let d9 := <["working-dir" := justText (os_Getwd env)]> d8 in
  let d10 := <["tempdir" := os_TempDir env]> d9 in
  let d11 := <["controller" := common_ControllerIdentity env]> d10 in
  let d12 := <["installationId" := xviper_TrackingIdentity env]> d11 in
  let d13 := <["os" := runtime_GOOS env ++ " " ++ runtime_GOARCH env]> d12 in
  <["cpus" := fmt.d (runtime_NumCPU env)]> d13.

Definition RunDiagnostics (env : Env) : DiagnosticStatus :=
  let checks0 : list DiagnosticCheck := [] in
  let checks1 := (checks0 ++ [robocorpHomeCheck env])%list in
  let checks2 := (checks1 ++ [longPathSupportCheck env])%list in
  let checks3 :=
    fold_left (fun checks host => (checks ++ [dnsLookupCheck env host])%list)
              checkedHosts checks2 in
  let checks4 := (checks3 ++ [canaryDownloadCheck env])%list in
  {| Details := collectDetails env; Checks := checks4 |}.

(** The keys a [range] over a map may yield: each key once, in an order the
    language leaves open. *)
Definition map_range (m : gmap string string) (keys : list string) : Prop :=
  keys ≡ₚ (map_to_list m).*1.

(** [sort.Strings] puts the strings in increasing order, the order being
    that of their bytes, [String.le]. *)
Definition sort_Strings (keys : list string) : list string :=
  merge_sort String.le keys.

(** The sink of the renderings is the text written so far.  A call of
    [Fprintf] whose format ends in a newline is written as [Fprintln] of the
    formatted line. *)
Definition Fprintln (sink : string) (line : string) : string :=
  sink ++ line ++ String "010"%char EmptyString.

Definition detail_line (env : Env) (details : DiagnosticStatus) (key : string) : string :=
  let value := default "" (Details details !! key) in
  " - " ++ fmt.pad_right 18 key ++ "...  " ++ strconv_Quote env value.

Definition check_line (check : DiagnosticCheck) : string :=
  " - " ++ fmt.pad_right 8 (Type_ check) ++ " " ++
  fmt.pad_right 8 (Status check) ++ " " ++ Message check.

(** [humaneDiagnostics]; [ranged] is the order in which the [range] over
    [details.Details] yielded the keys. *)
Definition humaneDiagnostics (env : Env) (ranged : list string)
    (sink : string) (details : DiagnosticStatus) : string :=
  let sink := Fprintln sink "Diagnostics:" in
  let keys := fold_left (fun keys key => (keys ++ [key])%list) ranged [] in
  let keys := sort_Strings keys in
  let sink := fold_left (fun sink key => Fprintln sink (detail_line env details key))
                        keys sink in
  let sink := Fprintln sink "" in
  let sink := Fprintln sink "Checks:" in
  fold_left (fun sink check => Fprintln sink (check_line check)) (Checks details) sink.

(** ** Package [common] *)

Module common.

(** Modelled from the spec: the categories of the checks of the TLS core
    (link, tls-version, tls-verify, tls-chain); the declaration of the
    constants [CategoryNetwork...] is not among the source files. *)
Inductive Category : Type :=
| CategoryNetworkLink
| CategoryNetworkTLSVersion
| CategoryNetworkTLSVerify
| CategoryNetworkTLSChain.

#[global] Instance Category_eq_dec : EqDecision Category.
Proof. solve_decision. Defined.

(** Modelled from the spec: the check record of package [common], which
    carries a category besides the four fields of the record declared in
    [diagnostics.go]; its declaration is not among the source files. *)
Record DiagnosticCheck := {
  Type_ : string;
  Category_ : Category;
  Status : string;
  Message : string;
  Link : string
}.

End common.

(** ** [operations/tlscheck.go] *)

Definition VersionSSL30 : Z := 0x0300.
Definition VersionTLS10 : Z := 0x0301.
Definition VersionTLS11 : Z := 0x0302.
Definition VersionTLS12 : Z := 0x0303.
Definition VersionTLS13 : Z := 0x0304.

(** The package variable [tlsVersions], after [init] has run. *)
Definition tlsVersions : gmap Z string :=
  let m0 : gmap Z string := ∅ in
  let m1 := <[VersionSSL30 := "SSLv3"]> m0 in
  let m2 := <[VersionTLS10 := "TLS 1.0"]> m1 in
  let m3 := <[VersionTLS11 := "TLS 1.1"]> m2 in
  let m4 := <[VersionTLS12 := "TLS 1.2"]> m3 in
  <[VersionTLS13 := "TLS 1.3"]> m4.

Definition tlsCheckHeadOnly (env : Env) (url : string)
    : goresult (option ConnectionState) :=
  let transport := settings_ConfiguredHttpTransport env in
  let transport :=
    {| InsecureSkipVerify := true;
       MinVersion := MinVersion transport;
       RootCAs := RootCAs transport |} in
  let transport :=
    {| InsecureSkipVerify := InsecureSkipVerify transport;
       MinVersion := VersionSSL30;
       RootCAs := RootCAs transport |} in
  match http_Head env transport url with
  | Err err => Err err
  | Ok response_TLS => Ok response_TLS
  end.

(** One round of the loop of [certificateChain]: the text for the
    certificate at index [at_], or [None] when [Signature[:6]] is out of
    range. *)
Definition certificate_form (env : Env) (at_ : nat) (certificate : Certificate)
    : option string :=
  let names := String.concat ", " (DNSNames certificate) in
  let before := Time_Format_2006_Jan_02 (NotBefore certificate) in
  let after := Time_Format_2006_Jan_02 (NotAfter certificate) in
  match slice_to (Signature certificate) 6 with
  | None => None
  | Some signature =>
    Some ("#" ++ fmt.d (Z.of_nat at_) ++ ": [" ++ fmt.bytes_XX signature ++
          " ...] names [" ++ names ++ "] " ++ before ++ "..." ++ after ++ " " ++
          strconv_Quote env (Name_String (Subject certificate)) ++ " issued by " ++
          strconv_Quote env (Name_String (Issuer certificate)))
  end.

Fixpoint certificateChain_loop (env : Env) (at_ : nat)
    (certificates : list Certificate) (parts : list string)
    : outcome (list string) :=
  match certificates with
  | [] => Returned parts
  | certificate :: rest =>
    match certificate_form env at_ certificate with
    | None => Panicked "slice bounds out of range"
    | Some form => certificateChain_loop env (S at_) rest (parts ++ [form])%list
    end
  end.

Definition certificateChain (env : Env) (certificates : list Certificate)
    : outcome string :=
  match certificateChain_loop env 0 certificates [] with
  | Panicked reason => Panicked reason
  | Returned parts => Returned (String.concat "; " parts)
  end.

(** The loop of [tlsCheckHost] over [certificates[1:]]: it fills the pool
    of intermediates and leaves the last certificate seen in [last]. *)
Definition collect_intermediates (rest : list Certificate)
    (pool : CertPool) (last : Certificate) : CertPool * Certificate :=
  fold_left (fun acc certificate => (AddCert (fst acc) certificate, certificate))
            rest (pool, last).

(** [tlsCheckHost]: the checks it returns (or the panic that ends it), and
    the trust table [roots] as the call leaves it.  [roots] is the map that
    the caller has made and shares between the hosts it probes; the call
    on a table that may be nil is [tlsCheckHost_any].  The call
    panics when the response carries no TLS state ([state.ServerName] on a
    nil pointer) and when [certificateChain] does. *)
Definition tlsCheckHost (env : Env) (host : string) (roots : gmap string bool)
    : outcome (list common.DiagnosticCheck) * gmap string bool :=
  let transport := settings_ConfiguredHttpTransport env in
  let result : list common.DiagnosticCheck := [] in
  let supportNetworkUrl := settings_DocsLink env "troubleshooting/firewall-and-proxies" in
  let url := "https://" ++ host ++ "/" in
  match tlsCheckHeadOnly env url with
  | Err err =>
    let result := (result ++ [
      {| common.Type_ := "network";
         common.Category_ := common.CategoryNetworkLink;
         common.Status := statusWarning;
         common.Message := url ++ " -> " ++ err;
         common.Link := supportNetworkUrl |} ])%list in
    (Returned result, roots)
  | Ok None => (Panicked "nil pointer dereference", roots)
  | Ok (Some state) =>
    let server := ServerName state in
    let result :=
      match tlsVersions !! Version state with
      | None =>
        (result ++ [
          {| common.Type_ := "network";
             common.Category_ := common.CategoryNetworkTLSVersion;
             common.Status := statusWarning;
             common.Message := "unknown TLS version: " ++ strconv_Quote env host ++
                               " -> " ++ fmt.x03 (Z.to_N (Version state));
             common.Link := supportNetworkUrl |} ])%list
      | Some version =>
        let tlsStatus :=
          if (Version state <? VersionTLS12)%Z then statusWarning else statusOk in
        (result ++ [
          {| common.Type_ := "network";
             common.Category_ := common.CategoryNetworkTLSVersion;
             common.Status := tlsStatus;
             common.Message := "TLS version: " ++ strconv_Quote env host ++
                               " -> " ++ version;
             common.Link := supportNetworkUrl |} ])%list
      end in
    let certificates := PeerCertificates state in
    match certificates with
    | [] =>
      let result := (result ++ [
        {| common.Type_ := "network";
           common.Category_ := common.CategoryNetworkTLSVerify;
           common.Status := statusWarning;
           common.Message := "no certificates for " ++ server;
           common.Link := supportNetworkUrl |} ])%list in
      (Returned result, roots)
    | leaf :: rest =>
      let '(intermediates, last) := collect_intermediates rest NewCertPool leaf in
      let toVerify :=
        {| DNSName := server;
           Roots := RootCAs transport;
           Intermediates := intermediates |} in
      let err := x509_Verify env leaf toVerify in
      let roots := <[Name_String (Issuer last) := bool_decide (err = None)]> roots in
      match err with
      | Some err =>
        let result := (result ++ [
          {| common.Type_ := "network";
             common.Category_ := common.CategoryNetworkTLSVerify;
             common.Status := statusWarning;
             common.Message := "TLS verification of " ++ strconv_Quote env server ++
                               " failed, reason: " ++ err ++ " [last issuer: " ++
                               strconv_Quote env (Name_String (Issuer last)) ++ "]";
             common.Link := supportNetworkUrl |} ])%list in
        if common_DebugFlag env then
          match certificateChain env certificates with
          | Panicked reason => (Panicked reason, roots)
          | Returned chain =>
            let result := (result ++ [
              {| common.Type_ := "network";
                 common.Category_ := common.CategoryNetworkTLSChain;
                 common.Status := statusWarning;
                 common.Message := strconv_Quote env host ++
                                   " certificate chain is {" ++ chain ++ "}.";
                 common.Link := supportNetworkUrl |} ])%list in
            (Returned result, roots)
          end
        else (Returned result, roots)
      | None =>
        let result := (result ++ [
          {| common.Type_ := "network";
             common.Category_ := common.CategoryNetworkTLSVerify;
             common.Status := statusOk;
             common.Message := "TLS verification of " ++ strconv_Quote env server ++
                               " passed with certificate issued by " ++
                               strconv_Quote env (Name_String (Issuer last));
             common.Link := supportNetworkUrl |} ])%list in
        (Returned result, roots)
      end
    end
  end.

(** ** Package [encoding/json], for the report

    [MarshalIndent] and [Unmarshal] as they act on a value of type
    [DiagnosticStatus]: an object of two members, a map from strings to
    strings and an array of objects with four string members. *)

Module json.

Definition quote_char : ascii := "034"%char.
Definition backslash : ascii := "092"%char.
Definition newline : string := String "010"%char EmptyString.

(** The table [hex] of the encoder: lower-case digits. *)
Definition hex (n : N) : ascii :=
  (if n <? 10 then ascii_of_N (48 + n) else ascii_of_N (87 + n))%N.

(** [htmlSafeSet], for a byte below [utf8.RuneSelf]: the byte goes into a
    string literal as it is. *)
Definition htmlSafe (b : N) : bool :=
  ((0x20 <=? b) && negb (b =? 0x22) && negb (b =? 0x5C)
   && negb (b =? 0x3C) && negb (b =? 0x3E) && negb (b =? 0x26))%N.

(** What the encoder writes for a byte below [utf8.RuneSelf] that is not
    in [htmlSafeSet]: a backslash before a quote or a backslash, the short
    forms of backspace, form feed, newline, carriage return and tab, and
    the form [\u00XX] for the other control bytes and for [<], [>] and
    [&]. *)
Definition escape (b : N) : string :=
  (if (b =? 0x5C) || (b =? 0x22)
   then String backslash (String (ascii_of_N b) EmptyString)
   else if b =? 0x08 then String backslash "b"
   else if b =? 0x0C then String backslash "f"
   else if b =? 0x0A then String backslash "n"
   else if b =? 0x0D then String backslash "r"
   else if b =? 0x09 then String backslash "t"
   else String backslash
          (String "u" (String "0" (String "0"
            (String (hex (N.shiftr b 4)) (String (hex (N.land b 0xF)) EmptyString))))))%N.

(** The bytes that the encoder writes for a byte that does not belong to
    a well-formed rune: U+FFFD in UTF-8, not escaped. *)
Definition replacement : string :=
  String "239"%char (String "191"%char (String "189"%char EmptyString)).

(** The loop of the encoder over the bytes of a string.  After a rune of
    several bytes has been decoded at its first byte, [copy] counts the
    bytes of it still to be written as they are, and [drop] the bytes of it
    that an escape has replaced. *)
Fixpoint appendString_loop (copy drop : nat) (src : string) : string :=
  match src with
  | EmptyString => EmptyString
  | String c rest =>
    match copy, drop with
    | S k, _ => String c (appendString_loop k drop rest)
    | O, S k => appendString_loop O k rest
    | O, O =>
      let b := N_of_ascii c in
      if (b <? 0x80)%N then
        if htmlSafe b then String c (appendString_loop O O rest)
        else escape b ++ appendString_loop O O rest
      else
        let '(r, size) := utf8.DecodeRuneInString src in
        if (r =? utf8.RuneError)%N && (size =? 1)%nat then
          replacement ++ appendString_loop O O rest
        else if ((r =? 0x2028) || (r =? 0x2029))%N then
          String backslash "u202" ++ String (hex (N.land r 0xF)) EmptyString ++
          appendString_loop O (size - 1) rest
        else String c (appendString_loop (size - 1) O rest)
    end
  end.

(** [appendString] with HTML escaping, as [Marshal] uses it: the JSON
    string literal for [src]. *)
Definition appendString (src : string) : string :=
  String quote_char (appendString_loop 0 0 src ++ String quote_char EmptyString).

(** The indentation of [MarshalIndent(it, "", "  ")] at a depth. *)
Fixpoint indentation (depth : nat) : string :=
  match depth with
  | O => ""
  | S depth => "  " ++ indentation depth
  end.

(** Items one per line, separated by commas, each at the given depth. *)
Fixpoint items (depth : nat) (texts : list string) : string :=
  match texts with
  | [] => ""
  | [text] => newline ++ indentation depth ++ text
  | text :: texts =>
    newline ++ indentation depth ++ text ++ "," ++ items depth texts
  end.

(** An object whose members are given with their values already encoded. *)
Definition object_text (depth : nat) (members : list (string * string)) : string :=
  match members with
  | [] => "{}"
  | _ =>
    "{" ++ items (S depth)
             (List.map (fun m => appendString (fst m) ++ ": " ++ snd m) members) ++
    newline ++ indentation depth ++ "}"
  end.

Definition array_text (depth : nat) (elements : list string) : string :=
  match elements with
  | [] => "[]"
  | _ => "[" ++ items (S depth) elements ++ newline ++ indentation depth ++ "]"
  end.

(** A map is written with its keys in increasing order. *)
Definition map_text (depth : nat) (m : gmap string string) : string :=
  object_text depth
    (List.map (fun key => (key, appendString (default "" (m !! key))))
              (sort_Strings (map_to_list m).*1)).

Definition check_text (depth : nat) (check : DiagnosticCheck) : string :=
  object_text depth
    [ ("type", appendString (Type_ check));
      ("status", appendString (Status check));
      ("message", appendString (Message check));
      ("url", appendString (Link check)) ].

Definition MarshalIndent (it : DiagnosticStatus) : string :=
  object_text 0
    [ ("details", map_text 1 (Details it));
      ("checks", array_text 1 (List.map (check_text 2) (Checks it))) ].

(** *** Decoding *)

Definition isSpace (c : ascii) : bool :=
  let b := N_of_ascii c in
  ((b =? 0x20) || (b =? 0x09) || (b =? 0x0D) || (b =? 0x0A))%N.

Fixpoint skip_space (s : string) : string :=
  match s with
  | EmptyString => EmptyString
  | String c rest => if isSpace c then skip_space rest else s
  end.

(** The value of a hexadecimal digit. *)
Definition unhex (c : ascii) : option N :=
  let b := N_of_ascii c in
  (if (0x30 <=? b) && (b <=? 0x39) then Some (b - 0x30)
   else if (0x61 <=? b) && (b <=? 0x66) then Some (b - 0x61 + 10)
   else if (0x41 <=? b) && (b <=? 0x46) then Some (b - 0x41 + 10)
   else None)%N.

(** [getu4]: the number that the four digits after a [\u] denote. *)
Definition getu4 (h1 h2 h3 h4 : ascii) : option N :=
  match unhex h1, unhex h2, unhex h3, unhex h4 with
  | Some d1, Some d2, Some d3, Some d4 =>
    Some (((d1 * 16 + d2) * 16 + d3) * 16 + d4)%N
  | _, _, _, _ => None
  end.

(** [utf16.IsSurrogate] and [utf16.DecodeRune]. *)
Definition IsSurrogate (r : N) : bool := ((0xD800 <=? r) && (r <? 0xE000))%N.

Definition utf16_DecodeRune (r1 r2 : N) : N :=
  (if (0xD800 <=? r1) && (r1 <? 0xDC00) && (0xDC00 <=? r2) && (r2 <? 0xE000)
   then N.lor (N.shiftl (r1 - 0xD800) 10) (r2 - 0xDC00) + 0x10000
   else utf8.RuneError)%N.

Definition prepend (text : string) (r : option (string * string))
    : option (string * string) :=
  match r with
  | Some (decoded, rest) => Some (text ++ decoded, rest)
  | None => None
  end.

Definition char1 (c : ascii) : string := String c EmptyString.

(** [unquote], on the text that follows the opening quote of a string
    literal: the string the literal denotes, and the text after its
    closing quote.  [skip] counts the bytes still to be passed over of a
    rune that has been decoded at its first byte. *)
Fixpoint unquote (skip : nat) (s : string) : option (string * string) :=
  match s with
  | EmptyString => None
  | String c rest =>
    match skip with
    | S k => unquote k rest
    | O =>
      let b := N_of_ascii c in
      if (b =? 0x22)%N then Some (EmptyString, rest)
      else if (b =? 0x5C)%N then
        match rest with
        | EmptyString => None
        | String e rest1 =>
          let x := N_of_ascii e in
          if ((x =? 0x22) || (x =? 0x5C) || (x =? 0x2F))%N
          then prepend (char1 e) (unquote O rest1)
          else if (x =? 0x62)%N then prepend (char1 "008"%char) (unquote O rest1)
          else if (x =? 0x66)%N then prepend (char1 "012"%char) (unquote O rest1)
          else if (x =? 0x6E)%N then prepend (char1 "010"%char) (unquote O rest1)
          else if (x =? 0x72)%N then prepend (char1 "013"%char) (unquote O rest1)
          else if (x =? 0x74)%N then prepend (char1 "009"%char) (unquote O rest1)
          else if (x =? 0x75)%N then
            match rest1 with
            | String h1 (String h2 (String h3 (String h4 rest2))) =>
              match getu4 h1 h2 h3 h4 with
              | None => None
              | Some rr =>
                if IsSurrogate rr then
                  match rest2 with
                  | String b1 (String u1
                      (String g1 (String g2 (String g3 (String g4 rest3))))) =>
                    if ((N_of_ascii b1 =? 0x5C) && (N_of_ascii u1 =? 0x75))%N then
                      match getu4 g1 g2 g3 g4 with
                      | None => None
                      | Some rr1 =>
                        let dec := utf16_DecodeRune rr rr1 in
                        if (dec =? utf8.RuneError)%N
                        then prepend (utf8.EncodeRune utf8.RuneError) (unquote O rest2)
                        else prepend (utf8.EncodeRune dec) (unquote O rest3)
                      end
                    else prepend (utf8.EncodeRune utf8.RuneError) (unquote O rest2)
                  | _ => prepend (utf8.EncodeRune utf8.RuneError) (unquote O rest2)
                  end
                else prepend (utf8.EncodeRune rr) (unquote O rest2)
              end
            | _ => None
            end
          else None
        end
      else if (b <? 0x20)%N then None
      else if (b <? 0x80)%N then prepend (char1 c) (unquote O rest)
      else
        let '(rr, size) := utf8.DecodeRuneInString s in
        prepend (utf8.EncodeRune rr) (unquote (size - 1) rest)
    end
  end.

(** A string literal at the head of [s]. *)
Definition string_literal (s : string) : option (string * string) :=
  match s with
  | String c rest => if (N_of_ascii c =? 0x22)%N then unquote 0 rest else None
  | EmptyString => None
  end.

(** The byte [b] at the head of [s], after white space. *)
Definition expect (b : N) (s : string) : option string :=
  match skip_space s with
  | String c rest => if (N_of_ascii c =? b)%N then Some rest else None
  | EmptyString => None
  end.

(** The members of an object whose values are strings, from the first key
    to the closing brace. *)
Fixpoint string_members (fuel : nat) (s : string)
    : option (list (string * string) * string) :=
  match fuel with
  | O => None
  | S fuel =>
    match string_literal (skip_space s) with
    | None => None
    | Some (key, s) =>
      match expect 0x3A s with
      | None => None
      | Some s =>
        match string_literal (skip_space s) with
        | None => None
        | Some (value, s) =>
          match skip_space s with
          | String c rest =>
            if (N_of_ascii c =? 0x2C)%N then
              match string_members fuel rest with
              | Some (members, s) => Some ((key, value) :: members, s)
              | None => None
              end
            else if (N_of_ascii c =? 0x7D)%N then Some ([(key, value)], rest)
            else None
          | EmptyString => None
          end
        end
      end
    end
  end.

(** An object whose values are strings: its members in the order of the
    text. *)
Definition string_object (fuel : nat) (s : string)
    : option (list (string * string) * string) :=
  match expect 0x7B s with
  | None => None
  | Some s =>
    match expect 0x7D s with
    | Some rest => Some ([], rest)
    | None => string_members fuel s
    end
  end.

(** A map takes the members in order; a later member replaces an earlier
    one of the same key. *)
Definition map_of_members (members : list (string * string)) : gmap string string :=
  fold_left (fun m kv => <[fst kv := snd kv]> m) members ∅.

(** A check takes the members in order, by the names of the field tags;
    [None] for a member of another name. *)
Definition set_field (check : option DiagnosticCheck) (kv : string * string)
    : option DiagnosticCheck :=
  match check with
  | None => None
  | Some c =>
    if String.eqb (fst kv) "type" then
      Some {| Type_ := snd kv; Status := Status c; Message := Message c; Link := Link c |}
    else if String.eqb (fst kv) "status" then
      Some {| Type_ := Type_ c; Status := snd kv; Message := Message c; Link := Link c |}
    else if String.eqb (fst kv) "message" then
      Some {| Type_ := Type_ c; Status := Status c; Message := snd kv; Link := Link c |}
    else if String.eqb (fst kv) "url" then
      Some {| Type_ := Type_ c; Status := Status c; Message := Message c; Link := snd kv |}
    else None
  end.

Definition check_of_members (members : list (string * string)) : option DiagnosticCheck :=
  fold_left set_field members
    (Some {| Type_ := ""; Status := ""; Message := ""; Link := "" |}).

Definition check_object (fuel : nat) (s : string) : option (DiagnosticCheck * string) :=
  match string_object fuel s with
  | None => None
  | Some (members, rest) =>
    match check_of_members members with
    | None => None
    | Some check => Some (check, rest)
    end
  end.

(** The elements of the array of checks, from the first element to the
    closing bracket. *)
Fixpoint check_elements (fuel : nat) (s : string)
    : option (list DiagnosticCheck * string) :=
  match fuel with
  | O => None
  | S fuel =>
    match check_object fuel s with
    | None => None
    | Some (check, s) =>
      match skip_space s with
      | String c rest =>
        if (N_of_ascii c =? 0x2C)%N then
          match check_elements fuel rest with
          | Some (checks, s) => Some (check :: checks, s)
          | None => None
          end
        else if (N_of_ascii c =? 0x5D)%N then Some ([check], rest)
        else None
      | EmptyString => None
      end
    end
  end.

Definition check_array (fuel : nat) (s : string)
    : option (list DiagnosticCheck * string) :=
  match expect 0x5B s with
  | None => None
  | Some s =>
    match expect 0x5D s with
    | Some rest => Some ([], rest)
    | None => check_elements fuel s
    end
  end.

(** The members of the report, from the first key to the closing brace. *)
Fixpoint report_members (fuel : nat) (it : DiagnosticStatus) (s : string)
    : option (DiagnosticStatus * string) :=
  match fuel with
  | O => None
  | S fuel =>
    match string_literal (skip_space s) with
    | None => None
    | Some (key, s) =>
      match expect 0x3A s with
      | None => None
      | Some s =>
        let member :=
          if String.eqb key "details" then
            match string_object fuel s with
            | Some (members, s) =>
              Some ({| Details := map_of_members members; Checks := Checks it |}, s)
            | None => None
            end
          else if String.eqb key "checks" then
            match check_array fuel s with
            | Some (checks, s) =>
              Some ({| Details := Details it; Checks := checks |}, s)
            | None => None
            end
          else None in
        match member with
        | None => None
        | Some (it, s) =>
          match skip_space s with
          | String c rest =>
            if (N_of_ascii c =? 0x2C)%N then report_members fuel it rest
            else if (N_of_ascii c =? 0x7D)%N then Some (it, rest)
            else None
          | EmptyString => None
          end
        end
      end
    end
  end.

(** [Unmarshal] into a fresh [DiagnosticStatus].  The decoder covers the
    documents made of the members that the report has, with string values;
    it answers [None] for a text that is not JSON and for a document with
    a member of another name or another type of value. *)
Definition Unmarshal (data : string) : option DiagnosticStatus :=
  let fuel := String.length data in
  let zero := {| Details := ∅; Checks := [] |} in
  match expect 0x7B data with
  | None => None
  | Some s =>
    let parsed :=
      match expect 0x7D s with
      | Some rest => Some (zero, rest)
      | None => report_members fuel zero s
      end in
    match parsed with
    | None => None
    | Some (it, rest) =>
      match skip_space rest with
      | EmptyString => Some it
      | String _ _ => None
      end
    end
  end.

End json.

(** [AsJson]: [json.MarshalIndent(it, "", "  ")], which has no error for a
    value of this type. *)
Definition AsJson (it : DiagnosticStatus) : string * option error :=
  (json.MarshalIndent it, None).

(** ** Concrete environments *)

Module Examples.

(** A quoting function for the examples: the text between two quotes. *)
Definition quote_plain (s : string) : string :=
  String "034"%char (s ++ String "034"%char EmptyString).

(** An environment in which everything local is in order; the debug flag
    and the three network collaborators of interest are left open. *)
Definition example_env (debug : bool)
    (lookup : string -> goresult (list string))
    (head : TLSClientConfig -> string -> goresult (option ConnectionState))
    (verify : Certificate -> VerifyOptions -> option error) : Env :=
  {| os_Executable := ("/usr/local/bin/rcc", None);
     os_UserCacheDir := ("/home/user/.cache", None);
     os_UserConfigDir := ("/home/user/.config", None);
     os_UserHomeDir := ("/home/user", None);
     os_Getwd := ("/home/user/robot", None);
     os_TempDir := "/tmp";
     runtime_GOOS := "linux";
     runtime_GOARCH := "amd64";
     runtime_NumCPU := 4;
     common_Version := "v9.9.9";
     common_ControllerIdentity := "rcc.user";
     common_DebugFlag := debug;
     xviper_GetInt := fun _ => 0%Z;
     xviper_TrackingIdentity := "c0ffee";
     conda_TemplateList := [];
     conda_MicromambaVersion := "0.7.14";
     conda_RobocorpHome := "/home/user/.robocorp";
     conda_ValidLocation := fun _ => true;
     conda_HasLongPathSupport := true;
     net_LookupHost := lookup;
     cloud_NewClient := fun _ => Err "dial tcp: i/o timeout";
     settings_ConfiguredHttpTransport :=
       {| InsecureSkipVerify := false; MinVersion := VersionTLS12; RootCAs := None |};
     settings_DocsLink := fun page => "https://robocorp.com/docs/" ++ page;
     http_Head := head;
     x509_Verify := verify;
     strconv_Quote := quote_plain |}.

Definition lookup_fails (site : string) : goresult (list string) :=
  Err ("lookup " ++ site ++ ": no such host").

Definition lookup_finds (site : string) : goresult (list string) :=
  Ok ["192.0.2.1"].

Definition head_times_out (config : TLSClientConfig) (url : string)
    : goresult (option ConnectionState) :=
  Err "context deadline exceeded".

Definition verify_passes (leaf : Certificate) (options : VerifyOptions)
    : option error := None.

Definition verify_fails (leaf : Certificate) (options : VerifyOptions)
    : option error := Some "x509: certificate signed by unknown authority".

Definition a_date : Time := {| Year := 2022; Mon := March; Day := 7 |}.

(** A certificate with a signature of the given bytes and no spare
    capacity behind them. *)
Definition cert_with_signature (subject issuer : string) (signature : list byte)
    : Certificate :=
  {| Raw := signature;
     Signature := {| elems := signature; spare := [] |};
     DNSNames := [subject];
     NotBefore := a_date;
     NotAfter := a_date;
     Subject := {| Name_String := "CN=" ++ subject |};
     Issuer := {| Name_String := "CN=" ++ issuer |} |}.

Definition eight_bytes : list byte := [x30; x45; x02; x21; x00; xa1; xb2; xc3].

Definition leaf_cert : Certificate :=
  cert_with_signature "good.example" "Example Intermediate" eight_bytes.

Definition intermediate_cert : Certificate :=
  cert_with_signature "Example Intermediate" "Example Root" (x01 :: eight_bytes).

(** A certificate whose signature holds two bytes only. *)
Definition short_cert : Certificate :=
  cert_with_signature "short.example" "Example Root" [x30; x45].

(** A certificate whose signature holds two bytes, in a backing array that
    has eight. *)
Definition short_cert_with_spare : Certificate :=
  {| Raw := [x30; x45];
     Signature := {| elems := [x30; x45]; spare := [x02; x21; x00; xa1; xb2; xc3] |};
     DNSNames := ["short.example"];
     NotBefore := a_date;
     NotAfter := a_date;
     Subject := {| Name_String := "CN=short.example" |};
     Issuer := {| Name_String := "CN=Example Root" |} |}.

Definition head_answers (version : Z) (chain : list Certificate)
    (config : TLSClientConfig) (url : string)
    : goresult (option ConnectionState) :=
  Ok (Some {| Version := version;
              ServerName := "good.example";
              PeerCertificates := chain |}).

(** The network is down: no name resolves, no handshake completes. *)
Definition env_offline : Env :=
  example_env false lookup_fails head_times_out verify_fails.

(** TLS 1.3 and a chain of two certificates that verifies. *)
Definition env_good : Env :=
  example_env false lookup_finds
    (head_answers VersionTLS13 [leaf_cert; intermediate_cert]) verify_passes.

(** TLS 1.0 and the same chain, which does not verify. *)
Definition env_untrusted : Env :=
  example_env false lookup_finds
    (head_answers VersionTLS10 [leaf_cert; intermediate_cert]) verify_fails.

(** A server that presents no certificate. *)
Definition env_no_certificates : Env :=
  example_env false lookup_finds (head_answers VersionTLS12 []) verify_fails.

(** Debug mode, a version outside the table, and a chain that does not
    verify and ends in a certificate with a two-byte signature. *)
Definition env_debug_short : Env :=
  example_env true lookup_finds
    (head_answers 0x0305 [leaf_cert; short_cert]) verify_fails.

(** The same with TLS 1.3. *)
Definition env_debug_short_tls13 : Env :=
  example_env true lookup_finds
    (head_answers VersionTLS13 [leaf_cert; short_cert]) verify_fails.

End Examples.

(** ** Vocabulary of the properties *)

(** The four values a status may take. *)
Definition known_statuses : list string :=
  [statusOk; statusWarning; statusFail; statusFatal].

(** What every check is to carry: some message, and a known status. *)
Definition well_formed (status message : string) : Prop :=
  message <> "" /\ In status known_statuses.

(** [sub] occurs in [s]. *)
Definition contains (s sub : string) : Prop :=
  exists before after, s = before ++ sub ++ after.

(** The number of checks of a category among [checks]. *)
Definition count_category (category : common.Category)
    (checks : list common.DiagnosticCheck) : nat :=
  length (filter (fun c => common.Category_ c = category) checks).

(** The URL that [tlsCheckHost] probes for [host]. *)
Definition probe_url (host : string) : string := "https://" ++ host ++ "/".

(** The outcome of [certificates[0].Verify(toVerify)] for the chain
    [leaf :: rest] that [state] presents, with the options that
    [tlsCheckHost] assembles. *)
Definition verification (env : Env) (state : ConnectionState)
    (leaf : Certificate) (rest : list Certificate) : option error :=
  x509_Verify env leaf
    {| DNSName := ServerName state;
       Roots := RootCAs (settings_ConfiguredHttpTransport env);
       Intermediates := fst (collect_intermediates rest NewCertPool leaf) |}.

(** The text [certificateChain] is to give for the certificate at index
    [at_]: the first six bytes of the signature, then names, validity,
    subject and issuer. *)
Definition certificate_text (env : Env) (at_ : nat) (certificate : Certificate)
    : string :=
  "#" ++ fmt.d (Z.of_nat at_) ++ ": [" ++
  fmt.bytes_XX (take 6 (elems (Signature certificate))) ++
  " ...] names [" ++ String.concat ", " (DNSNames certificate) ++ "] " ++
  Time_Format_2006_Jan_02 (NotBefore certificate) ++ "..." ++
  Time_Format_2006_Jan_02 (NotAfter certificate) ++ " " ++
  strconv_Quote env (Name_String (Subject certificate)) ++ " issued by " ++
  strconv_Quote env (Name_String (Issuer certificate)).

(** The text of a sequence of lines, each ended by a newline. *)
Fixpoint text_lines (lines : list string) : string :=
  match lines with
  | [] => ""
  | line :: lines => line ++ String "010"%char EmptyString ++ text_lines lines
  end.

(** [s], then blanks up to a width of [width] runes. *)
Definition left_justified (width : nat) (s : string) : string :=
  s ++ string_of_list_ascii (repeat " "%char (width - utf8.RuneCountInString s)).

(** The line that the rendering is to print for an entry of the details:
    the key in a column of eighteen, then the value of that key, quoted. *)
Definition entry_text (env : Env) (entry : string * string) : string :=
  " - " ++ left_justified 18 (fst entry) ++ "...  " ++ strconv_Quote env (snd entry).

(** The line that the rendering is to print for a check: its type and its
    status, each in a column of eight, then its message. *)
Definition check_entry_text (check : DiagnosticCheck) : string :=
  " - " ++ left_justified 8 (Type_ check) ++ " " ++
  left_justified 8 (Status check) ++ " " ++ Message check.

Module JsonExamples.

Definition small_report : DiagnosticStatus :=
  {| Details := <["os" := "linux amd64"]> (<["cpus" := "4"]> (<["tempdir" := "/tmp"]> ∅));
     Checks :=
       [ {| Type_ := "OS"; Status := "ok";
            Message := "Supports long enough paths."; Link := supportLongPathUrl |};
         {| Type_ := "network"; Status := "fail";
            Message := "DNS lookup <pypi.org> failed & gave up";
            Link := supportNetworkUrl |} ] |}.

End JsonExamples.

(** *** Vocabulary of the JSON round trip *)

(** The text of a member whose value is a string. *)
Definition member_text (kv : string * string) : string :=
  json.appendString (fst kv) ++ ": " ++ json.appendString (snd kv).

Definition valid_member (kv : string * string) : Prop :=
  utf8.ValidString (fst kv) = true /\ utf8.ValidString (snd kv) = true.

(** The four fields of a check are valid UTF-8. *)
Definition valid_check (check : DiagnosticCheck) : Prop :=
  utf8.ValidString (Type_ check) = true
  /\ utf8.ValidString (Status check) = true
  /\ utf8.ValidString (Message check) = true
  /\ utf8.ValidString (Link check) = true.

(** The members of the object written for a check, in the order of the
    fields. *)
Definition check_members (check : DiagnosticCheck) : list (string * string) :=
  [ ("type", Type_ check); ("status", Status check);
    ("message", Message check); ("url", Link check) ].

(** The members of the object written for a map, by increasing key. *)
Definition detail_members (m : gmap string string) : list (string * string) :=
  List.map (fun key => (key, default "" (m !! key))) (sort_Strings (map_to_list m).*1).

(** The keys and the values of the details are valid UTF-8. *)
Definition valid_details (m : gmap string string) : Prop :=
  map_Forall (fun key value =>
    utf8.ValidString key = true /\ utf8.ValidString value = true) m.

(** Every string of the report is valid UTF-8. *)
Definition valid_report (it : DiagnosticStatus) : Prop :=
  valid_details (Details it) /\ Forall valid_check (Checks it).

Module JsonFailure.




(** The replacement character U+FFFD in UTF-8. *)
Definition replacement : string :=
  String "239"%char (String "191"%char (String "189"%char EmptyString)).

End JsonFailure.

(** ** [operations/diagnostics.go]: the output of the report *)

(** What a function does to the process: it goes on with a value, or it
    ends the process through [pretty.Exit]. *)
Inductive process (A : Type) : Type :=
| Continues (a : A)
| Exits (code : Z) (message : string).
Arguments Continues {A} a.
Arguments Exits {A} code message.

(** [jsonDiagnostics], on the text written to the sink so far. *)
Definition jsonDiagnostics (sink : string) (details : DiagnosticStatus)
    : process string :=
  match AsJson details with
  | (form, Some err) => Exits 1 ("Error: " ++ err)
  | (form, None) => Continues (Fprintln sink form)
  end.

(** A file: its permission bits and its content. *)
Record File := {
  Perm : Z;
  Content : string
}.

(** Where output can go: the standard output stream, which may have been
    closed, and the files by name. *)
Record Sinks := {
  Stdout : string;
  StdoutClosed : bool;
  Files : gmap string File
}.

(** An [io.WriteCloser] as [fileIt] hands it out: [os.Stdout], or a file
    opened for writing at its start. *)
Inductive WriteCloser : Type :=
| os_Stdout
| opened (filename : string).

(** The part of the operating system behind [os.OpenFile]: whether a file
    can be opened for writing, and the creation mask of the process. *)
Record OS := {
  os_OpenFile_error : string -> option error;
  os_umask : Z
}.

(** [os.OpenFile(filename, os.O_WRONLY|os.O_CREATE|os.O_TRUNC, 0o600)]:
    an existing file is emptied and keeps its permission bits, a missing
    one is created empty with the bits of 0o600 that the mask leaves; a
    failure leaves the files as they are. *)
Definition OpenFile_write_create_truncate (os : OS) (filename : string)
    (world : Sinks) : goresult (WriteCloser * Sinks) :=
  match os_OpenFile_error os filename with
  | Some err => Err err
  | None =>
    let file :=
      match Files world !! filename with
      | Some existing => {| Perm := Perm existing; Content := "" |}
      | None => {| Perm := Z.land 384 (Z.lnot (os_umask os)); Content := "" |}
      end in
    Ok (opened filename,
        {| Stdout := Stdout world;
           StdoutClosed := StdoutClosed world;
           Files := <[filename := file]> (Files world) |})
  end.

Definition fileIt (os : OS) (filename : string) (world : Sinks)
    : goresult (WriteCloser * Sinks) :=
  if (String.length filename =? 0)%nat then Ok (os_Stdout, world)
  else OpenFile_write_create_truncate os filename world.

(** The text that a sink holds: what went to the stream, or the content
    of the file. *)
Definition sink_text (file : WriteCloser) (world : Sinks) : string :=
  match file with
  | os_Stdout => Stdout world
  | opened filename => default "" (Content <$> Files world !! filename)
  end.

(** The sink after writes that bring its text to [text].  Writes to a
    closed stream fail and leave no trace; the package ignores the
    failure. *)
Definition set_sink_text (file : WriteCloser) (text : string) (world : Sinks)
    : Sinks :=
  match file with
  | os_Stdout =>
    if StdoutClosed world then world
    else {| Stdout := text;
            StdoutClosed := StdoutClosed world;
            Files := Files world |}
  | opened filename =>
    match Files world !! filename with
    | None => world
    | Some f =>
      {| Stdout := Stdout world;
         StdoutClosed := StdoutClosed world;
         Files := <[filename := {| Perm := Perm f; Content := text |}]> (Files world) |}
    end
  end.

(** A function that writes to a sink, given by what it makes of the text
    written so far, run on a [WriteCloser]. *)
Definition write_through (file : WriteCloser) (writes : string -> process string)
    (world : Sinks) : process Sinks :=
  match writes (sink_text file world) with
  | Exits code message => Exits code message
  | Continues text => Continues (set_sink_text file text world)
  end.

(** [file.Close()]. *)
Definition Close (file : WriteCloser) (world : Sinks) : Sinks :=
  match file with
  | os_Stdout =>
    {| Stdout := Stdout world; StdoutClosed := true; Files := Files world |}
  | opened _ => world
  end.

(** [PrintDiagnostics]: the error it returns, or the end of the process,
    and the sinks as it leaves them.  [ranged] is the order in which the
    [range] of [humaneDiagnostics] yields the keys.  The deferred
    [file.Close()] runs when the function returns, not when the process is
    ended by [pretty.Exit]. *)
Definition PrintDiagnostics (env : Env) (os : OS) (ranged : list string)
    (filename : string) (json : bool) (world : Sinks)
    : process (option error) * Sinks :=
  match fileIt os filename world with
  | Err err => (Continues (Some err), world)
  | Ok (file, world) =>
    let result := RunDiagnostics env in
    let written :=
      if json then
        write_through file (fun sink => jsonDiagnostics sink result) world
      else
        write_through file
          (fun sink => Continues (humaneDiagnostics env ranged sink result)) world in
    match written with
    | Exits code message => (Exits code message, world)
    | Continues world => (Continues None, Close file world)
    end
  end.

(** *** Vocabulary of the further properties *)

(** The canary download finds the expected text. *)
Definition canary_found (env : Env) : Prop :=
  exists client,
    cloud_NewClient env canaryHost = Ok client
    /\ Response_Status (Client_Get client canaryUrl) = 200%Z
    /\ Response_Body (Client_Get client canaryUrl) = "Used to testing connections".

(** Everything that [RunDiagnostics] checks is in order. *)
Definition healthy (env : Env) : Prop :=
  conda_ValidLocation env (conda_RobocorpHome env) = true
  /\ conda_HasLongPathSupport env = true
  /\ (forall host, In host checkedHosts ->
        exists found, net_LookupHost env host = Ok found)
  /\ canary_found env.

(** The categories of a list of checks, in order. *)
Definition categories (checks : list common.DiagnosticCheck) : list common.Category :=
  List.map common.Category_ checks.

Module SinkExamples.

Definition os_writable : OS :=
  {| os_OpenFile_error := fun _ => None; os_umask := 18 |}.

Definition os_read_only : OS :=
  {| os_OpenFile_error := fun filename =>
       Some ("open " ++ filename ++ ": permission denied");
     os_umask := 18 |}.

(** A terminal with a prompt on it, and one file that everybody may read
    and write. *)
Definition world_before : Sinks :=
  {| Stdout := "$ rcc configure diagnostics" ++ json.newline;
     StdoutClosed := false;
     Files := {[ "report.txt" := {| Perm := 438; Content := "old report" |} ]} |}.

(** A second host, behind the same issuer as the chain of [env_good], whose
    chain does not verify. *)
Definition other_leaf : Certificate :=
  Examples.cert_with_signature "other.example" "Example Root" Examples.eight_bytes.

Definition head_by_host (config : TLSClientConfig) (url : string)
    : goresult (option ConnectionState) :=
  if String.eqb url "https://other.example/" then
    Ok (Some {| Version := VersionTLS12;
                ServerName := "other.example";
                PeerCertificates := [other_leaf] |})
  else
    Ok (Some {| Version := VersionTLS13;
                ServerName := "good.example";
                PeerCertificates := [Examples.leaf_cert; Examples.intermediate_cert] |}).

Definition verify_by_name (leaf : Certificate) (options : VerifyOptions)
    : option error :=
  if String.eqb (DNSName options) "good.example" then None
  else Some "x509: certificate signed by unknown authority".

Definition env_two_hosts : Env :=
  Examples.example_env false Examples.lookup_finds head_by_host verify_by_name.

End SinkExamples.

(** *** Strings made valid *)

(** The bytes of the replacement character U+FFFD. *)
Definition replacement_bytes : string := utf8.EncodeRune utf8.RuneError.

(** A string with every byte that does not belong to a well-formed rune
    replaced by U+FFFD.  [copy] counts the bytes still to be taken over
    of a rune that has been decoded at its first byte. *)
Fixpoint to_valid_from (copy : nat) (s : string) : string :=
  match s with
  | EmptyString => EmptyString
  | String c rest =>
    match copy with
    | S k => String c (to_valid_from k rest)
    | O =>
      let '(r, size) := utf8.DecodeRuneInString s in
      if (r =? utf8.RuneError)%N && (size =? 1)%nat
      then replacement_bytes ++ to_valid_from O rest
      else String c (to_valid_from (size - 1) rest)
    end
  end.

Definition to_valid (s : string) : string := to_valid_from 0 s.

Definition to_valid_check (check : DiagnosticCheck) : DiagnosticCheck :=
  {| Type_ := to_valid (Type_ check);
     Status := to_valid (Status check);
     Message := to_valid (Message check);
     Link := to_valid (Link check) |}.

Definition to_valid_member (kv : string * string) : string * string :=
  (to_valid (fst kv), to_valid (snd kv)).

(** ** [tlsCheckHost] on a table that may be nil *)

(** A Go map as a function receives it: the nil map, or a map that has
    been made. *)
Inductive gomap : Type :=
| nil_map
| made (entries : gmap string bool).

(** [m[key] = value]: the assignment to an entry of the nil map panics. *)
Definition assign (m : gomap) (key : string) (value : bool) : outcome gomap :=
  match m with
  | nil_map => Panicked "assignment to entry in nil map"
  | made entries => Returned (made (<[key := value]> entries))
  end.

(** [tlsCheckHost] with a table [roots] that the caller may have left nil:
    the checks it returns (or the panic that ends it), and the table as
    the call leaves it.  Besides the panics on a response without TLS
    state and in [certificateChain], the assignment
    [roots[last.Issuer.String()] = err == nil] panics on the nil map. *)
Definition tlsCheckHost_any (env : Env) (host : string) (roots : gomap)
    : outcome (list common.DiagnosticCheck) * gomap :=
  let transport := settings_ConfiguredHttpTransport env in
  let result : list common.DiagnosticCheck := [] in
  let supportNetworkUrl := settings_DocsLink env "troubleshooting/firewall-and-proxies" in
  let url := "https://" ++ host ++ "/" in
  match tlsCheckHeadOnly env url with
  | Err err =>
    let result := (result ++ [
      {| common.Type_ := "network";
         common.Category_ := common.CategoryNetworkLink;
         common.Status := statusWarning;
         common.Message := url ++ " -> " ++ err;
         common.Link := supportNetworkUrl |} ])%list in
    (Returned result, roots)
  | Ok None => (Panicked "nil pointer dereference", roots)
  | Ok (Some state) =>
    let server := ServerName state in
    let result :=
      match tlsVersions !! Version state with
      | None =>
        (result ++ [
          {| common.Type_ := "network";
             common.Category_ := common.CategoryNetworkTLSVersion;
             common.Status := statusWarning;
             common.Message := "unknown TLS version: " ++ strconv_Quote env host ++
                               " -> " ++ fmt.x03 (Z.to_N (Version state));
             common.Link := supportNetworkUrl |} ])%list
      | Some version =>
        let tlsStatus :=
          if (Version state <? VersionTLS12)%Z then statusWarning else statusOk in
        (result ++ [
          {| common.Type_ := "network";
             common.Category_ := common.CategoryNetworkTLSVersion;
             common.Status := tlsStatus;
             common.Message := "TLS version: " ++ strconv_Quote env host ++
                               " -> " ++ version;
             common.Link := supportNetworkUrl |} ])%list
      end in
    let certificates := PeerCertificates state in
    match certificates with
    | [] =>
      let result := (result ++ [
        {| common.Type_ := "network";
           common.Category_ := common.CategoryNetworkTLSVerify;
           common.Status := statusWarning;
           common.Message := "no certificates for " ++ server;
           common.Link := supportNetworkUrl |} ])%list in
      (Returned result, roots)
    | leaf :: rest =>
      let '(intermediates, last) := collect_intermediates rest NewCertPool leaf in
      let toVerify :=
        {| DNSName := server;
           Roots := RootCAs transport;
           Intermediates := intermediates |} in
      let err := x509_Verify env leaf toVerify in
      match assign roots (Name_String (Issuer last)) (bool_decide (err = None)) with
      | Panicked reason => (Panicked reason, roots)
      | Returned roots =>
        match err with
        | Some err =>
          let result := (result ++ [
            {| common.Type_ := "network";
               common.Category_ := common.CategoryNetworkTLSVerify;
               common.Status := statusWarning;
               common.Message := "TLS verification of " ++ strconv_Quote env server ++
                                 " failed, reason: " ++ err ++ " [last issuer: " ++
                                 strconv_Quote env (Name_String (Issuer last)) ++ "]";
               common.Link := supportNetworkUrl |} ])%list in
          if common_DebugFlag env then
            match certificateChain env certificates with
            | Panicked reason => (Panicked reason, roots)
            | Returned chain =>
              let result := (result ++ [
                {| common.Type_ := "network";
                   common.Category_ := common.CategoryNetworkTLSChain;
                   common.Status := statusWarning;
                   common.Message := strconv_Quote env host ++
                                     " certificate chain is {" ++ chain ++ "}.";
                   common.Link := supportNetworkUrl |} ])%list in
              (Returned result, roots)
            end
          else (Returned result, roots)
        | None =>
          let result := (result ++ [
            {| common.Type_ := "network";
               common.Category_ := common.CategoryNetworkTLSVerify;
               common.Status := statusOk;
               common.Message := "TLS verification of " ++ strconv_Quote env server ++
                                 " passed with certificate issued by " ++
                                 strconv_Quote env (Name_String (Issuer last));
               common.Link := supportNetworkUrl |} ])%list in
          (Returned result, roots)
        end
      end
    end
  end.

(** *** Reports whose keys are valid *)


Module JsonKeys.

(** A report with two keys that are not UTF-8: the bytes 0xFE and 0xFF. *)
Definition colliding_report : DiagnosticStatus :=
  {| Details := <[String "254"%char EmptyString := "first"]>
                  (<[String "255"%char EmptyString := "second"]> ∅);
     Checks := [] |}.

End JsonKeys.

(** * Properties *)

(** ** Lists built by appending in a loop *)

Lemma fold_left_snoc {A B : Type} (f : B -> A) (l : list B) (acc : list A) :
  fold_left (fun acc x => (acc ++ [f x])%list) l acc = (acc ++ List.map f l)%list.
Proof.
  revert acc. induction l as [|x l IH]; intros acc; simpl.
  - by rewrite app_nil_r.
  - rewrite IH. by rewrite <- app_assoc.
Qed.

Lemma lookup_map {A B : Type} (f : A -> B) (l : list A) (i : nat) :
  List.map f l !! i = f <$> (l !! i).
Proof.
  revert i. induction l as [|x l IH]; intros [|i]; simpl; auto.
Qed.

Lemma RunDiagnostics_Checks (env : Env) :
  Checks (RunDiagnostics env) =
    ([robocorpHomeCheck env; longPathSupportCheck env] ++
     List.map (dnsLookupCheck env) checkedHosts ++
     [canaryDownloadCheck env])%list.
Proof.
  unfold RunDiagnostics. cbn [Checks].
  rewrite (fold_left_snoc (dnsLookupCheck env)).
  by rewrite <- !app_assoc.
Qed.

(** ** Strings *)

Lemma append_nonempty_r (s t : string) : t <> "" -> s ++ t <> "".
Proof.
  intros Ht H. destruct s as [|c s]; simpl in H; [done | discriminate].
Qed.

Lemma append_nonempty_l (s t : string) : s <> "" -> s ++ t <> "".
Proof.
  intros Hs H. destruct s as [|c s]; simpl in H; [done | discriminate].
Qed.

Lemma append_empty_r (s : string) : s ++ "" = s.
Proof.
  induction s as [|c s IH]; [reflexivity |].
  change (String c (s ++ "") = String c s). by rewrite IH.
Qed.

Lemma append_assoc (s t u : string) : (s ++ t) ++ u = s ++ t ++ u.
Proof.
  induction s as [|c s IH]; [reflexivity |].
  change (String c ((s ++ t) ++ u) = String c (s ++ t ++ u)). by rewrite IH.
Qed.

Lemma contains_middle (before sub after : string) :
  contains (before ++ sub ++ after) sub.
Proof. by exists before, after. Qed.

Lemma contains_prefix (sub after : string) : contains (sub ++ after) sub.
Proof. by exists "", after. Qed.

(** ** The producers of [diagnostics.go] *)

Ltac known_status :=
  unfold known_statuses; simpl; auto 6.

Lemma robocorpHomeCheck_well_formed (env : Env) :
  well_formed (Status (robocorpHomeCheck env)) (Message (robocorpHomeCheck env)).
Proof.
  unfold robocorpHomeCheck.
  destruct (negb _); split; simpl; try discriminate; known_status.
Qed.

Lemma longPathSupportCheck_well_formed (env : Env) :
  well_formed (Status (longPathSupportCheck env)) (Message (longPathSupportCheck env)).
Proof.
  unfold longPathSupportCheck.
  destruct (conda_HasLongPathSupport env); split; simpl; try discriminate; known_status.
Qed.

Lemma dnsLookupCheck_well_formed (env : Env) (site : string) :
  well_formed (Status (dnsLookupCheck env site)) (Message (dnsLookupCheck env site)).
Proof.
  unfold dnsLookupCheck.
  destruct (net_LookupHost env site) as [found|err]; split; simpl;
    try discriminate; try known_status.
  apply append_nonempty_r. discriminate.
Qed.

Lemma canaryDownloadCheck_well_formed (env : Env) :
  well_formed (Status (canaryDownloadCheck env)) (Message (canaryDownloadCheck env)).
Proof.
  unfold canaryDownloadCheck.
  destruct (cloud_NewClient env canaryHost) as [client|err].
  - destruct (_ || _); split; simpl; try discriminate; known_status.
  - split; simpl; try discriminate; known_status.
Qed.

Lemma dnsLookupCheck_failure (env : Env) (site : string) (err : error) :
  net_LookupHost env site = Err err ->
  dnsLookupCheck env site =
    {| Type_ := "network";
       Status := statusFail;
       Message := "DNS lookup " ++ site ++ " failed: " ++ err;
       Link := supportNetworkUrl |}.
Proof. intros H. unfold dnsLookupCheck. by rewrite H. Qed.

(** C6, as amended.  [RunDiagnostics] appends the home-directory validity
    check first, the path-length capability check second, then one DNS
    check per host of [checkedHosts] in the order of that list, and the
    canary-download check last; the report holds exactly these checks, in
    that order, none dropped and none merged. *)
Theorem RunDiagnostics_check_order (env : Env) :
  Checks (RunDiagnostics env) =
    (robocorpHomeCheck env :: longPathSupportCheck env ::
     List.map (dnsLookupCheck env) checkedHosts ++ [canaryDownloadCheck env])%list
  /\ length (Checks (RunDiagnostics env)) = (2 + length checkedHosts + 1)%nat.
Proof.
  rewrite RunDiagnostics_Checks. split; [done |].
  simpl. reflexivity.
Qed.

(** C6 as the claim words it (path-length check first, home-directory
    check second) fails: in the offline environment the report starts with
    the home-directory check. *)
Lemma RunDiagnostics_claimed_order_fails :
  Checks (RunDiagnostics Examples.env_offline) <>
    (longPathSupportCheck Examples.env_offline ::
     robocorpHomeCheck Examples.env_offline ::
     List.map (dnsLookupCheck Examples.env_offline) checkedHosts ++
     [canaryDownloadCheck Examples.env_offline])%list
  /\ Type_ <$> head (Checks (RunDiagnostics Examples.env_offline)) = Some "RPA"
  /\ Type_ (longPathSupportCheck Examples.env_offline) = "OS".
Proof.
  split; [| split]; [| reflexivity | reflexivity].
  rewrite RunDiagnostics_Checks. intros H. discriminate H.
Qed.

(** C5, as amended.  For every host of the configured list whose DNS
    lookup fails, the report holds, at the host's place after the two local
    checks, a check of type network with status fail (not warning) that
    carries the error text; the failure is recorded in the report rather
    than raised, and [RunDiagnostics] yields its report of nine checks
    whatever the lookups answer. *)
Theorem RunDiagnostics_dns_failure (env : Env) (i : nat) (host : string) (err : error) :
  checkedHosts !! i = Some host ->
  net_LookupHost env host = Err err ->
  exists check,
    Checks (RunDiagnostics env) !! (2 + i)%nat = Some check
    /\ check = dnsLookupCheck env host
    /\ Type_ check = "network"
    /\ Status check = statusFail
    /\ Message check = "DNS lookup " ++ host ++ " failed: " ++ err
    /\ length (Checks (RunDiagnostics env)) = 9%nat.
Proof.
  intros Hhost Herr. exists (dnsLookupCheck env host).
  rewrite RunDiagnostics_Checks. split.
  - rewrite lookup_app_r by (simpl; lia).
    replace (2 + i - length [robocorpHomeCheck env; longPathSupportCheck env])%nat
      with i by (simpl; lia).
    rewrite lookup_app_l.
    + by rewrite lookup_map, Hhost.
    + rewrite length_map. by apply lookup_lt_Some in Hhost.
  - rewrite (dnsLookupCheck_failure env host err Herr). by repeat split.
Qed.

Lemma RunDiagnostics_dns_failure_witness :
  exists check,
    Checks (RunDiagnostics Examples.env_offline) !! 4%nat = Some check
    /\ check = dnsLookupCheck Examples.env_offline "pypi.org"
    /\ Type_ check = "network"
    /\ Status check = statusFail
    /\ Message check = "DNS lookup pypi.org failed: lookup pypi.org: no such host"
    /\ length (Checks (RunDiagnostics Examples.env_offline)) = 9%nat.
Proof.
  apply (RunDiagnostics_dns_failure Examples.env_offline 2 "pypi.org"
           "lookup pypi.org: no such host"); reflexivity.
Defined.

(** C5 as the claim words it fails: with every lookup failing, the check
    recorded for [pypi.org] has status fail, which is not warning. *)
Lemma RunDiagnostics_dns_failure_not_warning :
  net_LookupHost Examples.env_offline "pypi.org" = Err "lookup pypi.org: no such host"
  /\ In "pypi.org" checkedHosts
  /\ Checks (RunDiagnostics Examples.env_offline) !! 4%nat =
       Some (dnsLookupCheck Examples.env_offline "pypi.org")
  /\ Status (dnsLookupCheck Examples.env_offline "pypi.org") = statusFail
  /\ Status (dnsLookupCheck Examples.env_offline "pypi.org") <> statusWarning.
Proof.
  repeat split; try reflexivity.
  - simpl. auto.
  - discriminate.
Qed.

(** ** [certificateChain] *)

Lemma slice_to_Some (s : byteslice) (n : nat) :
  (n <= slice_cap s)%nat -> slice_to s n = Some (take n (elems s ++ spare s)).
Proof.
  intros H. unfold slice_to.
  by destruct (Nat.leb_spec n (slice_cap s)); [| lia].
Qed.

Lemma slice_to_None (s : byteslice) (n : nat) :
  (slice_cap s < n)%nat -> slice_to s n = None.
Proof.
  intros H. unfold slice_to.
  by destruct (Nat.leb_spec n (slice_cap s)); [lia |].
Qed.

Lemma slice_to_within_len (s : byteslice) (n : nat) :
  (n <= slice_len s)%nat -> slice_to s n = Some (take n (elems s)).
Proof.
  intros H. unfold slice_len in H.
  rewrite slice_to_Some by (unfold slice_cap; lia).
  by rewrite take_app_le.
Qed.

Lemma certificate_form_text (env : Env) (at_ : nat) (certificate : Certificate) :
  (6 <= slice_len (Signature certificate))%nat ->
  certificate_form env at_ certificate = Some (certificate_text env at_ certificate).
Proof.
  intros H. unfold certificate_form. by rewrite slice_to_within_len.
Qed.

Lemma certificate_form_is_Some (env : Env) (at_ : nat) (certificate : Certificate) :
  is_Some (certificate_form env at_ certificate) <->
  (6 <= slice_cap (Signature certificate))%nat.
Proof.
  unfold certificate_form, slice_to.
  destruct (Nat.leb_spec 6 (slice_cap (Signature certificate))); split;
    intros H'; try done; try lia.
Qed.

Lemma certificateChain_loop_text (env : Env) (certificates : list Certificate) :
  forall (at_ : nat) (parts : list string),
  Forall (fun c => 6 <= slice_len (Signature c))%nat certificates ->
  certificateChain_loop env at_ certificates parts =
    Returned (parts ++ imap (fun i c => certificate_text env (at_ + i) c) certificates)%list.
Proof.
  induction certificates as [|c certificates IH]; intros at_ parts Hall; simpl.
  - by rewrite app_nil_r.
  - inversion Hall as [|? ? Hc Hrest]; subst.
    rewrite certificate_form_text by done.
    rewrite IH by done. rewrite <- app_assoc. simpl.
    rewrite Nat.add_0_r. do 3 f_equal.
    apply imap_ext. intros i x _. simpl. f_equal. lia.
Qed.

Lemma certificateChain_loop_returns (env : Env) (certificates : list Certificate) :
  forall (at_ : nat) (parts : list string),
  is_returned (certificateChain_loop env at_ certificates parts) = true <->
  Forall (fun c => 6 <= slice_cap (Signature c))%nat certificates.
Proof.
  induction certificates as [|c certificates IH]; intros at_ parts; simpl.
  - split; auto.
  - destruct (certificate_form env at_ c) as [form|] eqn:Hform.
    + rewrite IH. split.
      * intros H. constructor; [| done].
        apply (certificate_form_is_Some env at_). by rewrite Hform.
      * by inversion 1.
    + split; [done |]. inversion 1 as [|? ? Hc Hrest]; subst.
      apply (certificate_form_is_Some env at_) in Hc.
      rewrite Hform in Hc. by destruct Hc.
Qed.

(** [certificateChain] returns exactly when the signature slice of every
    certificate has a capacity of six bytes or more. *)
Lemma certificateChain_returns (env : Env) (certificates : list Certificate) :
  is_returned (certificateChain env certificates) = true <->
  Forall (fun c => 6 <= slice_cap (Signature c))%nat certificates.
Proof.
  rewrite <- (certificateChain_loop_returns env certificates 0 []).
  unfold certificateChain.
  by destruct (certificateChain_loop env 0 certificates []).
Qed.

(** C10.  [certificateChain] slices [Signature[:6]] without a guard.  When
    every certificate of the chain has a signature of six bytes or more, it
    returns the texts of the certificates, each with the first six bytes
    of its signature, joined by a semicolon; and there is a chain, with a
    certificate whose signature is shorter, on which the slice is out of
    range and the call panics instead of returning. *)
Theorem certificateChain_partial (env : Env) :
  (forall certificates : list Certificate,
     Forall (fun c => 6 <= slice_len (Signature c))%nat certificates ->
     certificateChain env certificates =
       Returned (String.concat "; "
                   (imap (fun i c => certificate_text env i c) certificates)))
  /\ (exists certificates : list Certificate,
        Exists (fun c => slice_len (Signature c) < 6)%nat certificates
        /\ certificateChain env certificates = Panicked "slice bounds out of range").
Proof.
  split.
  - intros certificates Hall. unfold certificateChain.
    by rewrite certificateChain_loop_text.
  - exists [Examples.leaf_cert; Examples.short_cert]. split.
    + apply Exists_cons_tl, Exists_cons_hd. cbv. lia.
    + reflexivity.
Qed.

Lemma certificateChain_partial_witness :
  certificateChain Examples.env_good [Examples.leaf_cert; Examples.intermediate_cert] =
    Returned (String.concat "; "
      [certificate_text Examples.env_good 0 Examples.leaf_cert;
       certificate_text Examples.env_good 1 Examples.intermediate_cert]).
Proof.
  apply (proj1 (certificateChain_partial Examples.env_good)
           [Examples.leaf_cert; Examples.intermediate_cert]).
  repeat constructor; cbv; lia.
Defined.

(** A signature shorter than six bytes is still sliced without a panic when
    its backing array is long enough: the bound is the capacity. *)
Lemma certificateChain_short_with_spare :
  certificateChain Examples.env_good [Examples.short_cert_with_spare] =
    Returned
      ("#0: [30 45 02 21 00 A1 ...] names [short.example] 2022-Mar-07...2022-Mar-07 " ++
       Examples.quote_plain "CN=short.example" ++ " issued by " ++
       Examples.quote_plain "CN=Example Root").
Proof. reflexivity. Qed.

(** ** The version table *)

Lemma tlsVersions_unknown (version : Z) :
  version <> VersionSSL30 -> version <> VersionTLS10 -> version <> VersionTLS11 ->
  version <> VersionTLS12 -> version <> VersionTLS13 ->
  tlsVersions !! version = None.
Proof.
  intros H0 H1 H2 H3 H4. unfold tlsVersions.
  rewrite !lookup_insert_ne by done. apply lookup_empty.
Qed.

Lemma tlsVersions_known (version : Z) (label : string) :
  tlsVersions !! version = Some label ->
  (version = VersionSSL30 /\ label = "SSLv3")
  \/ (version = VersionTLS10 /\ label = "TLS 1.0")
  \/ (version = VersionTLS11 /\ label = "TLS 1.1")
  \/ (version = VersionTLS12 /\ label = "TLS 1.2")
  \/ (version = VersionTLS13 /\ label = "TLS 1.3").
Proof.
  unfold tlsVersions. intros H.
  repeat (apply lookup_insert_Some in H as [[<- <-]|[? H]]; [tauto |]).
  by rewrite lookup_empty in H.
Qed.

Lemma tlsVersions_size : size tlsVersions = 5%nat.
Proof. reflexivity. Qed.

(** ** [tlsCheckHost] *)

Ltac returned_checks :=
  simpl; intros [= <- <-]; do 2 eexists; (split; [reflexivity |]);
  repeat split; eauto.

(** The version check that [tlsCheckHost] appends for [state]. *)
Lemma tlsCheckHost_version_check (env : Env) (host : string)
    (roots : gmap string bool) (state : ConnectionState) :
  tlsCheckHeadOnly env (probe_url host) = Ok (Some state) ->
  forall checks roots',
  tlsCheckHost env host roots = (Returned checks, roots') ->
  exists vc others,
    checks = vc :: others
    /\ common.Type_ vc = "network"
    /\ common.Category_ vc = common.CategoryNetworkTLSVersion
    /\ count_category common.CategoryNetworkTLSVersion others = 0%nat
    /\ match tlsVersions !! Version state with
       | Some label =>
         common.Message vc = "TLS version: " ++ strconv_Quote env host ++ " -> " ++ label
         /\ common.Status vc =
              (if (Version state <? VersionTLS12)%Z then statusWarning else statusOk)
       | None =>
         common.Message vc = "unknown TLS version: " ++ strconv_Quote env host ++
                             " -> " ++ fmt.x03 (Z.to_N (Version state))
         /\ common.Status vc = statusWarning
       end.
Proof.
  intros Hhead checks roots'. unfold tlsCheckHost.
  fold (probe_url host). rewrite Hhead.
  set (vc := match tlsVersions !! Version state with
             | Some version => _ | None => _ end).
  assert (Hvc : exists c, vc = [c]
            /\ common.Type_ c = "network"
            /\ common.Category_ c = common.CategoryNetworkTLSVersion
            /\ match tlsVersions !! Version state with
               | Some label =>
                 common.Message c = "TLS version: " ++ strconv_Quote env host ++ " -> " ++ label
                 /\ common.Status c =
                      (if (Version state <? VersionTLS12)%Z then statusWarning else statusOk)
               | None =>
                 common.Message c = "unknown TLS version: " ++ strconv_Quote env host ++
                                    " -> " ++ fmt.x03 (Z.to_N (Version state))
                 /\ common.Status c = statusWarning
               end).
  { subst vc. destruct (tlsVersions !! Version state); eexists; simpl; eauto. }
  destruct Hvc as (c & -> & Htype & Hcat & Hrest).
  destruct (PeerCertificates state) as [|leaf rest].
  - returned_checks.
  - destruct (collect_intermediates rest NewCertPool leaf) as [intermediates last].
    destruct (x509_Verify env leaf _) as [err|].
    + destruct (common_DebugFlag env).
      * destruct (certificateChain env (leaf :: rest)); [| discriminate].
        returned_checks.
      * returned_checks.
    + returned_checks.
Qed.

(** C3.  When the transport call of the probe fails before a connection
    state is obtained, [tlsCheckHost] returns exactly one check for the
    host: type network, category link, status warning, with the URL and the
    error text as message.  No version check and no verify check is
    produced, and the trust table is left as it was. *)
Theorem tlsCheckHost_transport_failure (env : Env) (host : string)
    (roots : gmap string bool) (err : error) :
  tlsCheckHeadOnly env (probe_url host) = Err err ->
  exists check,
    tlsCheckHost env host roots = (Returned [check], roots)
    /\ common.Type_ check = "network"
    /\ common.Status check = statusWarning
    /\ common.Category_ check = common.CategoryNetworkLink
    /\ common.Message check = probe_url host ++ " -> " ++ err
    /\ count_category common.CategoryNetworkTLSVersion [check] = 0%nat
    /\ count_category common.CategoryNetworkTLSVerify [check] = 0%nat.
Proof.
  intros Hhead. unfold tlsCheckHost. fold (probe_url host). rewrite Hhead.
  eexists. split; [reflexivity |]. by repeat split.
Qed.

Lemma tlsCheckHost_transport_failure_witness :
  exists check,
    tlsCheckHost Examples.env_offline "unreachable.example" ∅ = (Returned [check], ∅)
    /\ common.Type_ check = "network"
    /\ common.Status check = statusWarning
    /\ common.Category_ check = common.CategoryNetworkLink
    /\ common.Message check =
         probe_url "unreachable.example" ++ " -> " ++ "context deadline exceeded"
    /\ count_category common.CategoryNetworkTLSVersion [check] = 0%nat
    /\ count_category common.CategoryNetworkTLSVerify [check] = 0%nat.
Proof.
  apply (tlsCheckHost_transport_failure Examples.env_offline "unreachable.example" ∅
           "context deadline exceeded").
  reflexivity.
Defined.

(** C4.  When the peer certificate chain of the probed host is empty,
    [tlsCheckHost] returns the version check followed by exactly one more
    check, the last one: category tls-verify, status warning, with the
    message "no certificates for" and the negotiated server name.  It is
    the only tls-verify check, and the trust table is left as it was. *)
Theorem tlsCheckHost_no_certificates (env : Env) (host : string)
    (roots : gmap string bool) (state : ConnectionState) :
  tlsCheckHeadOnly env (probe_url host) = Ok (Some state) ->
  PeerCertificates state = [] ->
  exists version_check check,
    tlsCheckHost env host roots = (Returned [version_check; check], roots)
    /\ common.Category_ version_check = common.CategoryNetworkTLSVersion
    /\ common.Type_ check = "network"
    /\ common.Category_ check = common.CategoryNetworkTLSVerify
    /\ common.Status check = statusWarning
    /\ common.Message check = "no certificates for " ++ ServerName state
    /\ contains (common.Message check) "no certificates"
    /\ contains (common.Message check) (ServerName state)
    /\ count_category common.CategoryNetworkTLSVerify [version_check; check] = 1%nat.
Proof.
  intros Hhead Hchain. unfold tlsCheckHost. fold (probe_url host).
  rewrite Hhead, Hchain.
  assert (Hsub : contains ("no certificates for " ++ ServerName state) "no certificates")
    by (by exists "", (" for " ++ ServerName state)).
  assert (Hname : contains ("no certificates for " ++ ServerName state) (ServerName state)).
  { exists "no certificates for ", "". by rewrite append_empty_r. }
  destruct (tlsVersions !! Version state) as [label|];
    (do 2 eexists; split; [reflexivity |]; simpl; by repeat (split; [done |])).
Qed.

Lemma tlsCheckHost_no_certificates_witness :
  exists version_check check,
    tlsCheckHost Examples.env_no_certificates "good.example" ∅ =
      (Returned [version_check; check], ∅)
    /\ common.Category_ version_check = common.CategoryNetworkTLSVersion
    /\ common.Type_ check = "network"
    /\ common.Category_ check = common.CategoryNetworkTLSVerify
    /\ common.Status check = statusWarning
    /\ common.Message check = "no certificates for good.example"
    /\ contains (common.Message check) "no certificates"
    /\ contains (common.Message check) "good.example"
    /\ count_category common.CategoryNetworkTLSVerify [version_check; check] = 1%nat.
Proof.
  apply (tlsCheckHost_no_certificates Examples.env_no_certificates "good.example" ∅
           {| Version := VersionTLS12; ServerName := "good.example";
              PeerCertificates := [] |}); reflexivity.
Defined.

Lemma collect_intermediates_last (rest : list Certificate) :
  forall (pool : CertPool) (leaf : Certificate),
  last (leaf :: rest) = Some (snd (collect_intermediates rest pool leaf)).
Proof.
  unfold collect_intermediates.
  induction rest as [|c rest IH]; intros pool leaf; [reflexivity |].
  simpl fold_left. rewrite <- IH. reflexivity.
Qed.

(** What [tlsCheckHost] does with a chain [leaf :: rest]: the trust table
    gets the outcome of the verification under the issuer of the last
    certificate, whatever was there before; the call returns unless the
    chain dump of the debug mode panics; and the checks it returns hold
    exactly one tls-verify check, ok for a chain that verifies and warning
    for one that does not. *)
Lemma tlsCheckHost_verification (env : Env) (host : string)
    (roots : gmap string bool) (state : ConnectionState)
    (leaf : Certificate) (rest : list Certificate) (last_cert : Certificate) :
  tlsCheckHeadOnly env (probe_url host) = Ok (Some state) ->
  PeerCertificates state = leaf :: rest ->
  last (leaf :: rest) = Some last_cert ->
  snd (tlsCheckHost env host roots) =
    <[Name_String (Issuer last_cert) :=
        bool_decide (verification env state leaf rest = None)]> roots
  /\ (is_returned (fst (tlsCheckHost env host roots)) = false <->
      common_DebugFlag env = true
      /\ verification env state leaf rest <> None
      /\ is_returned (certificateChain env (leaf :: rest)) = false)
  /\ (forall checks,
        fst (tlsCheckHost env host roots) = Returned checks ->
        exists check,
          filter (fun c => common.Category_ c = common.CategoryNetworkTLSVerify) checks
            = [check]
          /\ (common.Status check = statusOk <->
              verification env state leaf rest = None)
          /\ (common.Status check = statusWarning <->
              verification env state leaf rest <> None)).
Proof.
  intros Hhead Hchain Hlast.
  rewrite (collect_intermediates_last rest NewCertPool leaf) in Hlast.
  injection Hlast as <-.
  unfold tlsCheckHost, verification. fold (probe_url host).
  rewrite Hhead, Hchain.
  destruct (collect_intermediates rest NewCertPool leaf) as [intermediates last_seen].
  cbn [fst snd].
  set (vc := match tlsVersions !! Version state with
             | Some version => _ | None => _ end).
  assert (Hvc : exists c, vc = [c]
            /\ common.Category_ c = common.CategoryNetworkTLSVersion)
    by (subst vc; destruct (tlsVersions !! Version state); eexists; simpl; eauto).
  destruct Hvc as (c & -> & Hcat).
  destruct (x509_Verify env leaf _) as [err|].
  - destruct (common_DebugFlag env).
    + destruct (certificateChain env (leaf :: rest)) as [chain|reason]; simpl.
      * split; [done |]. split; [split; [done | by intros (_ & _ & ?)] |].
        intros checks [= <-]. eexists.
        rewrite !filter_cons, Hcat. simpl. split; [reflexivity |].
        split; split; done.
      * split; [done |]. split; [done |]. intros checks [=].
    + simpl. split; [done |]. split; [split; [done | by intros (? & _)] |].
      intros checks [= <-]. eexists.
      rewrite !filter_cons, Hcat. simpl. split; [reflexivity |].
      split; split; done.
  - simpl. split; [done |]. split; [split; [done | by intros (_ & ? & _)] |].
    intros checks [= <-]. eexists.
    rewrite !filter_cons, Hcat. simpl. split; [reflexivity |].
    split; split; done.
Qed.

(** The statuses of the version check, by negotiated version, for a call
    that returns. *)
Lemma tlsCheckHost_version_status (env : Env) (host : string)
    (roots : gmap string bool) (state : ConnectionState)
    (checks : list common.DiagnosticCheck) (roots' : gmap string bool) :
  tlsCheckHeadOnly env (probe_url host) = Ok (Some state) ->
  tlsCheckHost env host roots = (Returned checks, roots') ->
  exists vc others,
    checks = vc :: others
    /\ common.Category_ vc = common.CategoryNetworkTLSVersion
    /\ count_category common.CategoryNetworkTLSVersion others = 0%nat
    /\ (Version state = VersionTLS12 \/ Version state = VersionTLS13 ->
        common.Status vc = statusOk)
    /\ (Version state = VersionSSL30 \/ Version state = VersionTLS10
        \/ Version state = VersionTLS11 ->
        common.Status vc = statusWarning)
    /\ (tlsVersions !! Version state = None ->
        common.Status vc = statusWarning
        /\ contains (common.Message vc) "unknown TLS version").
Proof.
  intros Hhead Hrun.
  destruct (tlsCheckHost_version_check env host roots state Hhead checks roots' Hrun)
    as (vc & others & -> & _ & Hcat & Hcount & Hversion).
  exists vc, others. repeat (split; [done |]).
  split; [| split].
  - intros [H|H]; rewrite H in Hversion; by destruct Hversion as [_ ->].
  - intros [H|[H|H]]; rewrite H in Hversion; by destruct Hversion as [_ ->].
  - intros H. rewrite H in Hversion. destruct Hversion as [-> ->].
    split; [done |].
    by exists "", (": " ++ strconv_Quote env host ++ " -> " ++
                   fmt.x03 (Z.to_N (Version state))).
Qed.

Ltac wf_check :=
  split; simpl;
  [ first [ discriminate
          | apply append_nonempty_r; discriminate
          | apply append_nonempty_l; discriminate ]
  | first [ assumption | by destruct (_ <? _)%Z ] ].

Ltac wf_checks :=
  simpl; intros [= <-];
  repeat first [ by apply Forall_nil | apply Forall_cons; split; [wf_check |] ].

Lemma tlsCheckHost_well_formed (env : Env) (host : string)
    (roots : gmap string bool) (checks : list common.DiagnosticCheck) :
  fst (tlsCheckHost env host roots) = Returned checks ->
  Forall (fun c => well_formed (common.Status c) (common.Message c)) checks.
Proof.
  unfold tlsCheckHost.
  assert (Hwarning : In statusWarning known_statuses) by known_status.
  assert (Hok : In statusOk known_statuses) by known_status.
  destruct (tlsCheckHeadOnly env _) as [[state|]|err]; [| done | wf_checks].
  destruct (tlsVersions !! Version state) as [label|];
    (destruct (PeerCertificates state) as [|leaf rest]; [wf_checks |];
     destruct (collect_intermediates _ _ _) as [intermediates last_seen];
     destruct (x509_Verify env _ _) as [err|]; [| wf_checks];
     destruct (common_DebugFlag env); [| wf_checks];
     destruct (certificateChain env _) as [chain|reason];
       [wf_checks | done]).
Qed.

(** C7.  Every check of a report carries a non-empty message and one of
    the four statuses ok, warning, fail, fatal: the checks that
    [RunDiagnostics] appends (home directory, long paths, DNS, canary), and
    the checks that [tlsCheckHost] returns for a host. *)
Theorem every_check_well_formed (env : Env) :
  Forall (fun c => well_formed (Status c) (Message c)) (Checks (RunDiagnostics env))
  /\ (forall (host : string) (roots : gmap string bool)
             (checks : list common.DiagnosticCheck),
        fst (tlsCheckHost env host roots) = Returned checks ->
        Forall (fun c => well_formed (common.Status c) (common.Message c)) checks).
Proof.
  split.
  - rewrite RunDiagnostics_Checks.
    repeat first
      [ apply Forall_cons; split
      | apply Forall_app; split
      | by apply Forall_nil ];
      auto using robocorpHomeCheck_well_formed, longPathSupportCheck_well_formed,
                 dnsLookupCheck_well_formed, canaryDownloadCheck_well_formed.
  - intros host roots checks. apply tlsCheckHost_well_formed.
Qed.

Lemma every_check_well_formed_witness :
  Forall (fun c => well_formed (Status c) (Message c))
         (Checks (RunDiagnostics Examples.env_offline))
  /\ exists checks,
       fst (tlsCheckHost Examples.env_untrusted "good.example" ∅) = Returned checks
       /\ length checks = 2%nat
       /\ Forall (fun c => well_formed (common.Status c) (common.Message c)) checks.
Proof.
  split.
  - apply (proj1 (every_check_well_formed Examples.env_offline)).
  - eexists. split; [reflexivity |]. split; [reflexivity |].
    apply (proj2 (every_check_well_formed Examples.env_untrusted) "good.example" ∅).
    reflexivity.
Defined.

(** ** The probe on concrete hosts *)

(** TLS 1.3 and a chain that verifies: a version check and a verify check,
    both ok, and the issuer of the last certificate trusted. *)
Example tlsCheckHost_good_example :
  tlsCheckHost Examples.env_good "good.example" ∅ =
    (Returned
       [ {| common.Type_ := "network";
            common.Category_ := common.CategoryNetworkTLSVersion;
            common.Status := "ok";
            common.Message :=
              "TLS version: " ++ Examples.quote_plain "good.example" ++ " -> TLS 1.3";
            common.Link :=
              "https://robocorp.com/docs/troubleshooting/firewall-and-proxies" |};
         {| common.Type_ := "network";
            common.Category_ := common.CategoryNetworkTLSVerify;
            common.Status := "ok";
            common.Message :=
              "TLS verification of " ++ Examples.quote_plain "good.example" ++
              " passed with certificate issued by " ++
              Examples.quote_plain "CN=Example Root";
            common.Link :=
              "https://robocorp.com/docs/troubleshooting/firewall-and-proxies" |} ],
     {[ "CN=Example Root" := true ]}).
Proof. reflexivity. Qed.

(** TLS 1.0 and a chain that does not verify: two warnings, and the
    earlier entry of the same issuer overwritten. *)
Example tlsCheckHost_untrusted_example :
  exists version_check verify_check,
    tlsCheckHost Examples.env_untrusted "good.example" {[ "CN=Example Root" := true ]} =
      (Returned [version_check; verify_check], {[ "CN=Example Root" := false ]})
    /\ common.Status version_check = "warning"
    /\ common.Status verify_check = "warning".
Proof. do 2 eexists. split; [reflexivity |]. by split. Qed.

(** A version outside the table, a chain that does not verify, debug mode
    off: the warning for the unknown version, then the warning of the
    verification. *)
Example tlsCheckHost_unknown_version :
  exists verify_check,
    tlsCheckHost
      (Examples.example_env false Examples.lookup_finds
         (Examples.head_answers 0x0305 [Examples.leaf_cert; Examples.short_cert])
         Examples.verify_fails)
      "good.example" ∅
    = (Returned
         [ {| common.Type_ := "network";
              common.Category_ := common.CategoryNetworkTLSVersion;
              common.Status := "warning";
              common.Message :=
                "unknown TLS version: " ++ Examples.quote_plain "good.example" ++
                " -> 305";
              common.Link :=
                "https://robocorp.com/docs/troubleshooting/firewall-and-proxies" |};
           verify_check ],
       {[ "CN=Example Root" := false ]})
    /\ common.Category_ verify_check = common.CategoryNetworkTLSVerify
    /\ common.Status verify_check = "warning".
Proof. eexists. split; [reflexivity |]. by split. Qed.

(** A response that did not arrive over TLS has no connection state: the
    probe ends in a panic, with no check and the trust table as it was. *)
Example tlsCheckHost_without_TLS_state :
  tlsCheckHost
    (Examples.example_env false Examples.lookup_finds (fun _ _ => Ok None)
       Examples.verify_passes)
    "plain.example" ∅
  = (Panicked "nil pointer dereference", ∅).
Proof. reflexivity. Qed.

(** C1 at a failing input.  In debug mode, for the chain of two
    certificates of [env_debug_short_tls13], which does not verify and whose
    last certificate has a signature slice of two bytes, [tlsCheckHost]
    writes [false] into the trust table under the issuer of the last
    certificate and then panics in [certificateChain]: it returns no
    check at all, so no tls-verify check is emitted for this non-empty
    chain. *)
Theorem tlsCheckHost_verify_check_lost_in_debug_dump :
  tlsCheckHeadOnly Examples.env_debug_short_tls13 (probe_url "good.example") =
    Ok (Some {| Version := VersionTLS13;
                ServerName := "good.example";
                PeerCertificates := [Examples.leaf_cert; Examples.short_cert] |})
  /\ common_DebugFlag Examples.env_debug_short_tls13 = true
  /\ slice_cap (Signature Examples.short_cert) = 2%nat
  /\ tlsCheckHost Examples.env_debug_short_tls13 "good.example" ∅ =
       (Panicked "slice bounds out of range", {[ "CN=Example Root" := false ]})
  /\ forall checks,
       fst (tlsCheckHost Examples.env_debug_short_tls13 "good.example" ∅)
         <> Returned checks.
Proof. repeat split; try reflexivity. intros checks H. discriminate H. Qed.

(** C2 at a failing input.  In debug mode, for a host that negotiates
    the version 0x0305, which is outside the table, and presents the chain
    of [env_debug_short], [tlsCheckHost] panics in [certificateChain] and
    returns no check: the warning for the unknown version is not
    produced.  The same holds for the host of [env_debug_short_tls13],
    which negotiates TLS 1.3: no version check with status ok comes out. *)
Theorem tlsCheckHost_version_check_lost_in_debug_dump :
  tlsVersions !! 0x0305%Z = None
  /\ tlsCheckHeadOnly Examples.env_debug_short (probe_url "good.example") =
       Ok (Some {| Version := 0x0305;
                   ServerName := "good.example";
                   PeerCertificates := [Examples.leaf_cert; Examples.short_cert] |})
  /\ fst (tlsCheckHost Examples.env_debug_short "good.example" ∅) =
       Panicked "slice bounds out of range"
  /\ fst (tlsCheckHost Examples.env_debug_short_tls13 "good.example" ∅) =
       Panicked "slice bounds out of range".
Proof. repeat split; reflexivity. Qed.

(** ** The human-text rendering *)

Lemma fold_left_snoc_id {A : Type} (l : list A) (acc : list A) :
  fold_left (fun acc x => (acc ++ [x])%list) l acc = (acc ++ l)%list.
Proof.
  revert acc. induction l as [|x l IH]; intros acc; simpl.
  - by rewrite app_nil_r.
  - rewrite IH. by rewrite <- app_assoc.
Qed.

Lemma fold_left_Fprintln {A : Type} (f : A -> string) (l : list A) (sink : string) :
  fold_left (fun sink x => Fprintln sink (f x)) l sink =
    sink ++ text_lines (List.map f l).
Proof.
  revert sink. induction l as [|x l IH]; intros sink; simpl.
  - by rewrite append_empty_r.
  - rewrite IH. unfold Fprintln. by rewrite !append_assoc.
Qed.

Lemma sort_Strings_sorted (keys : list string) :
  StronglySorted String.le (sort_Strings keys).
Proof. apply StronglySorted_merge_sort; apply _. Qed.

Lemma sort_Strings_Permutation (keys : list string) : sort_Strings keys ≡ₚ keys.
Proof. apply merge_sort_Permutation. Qed.

(** The order in which the keys reach [sort.Strings] does not matter. *)
Lemma sort_Strings_order_independent (keys keys' : list string) :
  keys ≡ₚ keys' -> sort_Strings keys = sort_Strings keys'.
Proof.
  intros Hperm.
  apply (StronglySorted_unique String.le); auto using sort_Strings_sorted.
  by rewrite !sort_Strings_Permutation.
Qed.

Lemma text_lines_app (l1 l2 : list string) :
  text_lines (l1 ++ l2) = text_lines l1 ++ text_lines l2.
Proof.
  induction l1 as [|l l1 IH]; [reflexivity |].
  cbn [app text_lines]. by rewrite IH, !append_assoc.
Qed.

Lemma humaneDiagnostics_text (env : Env) (ranged : list string)
    (sink : string) (details : DiagnosticStatus) :
  humaneDiagnostics env ranged sink details =
    sink ++ text_lines
      ("Diagnostics:" ::
       List.map (detail_line env details) (sort_Strings ranged) ++
       "" :: "Checks:" :: List.map check_line (Checks details))%list.
Proof.
  unfold humaneDiagnostics.
  rewrite fold_left_snoc_id. cbn [app].
  rewrite !fold_left_Fprintln. unfold Fprintln.
  cbn [text_lines]. rewrite text_lines_app. cbn [text_lines].
  rewrite !append_assoc. reflexivity.
Qed.

Lemma app_String (c : ascii) (s t : string) : String c s ++ t = String c (s ++ t).
Proof. reflexivity. Qed.

Lemma app_empty (t : string) : "" ++ t = t.
Proof. reflexivity. Qed.

Lemma string_length_app (s t : string) :
  String.length (s ++ t) = (String.length s + String.length t)%nat.
Proof.
  induction s as [|c s IH]; [reflexivity |].
  rewrite app_String. simpl. by rewrite IH.
Qed.

(** The entries of a map, taken by its keys in any order of the keys. *)
Lemma entries_by_keys (m : gmap string string) (keys : list string) :
  keys ≡ₚ (map_to_list m).*1 ->
  List.map (fun key => (key, default "" (m !! key))) keys ≡ₚ map_to_list m.
Proof.
  intros Hkeys.
  transitivity (List.map (fun key => (key, default "" (m !! key))) (map_to_list m).*1).
  { change (List.map ?f ?l) with (f <$> l). by rewrite Hkeys. }
  assert (Hsame : List.map (fun key => (key, default "" (m !! key))) (map_to_list m).*1
                  = map_to_list m); [| by rewrite Hsame].
  change ((map_to_list m).*1) with (List.map fst (map_to_list m)).
  rewrite List.map_map.
  rewrite <- (List.map_id (map_to_list m)) at 2.
  apply List.map_ext_in. intros [key value] Hin.
  apply list_elem_of_In, elem_of_map_to_list in Hin.
  cbn [fst]. by rewrite Hin.
Qed.

Lemma detail_line_entry (env : Env) (details : DiagnosticStatus) (keys : list string) :
  List.map (detail_line env details) keys =
    List.map (entry_text env)
      (List.map (fun key => (key, default "" (Details details !! key))) keys).
Proof. rewrite List.map_map. reflexivity. Qed.

Lemma check_line_entry (checks : list DiagnosticCheck) :
  List.map check_line checks = List.map check_entry_text checks.
Proof. reflexivity. Qed.

(** C8.  The human-text rendering prints, after the line "Diagnostics:",
    one line for each entry of the details, with the key in a column of
    eighteen and the value of that key quoted, by keys in increasing
    (lexicographic, byte-wise) order whatever the order in which the map
    yields them; then an empty line and the line "Checks:"; then one line
    for each check, with its type, its status and its message, in the
    order of the sequence of checks.  The text is the same for every
    order of iteration over the details. *)
Theorem humaneDiagnostics_order (env : Env) (ranged : list string)
    (sink : string) (details : DiagnosticStatus) :
  map_range (Details details) ranged ->
  exists entries : list (string * string),
    entries ≡ₚ map_to_list (Details details)
    /\ StronglySorted String.le entries.*1
    /\ NoDup entries.*1
    /\ humaneDiagnostics env ranged sink details =
         sink ++ text_lines
           ("Diagnostics:" ::
            List.map (entry_text env) entries ++
            "" :: "Checks:" :: List.map check_entry_text (Checks details))%list
    /\ forall ranged' : list string,
         map_range (Details details) ranged' ->
         humaneDiagnostics env ranged' sink details =
           humaneDiagnostics env ranged sink details.
Proof.
  unfold map_range. intros Hrange.
  exists (List.map (fun key => (key, default "" (Details details !! key)))
            (sort_Strings ranged)).
  assert (Hkeys : (List.map (fun key => (key, default "" (Details details !! key)))
                     (sort_Strings ranged)).*1 = sort_Strings ranged).
  { change (?l.*1) with (List.map fst l). rewrite List.map_map. apply List.map_id. }
  split.
  { apply entries_by_keys. by rewrite sort_Strings_Permutation. }
  rewrite Hkeys.
  split; [apply sort_Strings_sorted |].
  split.
  { rewrite sort_Strings_Permutation, Hrange. apply NoDup_fst_map_to_list. }
  split.
  { rewrite humaneDiagnostics_text, detail_line_entry, check_line_entry. reflexivity. }
  intros ranged' Hrange'. rewrite !humaneDiagnostics_text.
  rewrite (sort_Strings_order_independent ranged' ranged); [done |].
  by rewrite Hrange, Hrange'.
Qed.

Lemma humaneDiagnostics_order_witness :
  exists entries : list (string * string),
    entries ≡ₚ map_to_list (Details JsonExamples.small_report)
    /\ StronglySorted String.le entries.*1
    /\ NoDup entries.*1
    /\ humaneDiagnostics Examples.env_good ["tempdir"; "os"; "cpus"] ""
         JsonExamples.small_report =
         "" ++ text_lines
           ("Diagnostics:" ::
            List.map (entry_text Examples.env_good) entries ++
            "" :: "Checks:" ::
            List.map check_entry_text (Checks JsonExamples.small_report))%list
    /\ forall ranged' : list string,
         map_range (Details JsonExamples.small_report) ranged' ->
         humaneDiagnostics Examples.env_good ranged' "" JsonExamples.small_report =
           humaneDiagnostics Examples.env_good ["tempdir"; "os"; "cpus"] ""
             JsonExamples.small_report.
Proof.
  apply (humaneDiagnostics_order Examples.env_good ["tempdir"; "os"; "cpus"] ""
           JsonExamples.small_report).
  unfold map_range. apply (bool_decide_unpack _). vm_compute. exact I.
Defined.

(** The text of the rendering for a small report whose three details were
    inserted, and are yielded, out of order. *)
Example humaneDiagnostics_small_report :
  humaneDiagnostics Examples.env_good ["tempdir"; "os"; "cpus"] ""
    JsonExamples.small_report =
  text_lines
    [ "Diagnostics:";
      " - cpus              ...  " ++ Examples.quote_plain "4";
      " - os                ...  " ++ Examples.quote_plain "linux amd64";
      " - tempdir           ...  " ++ Examples.quote_plain "/tmp";
      "";
      "Checks:";
      " - OS       ok       Supports long enough paths.";
      " - network  fail     DNS lookup <pypi.org> failed & gave up" ].
Proof. reflexivity. Qed.

(** * The JSON rendering read back *)

(** ** Bytes and bit fields *)

Ltac div_lia := zify; Z.to_euclidean_division_equations; lia.

Section Bits.
Local Open Scope N_scope.

Lemma lor_eq_add (a b n : N) : a mod 2 ^ n = 0 -> b < 2 ^ n -> N.lor a b = a + b.
Proof.
  intros Ha Hb.
  rewrite N.add_nocarry_lxor, N.lxor_lor; try reflexivity.
  all: apply N.bits_inj; intros m; rewrite N.land_spec, N.bits_0.
  all: destruct (N.lt_ge_cases m n) as [Hm|Hm].
  all: try (rewrite <- (N.mod_pow2_bits_low a n m Hm), Ha, N.bits_0; reflexivity).
  all: rewrite <- (N.mod_small b (2 ^ n) Hb), N.mod_pow2_bits_high by assumption.
  all: apply andb_false_r.
Qed.

Lemma land_low (x n : N) : N.land x (N.ones n) = x mod 2 ^ n.
Proof. apply N.land_ones. Qed.

Lemma land_3F (x : N) : N.land x 0x3F = x mod 64.
Proof. apply (land_low x 6). Qed.
Lemma land_1F (x : N) : N.land x 0x1F = x mod 32.
Proof. apply (land_low x 5). Qed.
Lemma land_0F (x : N) : N.land x 0x0F = x mod 16.
Proof. apply (land_low x 4). Qed.
Lemma land_07 (x : N) : N.land x 0x07 = x mod 8.
Proof. apply (land_low x 3). Qed.
Lemma shiftl_6 (x : N) : N.shiftl x 6 = x * 64.
Proof. apply (N.shiftl_mul_pow2 x 6). Qed.
Lemma shiftl_12 (x : N) : N.shiftl x 12 = x * 4096.
Proof. apply (N.shiftl_mul_pow2 x 12). Qed.
Lemma shiftl_18 (x : N) : N.shiftl x 18 = x * 262144.
Proof. apply (N.shiftl_mul_pow2 x 18). Qed.
Lemma shiftr_4 (x : N) : N.shiftr x 4 = x / 16.
Proof. apply (N.shiftr_div_pow2 x 4). Qed.
Lemma shiftr_6 (x : N) : N.shiftr x 6 = x / 64.
Proof. apply (N.shiftr_div_pow2 x 6). Qed.
Lemma shiftr_12 (x : N) : N.shiftr x 12 = x / 4096.
Proof. apply (N.shiftr_div_pow2 x 12). Qed.
Lemma shiftr_18 (x : N) : N.shiftr x 18 = x / 262144.
Proof. apply (N.shiftr_div_pow2 x 18). Qed.

Lemma lor_80 (x : N) : x < 128 -> N.lor 0x80 x = 128 + x.
Proof. intros H. by apply (lor_eq_add 0x80 x 7). Qed.
Lemma lor_C0 (x : N) : x < 64 -> N.lor 0xC0 x = 192 + x.
Proof. intros H. by apply (lor_eq_add 0xC0 x 6). Qed.
Lemma lor_E0 (x : N) : x < 32 -> N.lor 0xE0 x = 224 + x.
Proof. intros H. by apply (lor_eq_add 0xE0 x 5). Qed.
Lemma lor_F0 (x : N) : x < 16 -> N.lor 0xF0 x = 240 + x.
Proof. intros H. by apply (lor_eq_add 0xF0 x 4). Qed.

(** The rune that two, three and four bytes denote, as a sum. *)
Lemma rune2_sum (p0 b1 : N) :
  N.lor (N.shiftl (N.land p0 0x1F) 6) (N.land b1 0x3F) = p0 mod 32 * 64 + b1 mod 64.
Proof.
  rewrite land_1F, land_3F, shiftl_6.
  apply (lor_eq_add _ _ 6); div_lia.
Qed.

Lemma rune3_sum (p0 b1 b2 : N) :
  N.lor (N.lor (N.shiftl (N.land p0 0x0F) 12) (N.shiftl (N.land b1 0x3F) 6))
        (N.land b2 0x3F)
  = p0 mod 16 * 4096 + b1 mod 64 * 64 + b2 mod 64.
Proof.
  rewrite land_0F, !land_3F, shiftl_6, shiftl_12.
  rewrite (lor_eq_add (p0 mod 16 * 4096) _ 12) by div_lia.
  apply (lor_eq_add _ _ 6); div_lia.
Qed.

Lemma rune4_sum (p0 b1 b2 b3 : N) :
  N.lor (N.lor (N.lor (N.shiftl (N.land p0 0x07) 18) (N.shiftl (N.land b1 0x3F) 12))
               (N.shiftl (N.land b2 0x3F) 6))
        (N.land b3 0x3F)
  = p0 mod 8 * 262144 + b1 mod 64 * 4096 + b2 mod 64 * 64 + b3 mod 64.
Proof.
  rewrite land_07, !land_3F, shiftl_6, shiftl_12, shiftl_18.
  rewrite (lor_eq_add (p0 mod 8 * 262144) _ 18) by div_lia.
  rewrite (lor_eq_add (_ + _) (_ * 64) 12) by div_lia.
  apply (lor_eq_add _ _ 6); div_lia.
Qed.

End Bits.

(** ** [utf8.EncodeRune] after [utf8.DecodeRuneInString] *)

Section Utf8.
Local Open Scope N_scope.

Ltac decide_test :=
  match goal with
  | |- context [N.leb ?a ?b] =>
    first [ rewrite (proj2 (N.leb_le a b)) by div_lia
          | rewrite (proj2 (N.leb_gt a b)) by div_lia ]
  | |- context [N.ltb ?a ?b] =>
    first [ rewrite (proj2 (N.ltb_lt a b)) by div_lia
          | rewrite (proj2 (N.ltb_ge a b)) by div_lia ]
  end.

Ltac not_surrogate :=
  match goal with
  | |- context [N.leb 0xD800 ?r && N.leb ?r 0xDFFF] =>
    replace (N.leb 0xD800 r && N.leb r 0xDFFF) with false
      by (symmetry; apply andb_false_iff; rewrite !N.leb_gt; div_lia)
  end.

Ltac encode_bytes :=
  unfold utf8.EncodeRune, utf8.MaxRune, utf8.surrogateMin, utf8.surrogateMax;
  try not_surrogate;
  repeat decide_test; cbn [orb andb]; cbv [String.append];
  rewrite ?shiftr_6, ?shiftr_12, ?shiftr_18, ?land_3F;
  (rewrite ?lor_80, ?lor_C0, ?lor_E0, ?lor_F0 by div_lia);
  repeat f_equal; div_lia.

Lemma EncodeRune_1 (r : N) :
  r <= 0x7F -> utf8.EncodeRune r = String (ascii_of_N r) EmptyString.
Proof. intros. encode_bytes. Qed.


Lemma EncodeRune_2 (p0 b1 : N) :
  0xC2 <= p0 <= 0xDF -> 0x80 <= b1 <= 0xBF ->
  utf8.EncodeRune (p0 mod 32 * 64 + b1 mod 64) =
    String (ascii_of_N p0) (String (ascii_of_N b1) EmptyString).
Proof. intros. encode_bytes. Qed.

Lemma EncodeRune_3 (p0 b1 b2 : N) :
  0xE0 <= p0 <= 0xEF -> 0x80 <= b1 <= 0xBF -> 0x80 <= b2 <= 0xBF ->
  (p0 = 0xE0 -> 0xA0 <= b1) -> (p0 = 0xED -> b1 <= 0x9F) ->
  utf8.EncodeRune (p0 mod 16 * 4096 + b1 mod 64 * 64 + b2 mod 64) =
    String (ascii_of_N p0) (String (ascii_of_N b1) (String (ascii_of_N b2) EmptyString)).
Proof. intros. encode_bytes. Qed.

Lemma EncodeRune_4 (p0 b1 b2 b3 : N) :
  0xF0 <= p0 <= 0xF4 -> 0x80 <= b1 <= 0xBF -> 0x80 <= b2 <= 0xBF -> 0x80 <= b3 <= 0xBF ->
  (p0 = 0xF0 -> 0x90 <= b1) -> (p0 = 0xF4 -> b1 <= 0x8F) ->
  utf8.EncodeRune (p0 mod 8 * 262144 + b1 mod 64 * 4096 + b2 mod 64 * 64 + b3 mod 64) =
    String (ascii_of_N p0) (String (ascii_of_N b1)
      (String (ascii_of_N b2) (String (ascii_of_N b3) EmptyString))).
Proof. intros. encode_bytes. Qed.

End Utf8.

Section Decode.
Local Open Scope N_scope.

Lemma first_multi (p0 : N) (sz : nat) (lo hi : N) :
  utf8.first p0 = utf8.LeadMulti sz lo hi ->
  0x80 <= lo /\ hi <= 0xBF /\
  ((sz = 2%nat /\ 0xC2 <= p0 <= 0xDF /\ lo = 0x80 /\ hi = 0xBF)
   \/ (sz = 3%nat /\ 0xE0 <= p0 <= 0xEF
       /\ (p0 = 0xE0 -> lo = 0xA0) /\ (p0 = 0xED -> hi = 0x9F))
   \/ (sz = 4%nat /\ 0xF0 <= p0 <= 0xF4
       /\ (p0 = 0xF0 -> lo = 0x90) /\ (p0 = 0xF4 -> hi = 0x8F))).
Proof.
  unfold utf8.first, utf8.locb, utf8.hicb.
  repeat match goal with
         | |- context [N.ltb ?a ?b] => destruct (N.ltb_spec a b)
         | |- context [N.eqb ?a ?b] => destruct (N.eqb_spec a b)
         end;
    intros [= <- <- <-]; lia.
Qed.

Lemma first_ascii (p0 : N) : p0 < 0x80 -> utf8.first p0 = utf8.LeadASCII.
Proof.
  intros H. unfold utf8.first. by rewrite (proj2 (N.ltb_lt p0 0x80) H).
Qed.

Lemma first_not_ascii (p0 : N) : 0x80 <= p0 -> utf8.first p0 <> utf8.LeadASCII.
Proof.
  intros H. unfold utf8.first. rewrite (proj2 (N.ltb_ge p0 0x80) H).
  repeat match goal with
         | |- context [N.ltb ?a ?b] => destruct (N.ltb_spec a b)
         | |- context [N.eqb ?a ?b] => destruct (N.eqb_spec a b)
         end; discriminate.
Qed.

Lemma cont_range (b : N) : utf8.cont b = true <-> 0x80 <= b <= 0xBF.
Proof.
  unfold utf8.cont, utf8.locb, utf8.hicb.
  rewrite andb_true_iff, !N.leb_le. tauto.
Qed.

Lemma range_test (b lo hi : N) :
  (b <? lo) || (hi <? b) = false <-> lo <= b <= hi.
Proof.
  rewrite orb_false_iff, !N.ltb_ge. tauto.
Qed.

End Decode.

(** A rune of several bytes at the head of a string: the bytes are those
    that [EncodeRune] gives back, and nothing behind them matters. *)
Lemma DecodeRune_multibyte (s : string) (r : N) (size : nat) :
  utf8.DecodeRuneInString s = (r, size) -> (2 <= size)%nat ->
  exists bytes post,
    s = bytes ++ post
    /\ String.length bytes = size
    /\ utf8.EncodeRune r = bytes
    /\ (forall post', utf8.DecodeRuneInString (bytes ++ post') = (r, size)).
Proof.
  destruct s as [|c0 s1]; [intros [= <- <-]; lia |].
  unfold utf8.DecodeRuneInString.
  destruct (utf8.first (N_of_ascii c0)) as [| |sz lo hi] eqn:Hfirst;
    [intros [= <- <-]; lia | intros [= <- <-]; lia |].
  destruct (first_multi _ _ _ _ Hfirst) as (Hlo & Hhi & Hcases).
  destruct (String.length (String c0 s1) <? sz)%nat eqn:Hlen;
    [intros [= <- <-]; lia |].
  destruct s1 as [|c1 s2]; [intros [= <- <-]; lia |].
  destruct ((N_of_ascii c1 <? lo) || (hi <? N_of_ascii c1))%N eqn:H1;
    [intros [= <- <-]; lia |].
  apply range_test in H1.
  destruct (sz <=? 2)%nat eqn:Hsz2.
  { intros [= <- <-] _. apply Nat.leb_le in Hsz2.
    destruct Hcases as [(-> & Hp0 & -> & ->)|[(-> & _)|(-> & _)]]; try lia.
    exists (String c0 (String c1 EmptyString)), s2.
    split; [reflexivity |]. split; [reflexivity |]. split.
    - rewrite rune2_sum, EncodeRune_2, !ascii_N_embedding by lia. reflexivity.
    - intros post'. cbv [String.append]. rewrite Hfirst.
      cbn [String.length Nat.ltb Nat.leb].
      rewrite (proj2 (range_test _ _ _) H1). reflexivity. }
  destruct s2 as [|c2 s3]; [intros [= <- <-]; lia |].
  destruct (negb (utf8.cont (N_of_ascii c2))) eqn:H2; [intros [= <- <-]; lia |].
  apply negb_false_iff in H2. pose proof (proj1 (cont_range _) H2) as H2'.
  destruct (sz <=? 3)%nat eqn:Hsz3.
  { intros [= <- <-] _. apply Nat.leb_le in Hsz3. apply Nat.leb_gt in Hsz2.
    destruct Hcases as [(-> & _)|[(-> & Hp0 & HE0 & HED)|(-> & _)]]; try lia.
    exists (String c0 (String c1 (String c2 EmptyString))), s3.
    split; [reflexivity |]. split; [reflexivity |]. split.
    - rewrite rune3_sum, EncodeRune_3, !ascii_N_embedding by lia. reflexivity.
    - intros post'. cbv [String.append]. rewrite Hfirst.
      cbn [String.length Nat.ltb Nat.leb Nat.leb].
      rewrite (proj2 (range_test _ _ _) H1), H2. reflexivity. }
  destruct s3 as [|c3 s4]; [intros [= <- <-]; lia |].
  destruct (negb (utf8.cont (N_of_ascii c3))) eqn:H3; [intros [= <- <-]; lia |].
  apply negb_false_iff in H3. pose proof (proj1 (cont_range _) H3) as H3'.
  intros [= <- <-] _. apply Nat.leb_gt in Hsz2, Hsz3.
  destruct Hcases as [(-> & _)|[(-> & _)|(-> & Hp0 & HF0 & HF4)]]; try lia.
  exists (String c0 (String c1 (String c2 (String c3 EmptyString)))), s4.
  split; [reflexivity |]. split; [reflexivity |]. split.
  - rewrite rune4_sum, EncodeRune_4, !ascii_N_embedding by lia. reflexivity.
  - intros post'. cbv [String.append]. rewrite Hfirst.
    cbn [String.length Nat.ltb Nat.leb].
    rewrite (proj2 (range_test _ _ _) H1), H2, H3. reflexivity.
Qed.

(** ** The counters of the loops over runes *)

Lemma appendString_loop_copy (bytes post : string) :
  json.appendString_loop (String.length bytes) 0 (bytes ++ post) =
    bytes ++ json.appendString_loop 0 0 post.
Proof.
  induction bytes as [|c bytes IH]; [reflexivity |].
  rewrite !app_String. simpl. by rewrite IH.
Qed.

Lemma appendString_loop_drop (bytes post : string) :
  json.appendString_loop 0 (String.length bytes) (bytes ++ post) =
    json.appendString_loop 0 0 post.
Proof.
  induction bytes as [|c bytes IH]; [reflexivity |].
  rewrite !app_String. simpl. by rewrite IH.
Qed.

Lemma unquote_skip (bytes post : string) :
  json.unquote (String.length bytes) (bytes ++ post) = json.unquote 0 post.
Proof.
  induction bytes as [|c bytes IH]; [reflexivity |].
  rewrite !app_String. simpl. by rewrite IH.
Qed.

Lemma valid_from_skip (bytes post : string) :
  utf8.valid_from (String.length bytes) (bytes ++ post) = utf8.valid_from 0 post.
Proof.
  induction bytes as [|c bytes IH]; [reflexivity |].
  rewrite !app_String. simpl. by rewrite IH.
Qed.

Lemma DecodeRune_ascii (c : ascii) (s : string) :
  (N_of_ascii c < 0x80)%N ->
  utf8.DecodeRuneInString (String c s) = (N_of_ascii c, 1%nat).
Proof.
  intros H. unfold utf8.DecodeRuneInString. by rewrite first_ascii.
Qed.

(** For a first byte that is not ASCII, the decoder gives the error of
    width one or a rune of two to four bytes. *)
Lemma DecodeRune_width (c : ascii) (s : string) :
  (0x80 <= N_of_ascii c)%N ->
  utf8.DecodeRuneInString (String c s) = (utf8.RuneError, 1%nat)
  \/ (2 <= snd (utf8.DecodeRuneInString (String c s)))%nat.
Proof.
  intros Hc. unfold utf8.DecodeRuneInString.
  destruct (utf8.first (N_of_ascii c)) as [| |sz lo hi] eqn:Hfirst.
  - by apply first_not_ascii in Hfirst.
  - by left.
  - repeat match goal with
           | |- context [if ?b then _ else _] => destruct b
           | |- context [match ?x with EmptyString => _ | String _ _ => _ end] =>
             destruct x
           end; simpl; (by left) || (right; lia).
Qed.

(** ** A string literal read back *)

Lemma prepend_Some (text decoded rest : string) :
  json.prepend text (Some (decoded, rest)) = Some (text ++ decoded, rest).
Proof. reflexivity. Qed.

(** An escape of the encoder, read back. *)
Lemma unquote_escape (c : ascii) (text : string) :
  (N_of_ascii c < 0x80)%N -> json.htmlSafe (N_of_ascii c) = false ->
  json.unquote 0 (json.escape (N_of_ascii c) ++ text) =
    json.prepend (json.char1 c) (json.unquote 0 text).
Proof.
  destruct c as [[] [] [] [] [] [] [] []]; intros Hc Hsafe;
    try discriminate Hsafe; try (exfalso; vm_compute in Hc; discriminate Hc);
    reflexivity.
Qed.

(** A byte that the encoder leaves as it is, read back. *)
Lemma unquote_safe (c : ascii) (text : string) :
  (N_of_ascii c < 0x80)%N -> json.htmlSafe (N_of_ascii c) = true ->
  json.unquote 0 (String c text) = json.prepend (json.char1 c) (json.unquote 0 text).
Proof.
  destruct c as [[] [] [] [] [] [] [] []]; intros Hc Hsafe;
    try discriminate Hsafe; try (exfalso; vm_compute in Hc; discriminate Hc);
    reflexivity.
Qed.

Lemma unquote_multibyte (c : ascii) (s : string) (r : N) (size : nat) :
  (0x80 <= N_of_ascii c)%N ->
  utf8.DecodeRuneInString (String c s) = (r, size) ->
  json.unquote 0 (String c s) =
    json.prepend (utf8.EncodeRune r) (json.unquote (size - 1) s).
Proof.
  intros Hc Hdec. cbn [json.unquote].
  rewrite (proj2 (N.eqb_neq _ 0x22)) by lia.
  rewrite (proj2 (N.eqb_neq _ 0x5C)) by lia.
  rewrite (proj2 (N.ltb_ge _ 0x20)) by lia.
  rewrite (proj2 (N.ltb_ge _ 0x80)) by lia.
  by rewrite Hdec.
Qed.

Lemma appendString_loop_multibyte (c : ascii) (s : string) (r : N) (size : nat) :
  (0x80 <= N_of_ascii c)%N ->
  utf8.DecodeRuneInString (String c s) = (r, size) ->
  json.appendString_loop 0 0 (String c s) =
    if (r =? utf8.RuneError)%N && (size =? 1)%nat then
      json.replacement ++ json.appendString_loop 0 0 s
    else if ((r =? 0x2028) || (r =? 0x2029))%N then
      String json.backslash "u202" ++ String (json.hex (N.land r 0xF)) EmptyString ++
      json.appendString_loop 0 (size - 1) s
    else String c (json.appendString_loop (size - 1) 0 s).
Proof.
  intros Hc Hdec. cbn [json.appendString_loop].
  rewrite (proj2 (N.ltb_ge _ 0x80)) by lia.
  by rewrite Hdec.
Qed.

Lemma unquote_appendString_loop_length (n : nat) :
  forall s : string,
  (String.length s <= n)%nat ->
  utf8.ValidString s = true ->
  forall rest : string,
  json.unquote 0 (json.appendString_loop 0 0 s ++ String json.quote_char rest) =
    Some (s, rest).
Proof.
  induction n as [|n IH]; intros s Hlen Hvalid rest.
  { destruct s; [reflexivity | simpl in Hlen; lia]. }
  destruct s as [|c s1]; [reflexivity |].
  simpl in Hlen. unfold utf8.ValidString in Hvalid.
  destruct (N.lt_ge_cases (N_of_ascii c) 0x80) as [Hc|Hc].
  - cbn [utf8.valid_from] in Hvalid.
    rewrite DecodeRune_ascii in Hvalid by done.
    rewrite (proj2 (N.eqb_neq (N_of_ascii c) utf8.RuneError)) in Hvalid
      by (unfold utf8.RuneError; lia).
    cbn [andb Nat.sub] in Hvalid.
    cbn [json.appendString_loop].
    rewrite (proj2 (N.ltb_lt _ 0x80)) by done.
    destruct (json.htmlSafe (N_of_ascii c)) eqn:Hsafe.
    + rewrite app_String, unquote_safe by done.
      rewrite IH by (done || lia). reflexivity.
    + rewrite append_assoc, unquote_escape by done.
      rewrite IH by (done || lia). reflexivity.
  - destruct (utf8.DecodeRuneInString (String c s1)) as [r size] eqn:Hdec.
    cbn [utf8.valid_from] in Hvalid. rewrite Hdec in Hvalid.
    rewrite (appendString_loop_multibyte c s1 r size Hc Hdec).
    destruct ((r =? utf8.RuneError)%N && (size =? 1)%nat) eqn:Herr; [discriminate |].
    destruct (DecodeRune_width c s1 Hc) as [Hw|Hw];
      rewrite Hdec in Hw.
    { injection Hw as -> ->. discriminate Herr. }
    cbn [snd] in Hw.
    destruct (DecodeRune_multibyte _ r size Hdec Hw)
      as (bytes & post & Hs & Hbytes & Henc & Hany).
    destruct bytes as [|c' bytes']; [simpl in Hbytes; lia |].
    rewrite app_String in Hs. injection Hs as <- ->.
    simpl in Hbytes.
    assert (Hsize : (size - 1)%nat = String.length bytes') by lia.
    rewrite Hsize in *. clear Hsize.
    rewrite valid_from_skip in Hvalid.
    assert (Hpost : (String.length post <= n)%nat).
    { rewrite string_length_app in Hlen. lia. }
    destruct ((r =? 0x2028) || (r =? 0x2029))%N eqn:Hsep.
    + rewrite appendString_loop_drop.
      assert (Hread : forall text,
                json.unquote 0 (String json.backslash "u202" ++
                                String (json.hex (N.land r 0xF)) EmptyString ++ text) =
                json.prepend (utf8.EncodeRune r) (json.unquote 0 text)).
      { apply orb_true_iff in Hsep as [Hr|Hr]; apply N.eqb_eq in Hr; subst r;
          intros text; reflexivity. }
      rewrite !append_assoc, Hread, IH by done.
      rewrite prepend_Some, Henc. reflexivity.
    + rewrite appendString_loop_copy.
      rewrite app_String, append_assoc.
      rewrite (unquote_multibyte c _ r size Hc)
        by (rewrite <- app_String; apply Hany).
      replace (size - 1)%nat with (String.length bytes') by lia.
      rewrite unquote_skip, IH by done.
      rewrite prepend_Some, Henc. reflexivity.
Qed.

(** A string literal of the encoder reads back as the string it was
    written from, when the string is valid UTF-8. *)
Lemma string_literal_appendString (s rest : string) :
  utf8.ValidString s = true ->
  json.string_literal (json.appendString s ++ rest) = Some (s, rest).
Proof.
  intros Hvalid. unfold json.appendString, json.string_literal.
  rewrite app_String. cbn [json.quote_char].
  change (N_of_ascii "034" =? 34)%N with true. cbv iota.
  rewrite append_assoc, app_String, app_empty.
  by apply (unquote_appendString_loop_length (String.length s)).
Qed.

(** ** White space and punctuation *)

Lemma skip_space_newline (text : string) :
  json.skip_space (json.newline ++ text) = json.skip_space text.
Proof. reflexivity. Qed.

Lemma skip_space_blank (text : string) :
  json.skip_space (" " ++ text) = json.skip_space text.
Proof. reflexivity. Qed.

Lemma skip_space_indentation (depth : nat) (text : string) :
  json.skip_space (json.indentation depth ++ text) = json.skip_space text.
Proof.
  induction depth as [|depth IH]; [reflexivity |].
  cbn [json.indentation]. rewrite append_assoc. exact IH.
Qed.

Lemma skip_space_literal (s text : string) :
  json.skip_space (json.appendString s ++ text) = json.appendString s ++ text.
Proof. reflexivity. Qed.

Lemma string_literal_skip (depth : nat) (s rest : string) :
  utf8.ValidString s = true ->
  json.string_literal
    (json.skip_space (json.newline ++ json.indentation depth ++ json.appendString s ++ rest))
  = Some (s, rest).
Proof.
  intros Hvalid.
  rewrite skip_space_newline, skip_space_indentation, skip_space_literal.
  by apply string_literal_appendString.
Qed.

(** ** Objects with string members *)

Lemma items_cons (depth : nat) (text : string) (texts : list string) :
  json.items depth (text :: texts) =
    json.newline ++ json.indentation depth ++ text ++
    match texts with [] => "" | _ => "," ++ json.items depth texts end.
Proof.
  destruct texts; cbn [json.items]; [by rewrite append_empty_r | reflexivity].
Qed.

Lemma expect_colon (text : string) :
  json.expect 0x3A (": " ++ text) = Some (" " ++ text).
Proof. reflexivity. Qed.

Lemma skip_space_closing (depth : nat) (closing : ascii) (rest : string) :
  json.isSpace closing = false ->
  json.skip_space (json.newline ++ json.indentation depth ++ String closing rest) =
    String closing rest.
Proof.
  intros Hc. rewrite skip_space_newline, skip_space_indentation.
  cbn [json.skip_space]. by rewrite Hc.
Qed.

Lemma string_members_items (depth depth' : nat) (members : list (string * string)) :
  forall (fuel : nat) (rest : string),
  members <> [] ->
  Forall valid_member members ->
  (length members <= fuel)%nat ->
  json.string_members fuel
    (json.items depth (List.map member_text members) ++
     json.newline ++ json.indentation depth' ++ String "}" rest)
  = Some (members, rest).
Proof.
  induction members as [|[key value] members IH]; intros fuel rest Hne Hvalid Hfuel;
    [done |].
  destruct fuel as [|fuel]; [simpl in Hfuel; lia |].
  inversion Hvalid as [|? ? [Hkey Hvalue] Hrest]; subst. simpl in Hkey, Hvalue.
  cbn [List.map]. rewrite items_cons. unfold member_text at 1. cbn [fst snd].
  cbn [json.string_members].
  rewrite ?append_assoc.
  rewrite string_literal_skip by done.
  rewrite expect_colon, skip_space_blank, skip_space_literal.
  rewrite string_literal_appendString by done.
  destruct members as [|member members].
  - rewrite app_empty.
    rewrite skip_space_closing by reflexivity. reflexivity.
  - cbn [List.map]. rewrite !app_String, !app_empty.
    cbn [json.skip_space].
    change (json.isSpace ",") with false. cbv iota.
    change (N_of_ascii "," =? 44)%N with true. cbv iota.
    change (member_text member :: List.map member_text members)
      with (List.map member_text (member :: members)).
    rewrite IH; [reflexivity | done | done | simpl in *; lia].
Qed.

Lemma string_object_text (depth : nat) (members : list (string * string))
    (fuel : nat) (rest : string) :
  Forall valid_member members ->
  (length members <= fuel)%nat ->
  json.string_object fuel
    (json.skip_space
       (json.object_text depth
          (List.map (fun kv => (fst kv, json.appendString (snd kv))) members) ++ rest))
  = Some (members, rest)
  /\ json.string_object fuel
       (json.object_text depth
          (List.map (fun kv => (fst kv, json.appendString (snd kv))) members) ++ rest)
     = Some (members, rest).
Proof.
  intros Hvalid Hfuel.
  assert (Hgoal : json.string_object fuel
       (json.object_text depth
          (List.map (fun kv => (fst kv, json.appendString (snd kv))) members) ++ rest)
     = Some (members, rest)).
  { destruct members as [|member members]; [reflexivity |].
    unfold json.object_text. cbn [List.map].
    rewrite List.map_map.
    rewrite ?append_assoc.
    unfold json.string_object.
    change (json.expect 123 ("{" ++ ?t)) with (Some t). cbv iota.
    set (texts := _ :: List.map _ members).
    assert (Htexts : texts = List.map member_text (member :: members)) by reflexivity.
    rewrite Htexts. clear texts Htexts.
    replace (json.expect 125 _) with (@None string).
    - apply string_members_items; done.
    - cbn [List.map]. rewrite items_cons. unfold member_text at 1.
      rewrite ?append_assoc. unfold json.expect.
      rewrite skip_space_newline, skip_space_indentation, skip_space_literal.
      reflexivity. }
  split; [| exact Hgoal].
  replace (json.skip_space (json.object_text depth _ ++ rest))
    with (json.object_text depth
            (List.map (fun kv => (fst kv, json.appendString (snd kv))) members) ++ rest);
    [exact Hgoal |].
  by destruct members.
Qed.

Lemma skip_space_idempotent (s : string) :
  json.skip_space (json.skip_space s) = json.skip_space s.
Proof.
  induction s as [|c s IH]; [reflexivity |].
  cbn [json.skip_space]. destruct (json.isSpace c) eqn:Hc; [exact IH |].
  cbn [json.skip_space]. by rewrite Hc.
Qed.

Lemma string_object_after_space (fuel : nat) (s s' : string) :
  json.skip_space s = json.skip_space s' ->
  json.string_object fuel s = json.string_object fuel s'.
Proof.
  intros H. unfold json.string_object, json.expect. by rewrite H.
Qed.

(** ** The array of checks *)

Lemma check_text_members (depth : nat) (check : DiagnosticCheck) :
  json.check_text depth check =
    json.object_text depth
      (List.map (fun kv => (fst kv, json.appendString (snd kv))) (check_members check)).
Proof. reflexivity. Qed.

Lemma check_of_members_check (check : DiagnosticCheck) :
  json.check_of_members (check_members check) = Some check.
Proof. by destruct check. Qed.

Lemma check_object_text (depth depth' : nat) (check : DiagnosticCheck)
    (fuel : nat) (rest : string) :
  valid_check check -> (4 <= fuel)%nat ->
  json.check_object fuel
    (json.newline ++ json.indentation depth' ++ json.check_text depth check ++ rest)
  = Some (check, rest).
Proof.
  intros (Htype & Hstatus & Hmessage & Hlink) Hfuel.
  unfold json.check_object.
  rewrite (string_object_after_space fuel _ (json.check_text depth check ++ rest)).
  - rewrite check_text_members.
    rewrite (proj2 (string_object_text depth (check_members check) fuel rest
                      ltac:(by repeat constructor) Hfuel)).
    by rewrite check_of_members_check.
  - rewrite skip_space_newline, skip_space_indentation. reflexivity.
Qed.

Lemma check_elements_items (depth depth' : nat) (checks : list DiagnosticCheck) :
  forall (fuel : nat) (rest : string),
  checks <> [] ->
  Forall valid_check checks ->
  (length checks + 4 <= fuel)%nat ->
  json.check_elements fuel
    (json.items depth (List.map (json.check_text depth) checks) ++
     json.newline ++ json.indentation depth' ++ String "]" rest)
  = Some (checks, rest).
Proof.
  induction checks as [|check checks IH]; intros fuel rest Hne Hvalid Hfuel; [done |].
  destruct fuel as [|fuel]; [simpl in Hfuel; lia |].
  inversion Hvalid as [|? ? Hcheck Hrest]; subst.
  cbn [List.map]. rewrite items_cons.
  cbn [json.check_elements]. rewrite ?append_assoc.
  rewrite check_object_text by (done || simpl in Hfuel; lia).
  destruct checks as [|check' checks].
  - rewrite app_empty.
    rewrite skip_space_closing by reflexivity. reflexivity.
  - cbn [List.map]. rewrite !app_String, !app_empty.
    cbn [json.skip_space].
    change (json.isSpace ",") with false. cbv iota.
    change (N_of_ascii "," =? 44)%N with true. cbv iota.
    change (json.check_text depth check' :: List.map (json.check_text depth) checks)
      with (List.map (json.check_text depth) (check' :: checks)).
    rewrite IH; [reflexivity | done | done | simpl in *; lia].
Qed.

Lemma check_array_text (depth : nat) (checks : list DiagnosticCheck)
    (fuel : nat) (rest : string) :
  Forall valid_check checks ->
  (length checks + 4 <= fuel)%nat ->
  json.check_array fuel
    (" " ++ json.array_text depth (List.map (json.check_text (S depth)) checks) ++ rest)
  = Some (checks, rest).
Proof.
  intros Hvalid Hfuel.
  destruct checks as [|check checks]; [reflexivity |].
  unfold json.array_text. cbn [List.map].
  rewrite ?append_assoc.
  unfold json.check_array.
  change (json.expect 91 (" " ++ "[" ++ ?t)) with (Some t). cbv iota.
  change (json.check_text (S depth) check :: List.map (json.check_text (S depth)) checks)
    with (List.map (json.check_text (S depth)) (check :: checks)).
  replace (json.expect 93 _) with (@None string).
  - change ("]" ++ rest) with (String "]" rest).
    apply check_elements_items; done.
  - cbn [List.map]. rewrite items_cons, ?append_assoc. unfold json.expect.
    rewrite skip_space_newline, skip_space_indentation.
    reflexivity.
Qed.

(** ** The map of details *)

Lemma fold_insert_lookup (value : string -> string) (keys : list string) :
  forall (acc : gmap string string) (key : string),
  fold_left (fun m kv => <[fst kv := snd kv]> m)
            (List.map (fun key => (key, value key)) keys) acc !! key =
    if bool_decide (key ∈ keys) then Some (value key) else acc !! key.
Proof.
  induction keys as [|k keys IH]; intros acc key; [reflexivity |].
  cbn [List.map fold_left fst snd]. rewrite IH.
  destruct (decide (key ∈ keys)) as [Hin|Hin].
  - rewrite !bool_decide_eq_true_2; [done | by right | done].
  - rewrite (bool_decide_eq_false_2 (key ∈ keys)) by done.
    destruct (decide (key = k)) as [->|Hne].
    + rewrite lookup_insert_eq. by rewrite bool_decide_eq_true_2 by left.
    + rewrite lookup_insert_ne by done.
      rewrite bool_decide_eq_false_2; [done |].
      intros [?|?]%elem_of_cons; done.
Qed.

Lemma map_of_members_details (m : gmap string string) :
  json.map_of_members (detail_members m) = m.
Proof.
  apply map_eq. intros key. unfold json.map_of_members, detail_members.
  rewrite (fold_insert_lookup (fun key => default "" (m !! key))).
  rewrite lookup_empty.
  destruct (m !! key) as [value|] eqn:Hkey.
  - rewrite bool_decide_eq_true_2; [done |].
    rewrite sort_Strings_Permutation.
    apply list_elem_of_fmap. exists (key, value). split; [done |].
    by apply elem_of_map_to_list.
  - rewrite bool_decide_eq_false_2; [done |].
    rewrite sort_Strings_Permutation.
    intros ([k v] & -> & Hin%elem_of_map_to_list)%list_elem_of_fmap.
    simpl in Hkey. congruence.
Qed.

Lemma map_text_members (depth : nat) (m : gmap string string) :
  json.map_text depth m =
    json.object_text depth
      (List.map (fun kv => (fst kv, json.appendString (snd kv))) (detail_members m)).
Proof.
  unfold json.map_text, detail_members. by rewrite List.map_map.
Qed.

Lemma detail_members_length (m : gmap string string) :
  length (detail_members m) = size m.
Proof.
  unfold detail_members.
  rewrite length_map, sort_Strings_Permutation, length_fmap.
  apply length_map_to_list.
Qed.

Lemma detail_members_valid (m : gmap string string) :
  valid_details m -> Forall valid_member (detail_members m).
Proof.
  intros Hvalid. unfold detail_members. apply Forall_forall. intros kv Hin.
  apply list_elem_of_In, in_map_iff in Hin as (key & <- & Hin).
  apply list_elem_of_In in Hin. rewrite sort_Strings_Permutation in Hin.
  apply list_elem_of_fmap in Hin as ([k v] & -> & Hin%elem_of_map_to_list).
  unfold valid_member. simpl. rewrite Hin. simpl. exact (Hvalid k v Hin).
Qed.

(** ** Enough fuel *)

Lemma items_length (depth : nat) (texts : list string) :
  (length texts <= String.length (json.items depth texts))%nat.
Proof.
  induction texts as [|text texts IH]; [simpl; lia |].
  rewrite items_cons, !string_length_app.
  destruct texts as [|text' texts]; [simpl; lia |].
  rewrite string_length_app. simpl in *. lia.
Qed.

Lemma object_text_length (depth : nat) (members : list (string * string)) :
  (length members <= String.length (json.object_text depth members))%nat.
Proof.
  destruct members as [|member members]; [simpl; lia |].
  unfold json.object_text. rewrite !string_length_app.
  pose proof (items_length (S depth)
    (List.map (fun m => json.appendString (fst m) ++ ": " ++ snd m) (member :: members)))
    as H.
  rewrite length_map in H. lia.
Qed.

Lemma array_text_length (depth : nat) (elements : list string) :
  (length elements <= String.length (json.array_text depth elements))%nat.
Proof.
  destruct elements as [|element elements]; [simpl; lia |].
  unfold json.array_text. rewrite !string_length_app.
  pose proof (items_length (S depth) (element :: elements)) as H. lia.
Qed.

Lemma MarshalIndent_length (it : DiagnosticStatus) :
  (size (Details it) + length (Checks it) + 6 <=
   String.length (json.MarshalIndent it))%nat.
Proof.
  unfold json.MarshalIndent, json.object_text. cbn [List.map fst snd].
  rewrite string_length_app, !items_cons, !string_length_app.
  pose proof (object_text_length 1
    (List.map (fun kv => (fst kv, json.appendString (snd kv)))
              (detail_members (Details it)))) as Hd.
  rewrite <- map_text_members, length_map, detail_members_length in Hd.
  pose proof (array_text_length 1 (List.map (json.check_text 2) (Checks it))) as Hc.
  rewrite length_map in Hc.
  change (String.length (json.appendString "details")) with 9%nat.
  change (String.length json.newline) with 1%nat.
  lia.
Qed.

Lemma string_object_map_text (m : gmap string string) (fuel : nat) (rest : string) :
  valid_details m -> (size m <= fuel)%nat ->
  json.string_object fuel (" " ++ json.map_text 1 m ++ rest) =
    Some (detail_members m, rest).
Proof.
  intros Hvalid Hfuel.
  rewrite (string_object_after_space fuel _ (json.map_text 1 m ++ rest)).
  - rewrite map_text_members.
    apply string_object_text;
      [by apply detail_members_valid | by rewrite detail_members_length].
  - rewrite skip_space_blank.
    rewrite map_text_members. 
    by destruct (detail_members m).
Qed.

Lemma Unmarshal_MarshalIndent (it : DiagnosticStatus) :
  valid_report it -> json.Unmarshal (json.MarshalIndent it) = Some it.
Proof.
  intros [Hdetails Hchecks].
  unfold json.Unmarshal. cbv zeta.
  pose proof (MarshalIndent_length it) as Hlen. revert Hlen.
  generalize (String.length (json.MarshalIndent it)). intros fuel Hlen.
  destruct fuel as [|[|fuel]]; [lia | lia |].
  unfold json.MarshalIndent, json.object_text. cbn [List.map fst snd].
  rewrite !items_cons, ?append_assoc, ?app_empty.
  change (json.expect 123 ("{" ++ ?t)) with (Some t). cbv iota.
  replace (json.expect 125 _) with (@None string) by reflexivity.
  cbn [json.report_members].
  rewrite string_literal_skip by reflexivity.
  rewrite expect_colon.
  change (String.eqb "details" "details") with true. cbv iota.
  rewrite string_object_map_text by (done || lia).
  change (json.skip_space ("," ++ ?t)) with (String "," t). cbv iota.
  change (N_of_ascii "," =? 44)%N with true. cbv iota.
  rewrite string_literal_skip by reflexivity.
  rewrite expect_colon.
  change (String.eqb "checks" "details") with false.
  change (String.eqb "checks" "checks") with true. cbv iota.
  rewrite check_array_text by (done || lia).
  change (json.skip_space (json.newline ++ "}")) with (String "}" EmptyString).
  change (N_of_ascii "}" =? 44)%N with false.
  change (N_of_ascii "}" =? 125)%N with true. cbv iota.
  cbn [json.skip_space Details Checks].
  rewrite map_of_members_details. by destruct it.
Qed.


(** * Further properties *)

(** ** The probe of a host *)

Ltac probe_cases env state :=
  unfold tlsCheckHost;
  destruct (tlsCheckHeadOnly env _) as [[state|]|?];
  [ destruct (tlsVersions !! Version state) as [?|];
    (destruct (PeerCertificates state) as [|? ?];
     [| destruct (collect_intermediates _ _ _) as [? ?];
        destruct (x509_Verify env _ _) as [?|];
        [ destruct (common_DebugFlag env) eqn:?;
          [ destruct (certificateChain env _) as [?|?] | ] | ] ])
  | | ].

(** The trust table after a probe is the table before it, or that table
    with one entry set; no entry is ever removed. *)
Theorem tlsCheckHost_table_frame (env : Env) (host : string)
    (roots : gmap string bool) :
  (snd (tlsCheckHost env host roots) = roots
   \/ exists (issuer : string) (trusted : bool),
        snd (tlsCheckHost env host roots) = <[issuer := trusted]> roots)
  /\ (forall key : string,
        is_Some (roots !! key) ->
        is_Some (snd (tlsCheckHost env host roots) !! key))
  /\ (size (snd (tlsCheckHost env host roots)) <= S (size roots))%nat.
Proof.
  assert (Hframe : snd (tlsCheckHost env host roots) = roots
   \/ exists (issuer : string) (trusted : bool),
        snd (tlsCheckHost env host roots) = <[issuer := trusted]> roots).
  { probe_cases env state; simpl; eauto. }
  split; [exact Hframe |].
  destruct Hframe as [->|(issuer & trusted & ->)].
  - split; [done | lia].
  - split.
    + intros key Hkey. destruct (decide (issuer = key)) as [->|Hne].
      * rewrite lookup_insert_eq. eauto.
      * by rewrite lookup_insert_ne.
    + destruct (roots !! issuer) as [old|] eqn:Hold.
      * rewrite map_size_insert_Some by eauto. lia.
      * by rewrite map_size_insert_None.
Qed.

(** The checks of a probe that returns come in one of three shapes: the
    link warning alone; the version check and the verify check; or these
    two and the chain check, which appears only in debug mode after a
    failed verification. *)
Theorem tlsCheckHost_result_shape (env : Env) (host : string)
    (roots : gmap string bool) (checks : list common.DiagnosticCheck) :
  fst (tlsCheckHost env host roots) = Returned checks ->
  (categories checks = [common.CategoryNetworkLink]
   /\ Forall (fun c => common.Status c = statusWarning) checks)
  \/ categories checks =
       [common.CategoryNetworkTLSVersion; common.CategoryNetworkTLSVerify]
  \/ (categories checks =
        [common.CategoryNetworkTLSVersion; common.CategoryNetworkTLSVerify;
         common.CategoryNetworkTLSChain]
      /\ common_DebugFlag env = true
      /\ Forall (fun c => common.Status c = statusWarning) (tail checks)).
Proof.
  probe_cases env state; simpl; intros [= <-]; simpl;
    first [ left; split; [reflexivity | by repeat constructor]
          | right; left; reflexivity
          | right; right; split; [reflexivity | split; [done | by repeat constructor]] ].
Qed.

Lemma tlsCheckHost_result_shape_witness :
  exists checks : list common.DiagnosticCheck,
    fst (tlsCheckHost
           (Examples.example_env true Examples.lookup_finds
              (Examples.head_answers VersionTLS10
                 [Examples.leaf_cert; Examples.intermediate_cert])
              Examples.verify_fails)
           "good.example" ∅) = Returned checks
    /\ length checks = 3%nat
    /\ ((categories checks = [common.CategoryNetworkLink]
         /\ Forall (fun c => common.Status c = statusWarning) checks)
        \/ categories checks =
             [common.CategoryNetworkTLSVersion; common.CategoryNetworkTLSVerify]
        \/ (categories checks =
              [common.CategoryNetworkTLSVersion; common.CategoryNetworkTLSVerify;
               common.CategoryNetworkTLSChain]
            /\ common_DebugFlag
                 (Examples.example_env true Examples.lookup_finds
                    (Examples.head_answers VersionTLS10
                       [Examples.leaf_cert; Examples.intermediate_cert])
                    Examples.verify_fails) = true
            /\ Forall (fun c => common.Status c = statusWarning) (tail checks))).
Proof.
  eexists. split; [reflexivity |]. split; [reflexivity |].
  apply (tlsCheckHost_result_shape _ "good.example" ∅). reflexivity.
Defined.

(** Every check of a probe has the type network and the link of the
    documentation page on firewalls and proxies. *)
Theorem tlsCheckHost_type_and_link (env : Env) (host : string)
    (roots : gmap string bool) (checks : list common.DiagnosticCheck) :
  fst (tlsCheckHost env host roots) = Returned checks ->
  Forall (fun c =>
            common.Type_ c = "network"
            /\ common.Link c = settings_DocsLink env "troubleshooting/firewall-and-proxies")
         checks.
Proof.
  probe_cases env state; simpl; intros [= <-]; by repeat constructor.
Qed.

Lemma tlsCheckHost_type_and_link_witness :
  exists checks : list common.DiagnosticCheck,
    fst (tlsCheckHost Examples.env_good "good.example" ∅) = Returned checks
    /\ length checks = 2%nat
    /\ Forall (fun c =>
                 common.Type_ c = "network"
                 /\ common.Link c =
                      settings_DocsLink Examples.env_good
                        "troubleshooting/firewall-and-proxies")
              checks.
Proof.
  eexists. split; [reflexivity |]. split; [reflexivity |].
  apply (tlsCheckHost_type_and_link Examples.env_good "good.example" ∅). reflexivity.
Defined.

(** When a probe with a made table does not return: the response carries
    no TLS state, or, in debug mode, the verification fails and the
    signature slice of some certificate of the chain has a capacity below
    six. *)
Lemma tlsCheckHost_made_panics (env : Env) (host : string)
    (roots : gmap string bool) :
  is_returned (fst (tlsCheckHost env host roots)) = false <->
  tlsCheckHeadOnly env (probe_url host) = Ok None
  \/ (common_DebugFlag env = true
      /\ exists state leaf rest,
           tlsCheckHeadOnly env (probe_url host) = Ok (Some state)
           /\ PeerCertificates state = leaf :: rest
           /\ verification env state leaf rest <> None
           /\ Exists (fun c => slice_cap (Signature c) < 6)%nat (leaf :: rest)).
Proof.
  destruct (tlsCheckHeadOnly env (probe_url host)) as [[state|]|err] eqn:Hhead.
  - destruct (PeerCertificates state) as [|leaf rest] eqn:Hchain.
    + unfold tlsCheckHost. fold (probe_url host). rewrite Hhead, Hchain. simpl.
      split; [done |].
      intros [[=]|(_ & s & l & r & [= <-] & Hc & _)]. congruence.
    + pose proof (tlsCheckHost_verification env host roots state leaf rest _ Hhead Hchain
                    (collect_intermediates_last rest NewCertPool leaf))
        as (_ & Hpanic & _).
      rewrite Hpanic. split.
      * intros (Hdebug & Hverify & Hdump). right. split; [done |].
        exists state, leaf, rest. repeat (split; [done |]).
        apply (Exists_impl (not ∘ (fun c => 6 <= slice_cap (Signature c))%nat));
          [| intros c Hc; simpl in Hc; lia].
        apply not_Forall_Exists; [intros c; apply _ |].
        intros Hall. apply not_true_iff_false in Hdump. apply Hdump.
        by apply certificateChain_returns.
      * intros [[=]|(Hdebug & s & l & r & [= <-] & Hc & Hverify & Hshort)].
        rewrite Hchain in Hc. injection Hc as <- <-.
        repeat (split; [done |]).
        apply not_true_iff_false. rewrite certificateChain_returns.
        intros Hall. apply Exists_exists in Hshort as (c & Hin & Hc).
        rewrite Forall_forall in Hall. specialize (Hall c Hin). simpl in Hall. lia.
  - unfold tlsCheckHost. fold (probe_url host). rewrite Hhead. simpl.
    split; [by left | done].
  - unfold tlsCheckHost. fold (probe_url host). rewrite Hhead. simpl.
    split; [done |]. intros [[=]|(_ & s & l & r & [=] & _)].
Qed.

(** Two hosts probed one after the other, with the same table: when the
    chains of both end in certificates of the same issuer, the table holds
    under that issuer the outcome of the second probe alone; when the
    issuers differ, it holds both outcomes. *)
Theorem tlsCheckHost_twice (env : Env) (host1 host2 : string)
    (roots : gmap string bool) (state1 state2 : ConnectionState)
    (leaf1 leaf2 : Certificate) (rest1 rest2 : list Certificate)
    (last1 last2 : Certificate) :
  tlsCheckHeadOnly env (probe_url host1) = Ok (Some state1) ->
  PeerCertificates state1 = leaf1 :: rest1 ->
  last (leaf1 :: rest1) = Some last1 ->
  tlsCheckHeadOnly env (probe_url host2) = Ok (Some state2) ->
  PeerCertificates state2 = leaf2 :: rest2 ->
  last (leaf2 :: rest2) = Some last2 ->
  let after := snd (tlsCheckHost env host2 (snd (tlsCheckHost env host1 roots))) in
  after !! Name_String (Issuer last2) =
    Some (bool_decide (verification env state2 leaf2 rest2 = None))
  /\ (Name_String (Issuer last1) = Name_String (Issuer last2) ->
      after = <[Name_String (Issuer last2) :=
                  bool_decide (verification env state2 leaf2 rest2 = None)]> roots)
  /\ (Name_String (Issuer last1) <> Name_String (Issuer last2) ->
      after !! Name_String (Issuer last1) =
        Some (bool_decide (verification env state1 leaf1 rest1 = None))).
Proof.
  intros Hhead1 Hchain1 Hlast1 Hhead2 Hchain2 Hlast2 after. subst after.
  destruct (tlsCheckHost_verification env host1 roots state1 leaf1 rest1 last1
              Hhead1 Hchain1 Hlast1) as (-> & _).
  destruct (tlsCheckHost_verification env host2
              (<[Name_String (Issuer last1) :=
                   bool_decide (verification env state1 leaf1 rest1 = None)]> roots)
              state2 leaf2 rest2 last2 Hhead2 Hchain2 Hlast2) as (-> & _).
  split; [apply lookup_insert_eq |]. split.
  - intros ->. apply insert_insert_eq.
  - intros Hne. rewrite lookup_insert_ne by done. apply lookup_insert_eq.
Qed.

Lemma tlsCheckHost_twice_witness :
  let after :=
    snd (tlsCheckHost SinkExamples.env_two_hosts "other.example"
           (snd (tlsCheckHost SinkExamples.env_two_hosts "good.example" ∅))) in
  after !! "CN=Example Root" = Some false
  /\ after = {[ "CN=Example Root" := false ]}.
Proof.
  pose proof (tlsCheckHost_twice SinkExamples.env_two_hosts
                "good.example" "other.example" ∅
                {| Version := VersionTLS13; ServerName := "good.example";
                   PeerCertificates := [Examples.leaf_cert; Examples.intermediate_cert] |}
                {| Version := VersionTLS12; ServerName := "other.example";
                   PeerCertificates := [SinkExamples.other_leaf] |}
                Examples.leaf_cert SinkExamples.other_leaf
                [Examples.intermediate_cert] []
                Examples.intermediate_cert SinkExamples.other_leaf
                eq_refl eq_refl eq_refl eq_refl eq_refl eq_refl) as (Hlookup & Hsame & _).
  split; [exact Hlookup |]. exact (Hsame eq_refl).
Defined.

(** ** The checks of [RunDiagnostics] *)

Lemma robocorpHomeCheck_ok (env : Env) :
  Status (robocorpHomeCheck env) = statusOk <->
  conda_ValidLocation env (conda_RobocorpHome env) = true.
Proof.
  unfold robocorpHomeCheck.
  destruct (conda_ValidLocation env (conda_RobocorpHome env)); simpl; split; done.
Qed.

Lemma longPathSupportCheck_ok (env : Env) :
  Status (longPathSupportCheck env) = statusOk <-> conda_HasLongPathSupport env = true.
Proof.
  unfold longPathSupportCheck.
  destruct (conda_HasLongPathSupport env); simpl; split; done.
Qed.

Lemma dnsLookupCheck_ok (env : Env) (site : string) :
  Status (dnsLookupCheck env site) = statusOk <->
  exists found, net_LookupHost env site = Ok found.
Proof.
  unfold dnsLookupCheck.
  destruct (net_LookupHost env site) as [found|err]; simpl; split; eauto; try done.
  by intros [found [=]].
Qed.

Lemma canaryDownloadCheck_ok (env : Env) :
  Status (canaryDownloadCheck env) = statusOk <-> canary_found env.
Proof.
  unfold canaryDownloadCheck, canary_found.
  destruct (cloud_NewClient env canaryHost) as [client|err]; simpl.
  - destruct (Z.eqb_spec (Response_Status (Client_Get client canaryUrl)) 200) as [Hs|Hs];
      destruct (String.eqb_spec (Response_Body (Client_Get client canaryUrl))
                  "Used to testing connections") as [Hb|Hb]; simpl; split;
      try done; try (intros (c & [= <-] & ? & ?); done).
    intros _. by exists client.
  - split; [done |]. by intros (c & [=] & _).
Qed.

(** The report shows every check with status ok exactly when the
    environment is in order: a valid home directory, long path support, a
    successful lookup for each of the configured hosts, and a canary
    download that answers 200 with the expected text. *)
Theorem RunDiagnostics_all_ok_iff (env : Env) :
  Forall (fun c => Status c = statusOk) (Checks (RunDiagnostics env)) <-> healthy env.
Proof.
  rewrite RunDiagnostics_Checks. unfold healthy.
  rewrite !Forall_app, !Forall_cons, robocorpHomeCheck_ok, longPathSupportCheck_ok,
    canaryDownloadCheck_ok.
  assert (Hdns : Forall (fun c => Status c = statusOk)
                   (List.map (dnsLookupCheck env) checkedHosts) <->
                 forall host, In host checkedHosts ->
                   exists found, net_LookupHost env host = Ok found).
  { rewrite Forall_forall. split.
    - intros H host Hin. apply dnsLookupCheck_ok, H, list_elem_of_In, in_map, Hin.
    - intros H c Hc. apply list_elem_of_In, in_map_iff in Hc as (host & <- & Hin).
      by apply dnsLookupCheck_ok, H. }
  rewrite Hdns. split.
  - intros ((? & ? & _) & ? & ? & _). done.
  - intros (? & ? & ? & ?). repeat split; try done; by constructor.
Qed.

(** [RunDiagnostics] never reports a warning: its first check is ok or
    fatal, every other check is ok or fail. *)
Theorem RunDiagnostics_statuses (env : Env) :
  exists first others,
    Checks (RunDiagnostics env) = first :: others
    /\ (Status first = statusOk \/ Status first = statusFatal)
    /\ Forall (fun c => Status c = statusOk \/ Status c = statusFail) others
    /\ Forall (fun c => Status c <> statusWarning) (Checks (RunDiagnostics env)).
Proof.
  assert (Hhome : Status (robocorpHomeCheck env) = statusOk
                  \/ Status (robocorpHomeCheck env) = statusFatal).
  { unfold robocorpHomeCheck. destruct (negb _); simpl; auto. }
  assert (Hlong : Status (longPathSupportCheck env) = statusOk
                  \/ Status (longPathSupportCheck env) = statusFail).
  { unfold longPathSupportCheck. destruct (conda_HasLongPathSupport env); simpl; auto. }
  assert (Hdns : forall site, Status (dnsLookupCheck env site) = statusOk
                              \/ Status (dnsLookupCheck env site) = statusFail).
  { intros site. unfold dnsLookupCheck.
    destruct (net_LookupHost env site); simpl; auto. }
  assert (Hcanary : Status (canaryDownloadCheck env) = statusOk
                    \/ Status (canaryDownloadCheck env) = statusFail).
  { unfold canaryDownloadCheck. destruct (cloud_NewClient env canaryHost); simpl; auto.
    destruct (_ || _); simpl; auto. }
  assert (Hothers : Forall (fun c => Status c = statusOk \/ Status c = statusFail)
            (longPathSupportCheck env ::
             List.map (dnsLookupCheck env) checkedHosts ++ [canaryDownloadCheck env])%list).
  { apply Forall_cons. split; [done |]. apply Forall_app. split.
    - apply Forall_forall. intros c Hc.
      apply list_elem_of_In, in_map_iff in Hc as (site & <- & _). apply Hdns.
    - apply Forall_cons. split; [done | by apply Forall_nil]. }
  eexists _, _. rewrite RunDiagnostics_Checks.
  split; [reflexivity |]. split; [done |]. split; [done |].
  apply Forall_cons. split.
  - destruct Hhome as [-> | ->]; discriminate.
  - eapply Forall_impl; [exact Hothers |]. simpl. intros c [-> | ->]; discriminate.
Qed.

(** The details of a report hold fourteen facts, each under its own key:
    no fact overwrites another, and each is read back as it was given. *)
Theorem RunDiagnostics_details (env : Env) :
  size (Details (RunDiagnostics env)) = 14%nat
  /\ Details (RunDiagnostics env) !! "executable" = Some (fst (os_Executable env))
  /\ Details (RunDiagnostics env) !! "rcc" = Some (common_Version env)
  /\ Details (RunDiagnostics env) !! "stats" = Some (rccStatusLine env)
  /\ Details (RunDiagnostics env) !! "micromamba" = Some (conda_MicromambaVersion env)
  /\ Details (RunDiagnostics env) !! "ROBOCORP_HOME" = Some (conda_RobocorpHome env)
  /\ Details (RunDiagnostics env) !! "user-cache-dir" = Some (fst (os_UserCacheDir env))
  /\ Details (RunDiagnostics env) !! "user-config-dir" = Some (fst (os_UserConfigDir env))
  /\ Details (RunDiagnostics env) !! "user-home-dir" = Some (fst (os_UserHomeDir env))
  /\ Details (RunDiagnostics env) !! "working-dir" = Some (fst (os_Getwd env))
  /\ Details (RunDiagnostics env) !! "tempdir" = Some (os_TempDir env)
  /\ Details (RunDiagnostics env) !! "controller" = Some (common_ControllerIdentity env)
  /\ Details (RunDiagnostics env) !! "installationId" = Some (xviper_TrackingIdentity env)
  /\ Details (RunDiagnostics env) !! "os" =
       Some (runtime_GOOS env ++ " " ++ runtime_GOARCH env)
  /\ Details (RunDiagnostics env) !! "cpus" = Some (fmt.d (runtime_NumCPU env)).
Proof.
  unfold RunDiagnostics, collectDetails, justText. cbn [Details].
  split.
  - repeat (rewrite map_size_insert_None;
            [| by rewrite ?lookup_insert_ne, ?lookup_empty by done]).
    by rewrite map_size_empty.
  - repeat split;
      by rewrite ?lookup_insert_ne, ?lookup_insert_eq by done.
Qed.

(** ** The JSON text of a report *)

(** White space after the JSON text of a report does not matter to
    [json.Unmarshal]. *)
Lemma Unmarshal_MarshalIndent_then_space (it : DiagnosticStatus) (rest : string) :
  valid_report it -> json.skip_space rest = "" ->
  json.Unmarshal (json.MarshalIndent it ++ rest) = Some it.
Proof.
  intros [Hdetails Hchecks] Hrest.
  unfold json.Unmarshal. cbv zeta.
  pose proof (MarshalIndent_length it) as Hlen.
  rewrite string_length_app.
  assert (Hfuel : (size (Details it) + length (Checks it) + 6 <=
                   String.length (json.MarshalIndent it) + String.length rest)%nat) by lia.
  revert Hfuel. clear Hlen.
  generalize (String.length (json.MarshalIndent it) + String.length rest)%nat.
  intros fuel Hlen.
  destruct fuel as [|[|fuel]]; [lia | lia |].
  unfold json.MarshalIndent, json.object_text. cbn [List.map fst snd].
  rewrite !items_cons, ?append_assoc, ?app_empty.
  change (json.expect 123 ("{" ++ ?t)) with (Some t). cbv iota.
  replace (json.expect 125 _) with (@None string) by reflexivity.
  cbn [json.report_members].
  rewrite string_literal_skip by reflexivity.
  rewrite expect_colon.
  change (String.eqb "details" "details") with true. cbv iota.
  rewrite string_object_map_text by (done || lia).
  change (json.skip_space ("," ++ ?t)) with (String "," t). cbv iota.
  change (N_of_ascii "," =? 44)%N with true. cbv iota.
  rewrite string_literal_skip by reflexivity.
  rewrite expect_colon.
  change (String.eqb "checks" "details") with false.
  change (String.eqb "checks" "checks") with true. cbv iota.
  rewrite check_array_text by (done || lia).
  change (json.skip_space (json.newline ++ "}" ++ rest)) with (String "}" rest).
  cbv iota.
  change (N_of_ascii "}" =? 44)%N with false.
  change (N_of_ascii "}" =? 125)%N with true. cbv iota.
  rewrite Hrest. cbn [Details Checks].
  rewrite map_of_members_details. by destruct it.
Qed.

(** Two different reports of valid UTF-8 strings have different JSON
    texts. *)
Theorem AsJson_injective (it1 it2 : DiagnosticStatus) :
  valid_report it1 -> valid_report it2 -> it1 <> it2 ->
  fst (AsJson it1) <> fst (AsJson it2).
Proof.
  intros Hvalid1 Hvalid2 Hdiff Htext. simpl in Htext.
  pose proof (Unmarshal_MarshalIndent it1 Hvalid1) as H1.
  pose proof (Unmarshal_MarshalIndent it2 Hvalid2) as H2.
  rewrite Htext in H1. congruence.
Qed.

Lemma small_report_valid : valid_report JsonExamples.small_report.
Proof.
  unfold valid_report, valid_details, valid_check.
  apply (bool_decide_unpack _). vm_compute. exact I.
Qed.

Lemma empty_report_valid : valid_report {| Details := ∅; Checks := [] |}.
Proof.
  unfold valid_report, valid_details, valid_check.
  apply (bool_decide_unpack _). vm_compute. exact I.
Qed.

Lemma AsJson_injective_witness :
  fst (AsJson JsonExamples.small_report)
  <> fst (AsJson {| Details := ∅; Checks := [] |}).
Proof.
  apply (AsJson_injective JsonExamples.small_report
           {| Details := ∅; Checks := [] |}
           small_report_valid empty_report_valid).
  intros Heq. apply (f_equal Checks) in Heq. discriminate Heq.
Defined.

(** [jsonDiagnostics] does not end the process on a report of valid UTF-8
    strings: it leaves what the sink holds and writes after it a text that
    reads back as the report. *)
Theorem jsonDiagnostics_writes (sink : string) (details : DiagnosticStatus) :
  valid_report details ->
  exists text,
    jsonDiagnostics sink details = Continues (sink ++ text)
    /\ json.Unmarshal text = Some details.
Proof.
  intros Hvalid. exists (fst (AsJson details) ++ json.newline).
  split; [reflexivity |].
  by apply Unmarshal_MarshalIndent_then_space.
Qed.

Lemma jsonDiagnostics_writes_witness :
  exists text,
    jsonDiagnostics "Diagnostics" JsonExamples.small_report
      = Continues ("Diagnostics" ++ text)
    /\ json.Unmarshal text = Some JsonExamples.small_report.
Proof.
  apply (jsonDiagnostics_writes "Diagnostics" JsonExamples.small_report
           small_report_valid).
Defined.

(** ** [fileIt] and [PrintDiagnostics] *)

Lemma length_zero_empty (s : string) : (String.length s =? 0)%nat = true <-> s = "".
Proof. destruct s; simpl; split; done. Qed.

(** The text that [PrintDiagnostics] renders after [sink]. *)
Lemma rendering_continues (env : Env) (ranged : list string) (json : bool)
    (file : WriteCloser) (world : Sinks) :
  (if json then
     write_through file (fun sink => jsonDiagnostics sink (RunDiagnostics env)) world
   else
     write_through file
       (fun sink => Continues (humaneDiagnostics env ranged sink (RunDiagnostics env)))
       world)
  = Continues
      (set_sink_text file
         (if json then Fprintln (sink_text file world) (fst (AsJson (RunDiagnostics env)))
          else humaneDiagnostics env ranged (sink_text file world) (RunDiagnostics env))
         world).
Proof. by destruct json. Qed.

(** When the file cannot be opened, [PrintDiagnostics] returns the error
    of [os.OpenFile] and nothing is written: the stream and the files are
    as before. *)
Theorem PrintDiagnostics_open_failure (env : Env) (os : OS) (ranged : list string)
    (filename : string) (json : bool) (world : Sinks) (err : error) :
  filename <> "" ->
  os_OpenFile_error os filename = Some err ->
  PrintDiagnostics env os ranged filename json world = (Continues (Some err), world).
Proof.
  intros Hname Hopen. unfold PrintDiagnostics, fileIt.
  destruct (String.length filename =? 0)%nat eqn:Hlen;
    [by apply length_zero_empty in Hlen |].
  unfold OpenFile_write_create_truncate. by rewrite Hopen.
Qed.

Lemma PrintDiagnostics_open_failure_witness :
  PrintDiagnostics Examples.env_good SinkExamples.os_read_only [] "report.txt" true
    SinkExamples.world_before
  = (Continues (Some "open report.txt: permission denied"), SinkExamples.world_before).
Proof.
  apply (PrintDiagnostics_open_failure Examples.env_good SinkExamples.os_read_only []
           "report.txt" true SinkExamples.world_before); [discriminate | reflexivity].
Defined.

(** With an empty file name [PrintDiagnostics] writes to the standard
    output, after what is there, leaves every file alone and returns no
    error; and it closes the standard output, so that a second call with an
    empty file name writes nothing. *)
Theorem PrintDiagnostics_stdout (env : Env) (os : OS) (ranged : list string)
    (json : bool) (world : Sinks) :
  StdoutClosed world = false ->
  exists after : Sinks,
    PrintDiagnostics env os ranged "" json world = (Continues None, after)
    /\ Stdout after =
         (if json then Stdout world ++ fst (AsJson (RunDiagnostics env)) ++ json.newline
          else humaneDiagnostics env ranged (Stdout world) (RunDiagnostics env))
    /\ Files after = Files world
    /\ StdoutClosed after = true
    /\ forall (env' : Env) (os' : OS) (ranged' : list string) (json' : bool),
         PrintDiagnostics env' os' ranged' "" json' after = (Continues None, after).
Proof.
  intros Hopen. unfold PrintDiagnostics at 1, fileIt. cbn [String.length Nat.eqb].
  rewrite rendering_continues. cbn [set_sink_text sink_text Close]. rewrite Hopen.
  eexists. split; [reflexivity |]. cbn [Stdout Files StdoutClosed].
  split; [by destruct json |]. split; [done |]. split; [done |].
  intros env' os' ranged' json'. unfold PrintDiagnostics, fileIt.
  cbn [String.length Nat.eqb]. rewrite rendering_continues.
  reflexivity.
Qed.

Lemma PrintDiagnostics_stdout_witness :
  exists after : Sinks,
    PrintDiagnostics Examples.env_good SinkExamples.os_writable [] "" true
      SinkExamples.world_before = (Continues None, after)
    /\ Stdout after =
         Stdout SinkExamples.world_before ++
         fst (AsJson (RunDiagnostics Examples.env_good)) ++ json.newline
    /\ Files after = Files SinkExamples.world_before
    /\ StdoutClosed after = true
    /\ forall (env' : Env) (os' : OS) (ranged' : list string) (json' : bool),
         PrintDiagnostics env' os' ranged' "" json' after = (Continues None, after).
Proof.
  apply (PrintDiagnostics_stdout Examples.env_good SinkExamples.os_writable [] true
           SinkExamples.world_before).
  reflexivity.
Defined.

(** The sinks after a call with a file name and a file that can be
    opened. *)
Lemma PrintDiagnostics_file_state (env : Env) (os : OS) (ranged : list string)
    (filename : string) (json : bool) (world : Sinks) :
  filename <> "" ->
  os_OpenFile_error os filename = None ->
  PrintDiagnostics env os ranged filename json world =
    (Continues None,
     {| Stdout := Stdout world;
        StdoutClosed := StdoutClosed world;
        Files :=
          <[filename :=
              {| Perm := match Files world !! filename with
                         | Some existing => Perm existing
                         | None => Z.land 384 (Z.lnot (os_umask os))
                         end;
                 Content :=
                   if json then fst (AsJson (RunDiagnostics env)) ++ json.newline
                   else humaneDiagnostics env ranged "" (RunDiagnostics env) |}]>
            (Files world) |}).
Proof.
  intros Hname Hopen. unfold PrintDiagnostics, fileIt.
  destruct (String.length filename =? 0)%nat eqn:Hlen;
    [by apply length_zero_empty in Hlen |].
  unfold OpenFile_write_create_truncate. rewrite Hopen.
  rewrite rendering_continues.
  cbn [set_sink_text sink_text Close Files Stdout StdoutClosed].
  rewrite lookup_insert_eq. cbn [fmap option_fmap option_map default Content Perm].
  rewrite insert_insert_eq.
  destruct json, (Files world !! filename); reflexivity.
Qed.

(** With a file name, and a file that can be opened, [PrintDiagnostics]
    leaves in the file the rendering alone, whatever the file held before;
    the standard output and the other files are untouched.  A file that
    existed keeps its permission bits; a file that is created gets no
    permission for group or others. *)
Theorem PrintDiagnostics_file (env : Env) (os : OS) (ranged : list string)
    (filename : string) (json : bool) (world : Sinks) :
  filename <> "" ->
  os_OpenFile_error os filename = None ->
  exists (after : Sinks) (written : File),
    PrintDiagnostics env os ranged filename json world = (Continues None, after)
    /\ Files after !! filename = Some written
    /\ Content written =
         (if json then fst (AsJson (RunDiagnostics env)) ++ json.newline
          else humaneDiagnostics env ranged "" (RunDiagnostics env))
    /\ (forall existing, Files world !! filename = Some existing ->
          Perm written = Perm existing)
    /\ (Files world !! filename = None -> Z.land (Perm written) 63 = 0%Z)
    /\ (forall other, other <> filename -> Files after !! other = Files world !! other)
    /\ Stdout after = Stdout world
    /\ StdoutClosed after = StdoutClosed world.
Proof.
  intros Hname Hopen.
  rewrite (PrintDiagnostics_file_state env os ranged filename json world Hname Hopen).
  eexists _, _. split; [reflexivity |]. cbn [Files Stdout StdoutClosed].
  split; [apply lookup_insert_eq |]. cbn [Content Perm].
  split; [reflexivity |].
  split; [intros existing Hex; by rewrite Hex |].
  split.
  { intros Hnew. rewrite Hnew.
    rewrite (Z.land_comm 384), <- Z.land_assoc. apply Z.land_0_r. }
  split; [| done].
  intros other Hother. by rewrite lookup_insert_ne.
Qed.

Lemma PrintDiagnostics_file_witness :
  exists (after : Sinks) (written : File),
    PrintDiagnostics Examples.env_good SinkExamples.os_writable
      ["tempdir"; "os"; "cpus"] "report.txt" false SinkExamples.world_before
      = (Continues None, after)
    /\ Files after !! "report.txt" = Some written
    /\ Content written =
         humaneDiagnostics Examples.env_good ["tempdir"; "os"; "cpus"] ""
           (RunDiagnostics Examples.env_good)
    /\ (forall existing,
          Files SinkExamples.world_before !! "report.txt" = Some existing ->
          Perm written = Perm existing)
    /\ (Files SinkExamples.world_before !! "report.txt" = None ->
        Z.land (Perm written) 63 = 0%Z)
    /\ (forall other, other <> "report.txt" ->
          Files after !! other = Files SinkExamples.world_before !! other)
    /\ Stdout after = Stdout SinkExamples.world_before
    /\ StdoutClosed after = StdoutClosed SinkExamples.world_before.
Proof.
  apply (PrintDiagnostics_file Examples.env_good SinkExamples.os_writable
           ["tempdir"; "os"; "cpus"] "report.txt" false SinkExamples.world_before);
    [discriminate | reflexivity].
Defined.

(** The JSON report written to a file reads back as the report of the
    run, when the strings of that report are valid UTF-8. *)
Theorem PrintDiagnostics_json_file_reads_back (env : Env) (os : OS)
    (ranged : list string) (filename : string) (world : Sinks) :
  filename <> "" ->
  os_OpenFile_error os filename = None ->
  valid_report (RunDiagnostics env) ->
  exists written : File,
    Files (snd (PrintDiagnostics env os ranged filename true world)) !! filename
      = Some written
    /\ json.Unmarshal (Content written) = Some (RunDiagnostics env).
Proof.
  intros Hname Hopen Hvalid.
  rewrite (PrintDiagnostics_file_state env os ranged filename true world Hname Hopen).
  cbn [snd Files]. eexists. split; [apply lookup_insert_eq |]. cbn [Content].
  by apply Unmarshal_MarshalIndent_then_space.
Qed.

Lemma PrintDiagnostics_json_file_reads_back_witness :
  exists written : File,
    Files (snd (PrintDiagnostics Examples.env_good SinkExamples.os_writable []
                  "report.json" true SinkExamples.world_before)) !! "report.json"
      = Some written
    /\ json.Unmarshal (Content written) = Some (RunDiagnostics Examples.env_good).
Proof.
  apply (PrintDiagnostics_json_file_reads_back Examples.env_good SinkExamples.os_writable
           [] "report.json" SinkExamples.world_before); [discriminate | reflexivity |].
  unfold valid_report, valid_details, valid_check.
  apply (bool_decide_unpack _). vm_compute. exact I.
Defined.

(** ** Strings that are not valid UTF-8 *)

Lemma to_valid_from_copy (bytes post : string) :
  to_valid_from (String.length bytes) (bytes ++ post) = bytes ++ to_valid_from 0 post.
Proof.
  induction bytes as [|c bytes IH]; [reflexivity |].
  rewrite !app_String. simpl. by rewrite IH.
Qed.

Lemma valid_from_replacement (s : string) :
  utf8.valid_from 0 (replacement_bytes ++ s) = utf8.valid_from 0 s.
Proof. reflexivity. Qed.

Lemma unquote_replacement (text : string) :
  json.unquote 0 (json.replacement ++ text) =
    json.prepend replacement_bytes (json.unquote 0 text).
Proof. reflexivity. Qed.

(** The literal written for any string reads back as the string made
    valid. *)
Lemma unquote_appendString_loop_any (n : nat) :
  forall s : string,
  (String.length s <= n)%nat ->
  forall rest : string,
  json.unquote 0 (json.appendString_loop 0 0 s ++ String json.quote_char rest) =
    Some (to_valid s, rest).
Proof.
  unfold to_valid.
  induction n as [|n IH]; intros s Hlen rest.
  { destruct s; [reflexivity | simpl in Hlen; lia]. }
  destruct s as [|c s1]; [reflexivity |].
  simpl in Hlen.
  destruct (N.lt_ge_cases (N_of_ascii c) 0x80) as [Hc|Hc].
  - cbn [to_valid_from]. rewrite DecodeRune_ascii by done.
    rewrite (proj2 (N.eqb_neq (N_of_ascii c) utf8.RuneError))
      by (unfold utf8.RuneError; lia).
    cbn [andb Nat.sub].
    cbn [json.appendString_loop].
    rewrite (proj2 (N.ltb_lt _ 0x80)) by done.
    destruct (json.htmlSafe (N_of_ascii c)) eqn:Hsafe.
    + rewrite app_String, unquote_safe by done.
      rewrite IH by lia. reflexivity.
    + rewrite append_assoc, unquote_escape by done.
      rewrite IH by lia. reflexivity.
  - destruct (utf8.DecodeRuneInString (String c s1)) as [r size] eqn:Hdec.
    cbn [to_valid_from]. rewrite Hdec.
    rewrite (appendString_loop_multibyte c s1 r size Hc Hdec).
    destruct ((r =? utf8.RuneError)%N && (size =? 1)%nat) eqn:Herr.
    { rewrite append_assoc, unquote_replacement, IH by lia. reflexivity. }
    destruct (DecodeRune_width c s1 Hc) as [Hw|Hw];
      rewrite Hdec in Hw.
    { injection Hw as -> ->. discriminate Herr. }
    cbn [snd] in Hw.
    destruct (DecodeRune_multibyte _ r size Hdec Hw)
      as (bytes & post & Hs & Hbytes & Henc & Hany).
    destruct bytes as [|c' bytes']; [simpl in Hbytes; lia |].
    rewrite app_String in Hs. injection Hs as <- ->.
    simpl in Hbytes.
    assert (Hsize : (size - 1)%nat = String.length bytes') by lia.
    rewrite Hsize in *. clear Hsize.
    rewrite to_valid_from_copy.
    assert (Hpost : (String.length post <= n)%nat).
    { rewrite string_length_app in Hlen. lia. }
    destruct ((r =? 0x2028) || (r =? 0x2029))%N eqn:Hsep.
    + rewrite appendString_loop_drop.
      assert (Hread : forall text,
                json.unquote 0 (String json.backslash "u202" ++
                                String (json.hex (N.land r 0xF)) EmptyString ++ text) =
                json.prepend (utf8.EncodeRune r) (json.unquote 0 text)).
      { apply orb_true_iff in Hsep as [Hr|Hr]; apply N.eqb_eq in Hr; subst r;
          intros text; reflexivity. }
      rewrite !append_assoc, Hread, IH by done.
      rewrite prepend_Some, Henc. reflexivity.
    + rewrite appendString_loop_copy.
      rewrite app_String, append_assoc.
      rewrite (unquote_multibyte c _ r size Hc)
        by (rewrite <- app_String; apply Hany).
      replace (size - 1)%nat with (String.length bytes') by lia.
      rewrite unquote_skip, IH by done.
      rewrite prepend_Some, Henc. reflexivity.
Qed.

Lemma string_literal_appendString_any (s rest : string) :
  json.string_literal (json.appendString s ++ rest) = Some (to_valid s, rest).
Proof.
  unfold json.appendString, json.string_literal.
  rewrite app_String. cbn [json.quote_char].
  change (N_of_ascii "034" =? 34)%N with true. cbv iota.
  rewrite append_assoc, app_String, app_empty.
  by apply (unquote_appendString_loop_any (String.length s)).
Qed.

Lemma to_valid_is_valid_length (n : nat) :
  forall s : string,
  (String.length s <= n)%nat -> utf8.ValidString (to_valid s) = true.
Proof.
  unfold to_valid, utf8.ValidString.
  induction n as [|n IH]; intros s Hlen.
  { destruct s; [reflexivity | simpl in Hlen; lia]. }
  destruct s as [|c s1]; [reflexivity |].
  simpl in Hlen.
  destruct (utf8.DecodeRuneInString (String c s1)) as [r size] eqn:Hdec.
  cbn [to_valid_from]. rewrite Hdec.
  destruct ((r =? utf8.RuneError)%N && (size =? 1)%nat) eqn:Herr.
  { rewrite valid_from_replacement. apply IH. lia. }
  destruct (N.lt_ge_cases (N_of_ascii c) 0x80) as [Hc|Hc].
  - rewrite DecodeRune_ascii in Hdec by done. injection Hdec as <- <-.
    cbn [utf8.valid_from]. rewrite DecodeRune_ascii by done.
    rewrite Herr. cbn [Nat.sub]. apply IH. lia.
  - destruct (DecodeRune_width c s1 Hc) as [Hw|Hw]; rewrite Hdec in Hw.
    { injection Hw as -> ->. discriminate Herr. }
    cbn [snd] in Hw.
    destruct (DecodeRune_multibyte _ r size Hdec Hw)
      as (bytes & post & Hs & Hbytes & Henc & Hany).
    destruct bytes as [|c' bytes']; [simpl in Hbytes; lia |].
    rewrite app_String in Hs. injection Hs as <- ->.
    simpl in Hbytes.
    replace (size - 1)%nat with (String.length bytes') by lia.
    rewrite to_valid_from_copy.
    cbn [utf8.valid_from].
    rewrite <- app_String, Hany, Herr.
    replace (size - 1)%nat with (String.length bytes') by lia.
    rewrite valid_from_skip.
    apply IH. rewrite string_length_app in Hlen. lia.
Qed.

Lemma to_valid_is_valid (s : string) : utf8.ValidString (to_valid s) = true.
Proof. by apply (to_valid_is_valid_length (String.length s)). Qed.

(** What [json.MarshalIndent] writes for a string is read back, for every
    string, as the string made valid: a string literal never fails to read
    back, what is read is valid UTF-8, and a valid string comes back as it
    was. *)
Theorem string_literal_reads_back (s rest : string) :
  json.string_literal (json.appendString s ++ rest) = Some (to_valid s, rest)
  /\ utf8.ValidString (to_valid s) = true
  /\ (utf8.ValidString s = true <-> to_valid s = s).
Proof.
  split; [apply string_literal_appendString_any |].
  pose proof (to_valid_is_valid s) as Hvalid.
  split; [exact Hvalid |]. split.
  - intros Hs.
    pose proof (string_literal_appendString s "" Hs) as H1.
    rewrite string_literal_appendString_any in H1. by injection H1.
  - intros <-. exact Hvalid.
Qed.

(** ** The JSON text of any report, read back *)

Lemma string_literal_skip_any (depth : nat) (s rest : string) :
  json.string_literal
    (json.skip_space (json.newline ++ json.indentation depth ++ json.appendString s ++ rest))
  = Some (to_valid s, rest).
Proof.
  rewrite skip_space_newline, skip_space_indentation, skip_space_literal.
  apply string_literal_appendString_any.
Qed.

Lemma string_members_items_any (depth depth' : nat) (members : list (string * string)) :
  forall (fuel : nat) (rest : string),
  members <> [] ->
  (length members <= fuel)%nat ->
  json.string_members fuel
    (json.items depth (List.map member_text members) ++
     json.newline ++ json.indentation depth' ++ String "}" rest)
  = Some (List.map to_valid_member members, rest).
Proof.
  induction members as [|[key value] members IH]; intros fuel rest Hne Hfuel; [done |].
  destruct fuel as [|fuel]; [simpl in Hfuel; lia |].
  cbn [List.map]. rewrite items_cons. unfold member_text at 1. cbn [fst snd].
  cbn [json.string_members].
  rewrite ?append_assoc.
  rewrite string_literal_skip_any.
  rewrite expect_colon, skip_space_blank, skip_space_literal.
  rewrite string_literal_appendString_any.
  destruct members as [|member members].
  - rewrite app_empty.
    rewrite skip_space_closing by reflexivity. reflexivity.
  - cbn [List.map]. rewrite !app_String, !app_empty.
    cbn [json.skip_space].
    change (json.isSpace ",") with false. cbv iota.
    change (N_of_ascii "," =? 44)%N with true. cbv iota.
    change (member_text member :: List.map member_text members)
      with (List.map member_text (member :: members)).
    rewrite IH; [reflexivity | done | simpl in *; lia].
Qed.

Lemma string_object_text_any (depth : nat) (members : list (string * string))
    (fuel : nat) (rest : string) :
  (length members <= fuel)%nat ->
  json.string_object fuel
    (json.object_text depth
       (List.map (fun kv => (fst kv, json.appendString (snd kv))) members) ++ rest)
  = Some (List.map to_valid_member members, rest).
Proof.
  intros Hfuel.
  destruct members as [|member members]; [reflexivity |].
  unfold json.object_text. cbn [List.map].
  rewrite List.map_map.
  rewrite ?append_assoc.
  unfold json.string_object.
  change (json.expect 123 ("{" ++ ?t)) with (Some t). cbv iota.
  set (texts := _ :: List.map _ members).
  assert (Htexts : texts = List.map member_text (member :: members)) by reflexivity.
  rewrite Htexts. clear texts Htexts.
  replace (json.expect 125 _) with (@None string).
  - apply string_members_items_any; done.
  - cbn [List.map]. rewrite items_cons. unfold member_text at 1.
    rewrite ?append_assoc. unfold json.expect.
    rewrite skip_space_newline, skip_space_indentation, skip_space_literal.
    reflexivity.
Qed.

Lemma check_of_members_to_valid (check : DiagnosticCheck) :
  json.check_of_members (List.map to_valid_member (check_members check)) =
    Some (to_valid_check check).
Proof. reflexivity. Qed.

Lemma check_object_text_any (depth depth' : nat) (check : DiagnosticCheck)
    (fuel : nat) (rest : string) :
  (4 <= fuel)%nat ->
  json.check_object fuel
    (json.newline ++ json.indentation depth' ++ json.check_text depth check ++ rest)
  = Some (to_valid_check check, rest).
Proof.
  intros Hfuel. unfold json.check_object.
  rewrite (string_object_after_space fuel _ (json.check_text depth check ++ rest)).
  - rewrite check_text_members.
    rewrite (string_object_text_any depth (check_members check) fuel rest Hfuel).
    by rewrite check_of_members_to_valid.
  - rewrite skip_space_newline, skip_space_indentation. reflexivity.
Qed.

Lemma check_elements_items_any (depth depth' : nat) (checks : list DiagnosticCheck) :
  forall (fuel : nat) (rest : string),
  checks <> [] ->
  (length checks + 4 <= fuel)%nat ->
  json.check_elements fuel
    (json.items depth (List.map (json.check_text depth) checks) ++
     json.newline ++ json.indentation depth' ++ String "]" rest)
  = Some (List.map to_valid_check checks, rest).
Proof.
  induction checks as [|check checks IH]; intros fuel rest Hne Hfuel; [done |].
  destruct fuel as [|fuel]; [simpl in Hfuel; lia |].
  cbn [List.map]. rewrite items_cons.
  cbn [json.check_elements]. rewrite ?append_assoc.
  rewrite check_object_text_any by (simpl in Hfuel; lia).
  destruct checks as [|check' checks].
  - rewrite app_empty.
    rewrite skip_space_closing by reflexivity. reflexivity.
  - cbn [List.map]. rewrite !app_String, !app_empty.
    cbn [json.skip_space].
    change (json.isSpace ",") with false. cbv iota.
    change (N_of_ascii "," =? 44)%N with true. cbv iota.
    change (json.check_text depth check' :: List.map (json.check_text depth) checks)
      with (List.map (json.check_text depth) (check' :: checks)).
    rewrite IH; [reflexivity | done | simpl in *; lia].
Qed.

Lemma check_array_text_any (depth : nat) (checks : list DiagnosticCheck)
    (fuel : nat) (rest : string) :
  (length checks + 4 <= fuel)%nat ->
  json.check_array fuel
    (" " ++ json.array_text depth (List.map (json.check_text (S depth)) checks) ++ rest)
  = Some (List.map to_valid_check checks, rest).
Proof.
  intros Hfuel.
  destruct checks as [|check checks]; [reflexivity |].
  unfold json.array_text. cbn [List.map].
  rewrite ?append_assoc.
  unfold json.check_array.
  change (json.expect 91 (" " ++ "[" ++ ?t)) with (Some t). cbv iota.
  change (json.check_text (S depth) check :: List.map (json.check_text (S depth)) checks)
    with (List.map (json.check_text (S depth)) (check :: checks)).
  replace (json.expect 93 _) with (@None string).
  - change ("]" ++ rest) with (String "]" rest).
    apply check_elements_items_any; done.
  - cbn [List.map]. rewrite items_cons, ?append_assoc. unfold json.expect.
    rewrite skip_space_newline, skip_space_indentation.
    reflexivity.
Qed.

Lemma string_object_map_text_any (m : gmap string string) (fuel : nat) (rest : string) :
  (size m <= fuel)%nat ->
  json.string_object fuel (" " ++ json.map_text 1 m ++ rest) =
    Some (List.map to_valid_member (detail_members m), rest).
Proof.
  intros Hfuel.
  rewrite (string_object_after_space fuel _ (json.map_text 1 m ++ rest)).
  - rewrite map_text_members.
    apply string_object_text_any. by rewrite detail_members_length.
  - rewrite skip_space_blank.
    rewrite map_text_members.
    by destruct (detail_members m).
Qed.

Lemma Unmarshal_MarshalIndent_any (it : DiagnosticStatus) (rest : string) :
  json.skip_space rest = "" ->
  json.Unmarshal (json.MarshalIndent it ++ rest) =
    Some {| Details :=
              json.map_of_members (List.map to_valid_member (detail_members (Details it)));
            Checks := List.map to_valid_check (Checks it) |}.
Proof.
  intros Hrest.
  unfold json.Unmarshal. cbv zeta.
  pose proof (MarshalIndent_length it) as Hlen.
  rewrite string_length_app.
  assert (Hfuel : (size (Details it) + length (Checks it) + 6 <=
                   String.length (json.MarshalIndent it) + String.length rest)%nat) by lia.
  revert Hfuel. clear Hlen.
  generalize (String.length (json.MarshalIndent it) + String.length rest)%nat.
  intros fuel Hlen.
  destruct fuel as [|[|fuel]]; [lia | lia |].
  unfold json.MarshalIndent, json.object_text. cbn [List.map fst snd].
  rewrite !items_cons, ?append_assoc, ?app_empty.
  change (json.expect 123 ("{" ++ ?t)) with (Some t). cbv iota.
  replace (json.expect 125 _) with (@None string) by reflexivity.
  cbn [json.report_members].
  rewrite string_literal_skip by reflexivity.
  rewrite expect_colon.
  change (String.eqb "details" "details") with true. cbv iota.
  rewrite string_object_map_text_any by lia.
  change (json.skip_space ("," ++ ?t)) with (String "," t). cbv iota.
  change (N_of_ascii "," =? 44)%N with true. cbv iota.
  rewrite string_literal_skip by reflexivity.
  rewrite expect_colon.
  change (String.eqb "checks" "details") with false.
  change (String.eqb "checks" "checks") with true. cbv iota.
  rewrite check_array_text_any by lia.
  change (json.skip_space (json.newline ++ "}" ++ rest)) with (String "}" rest).
  cbv iota.
  change (N_of_ascii "}" =? 44)%N with false.
  change (N_of_ascii "}" =? 125)%N with true. cbv iota.
  rewrite Hrest. reflexivity.
Qed.

Lemma map_of_members_valid (members : list (string * string)) :
  Forall valid_member members ->
  forall acc : gmap string string,
  valid_details acc ->
  valid_details (fold_left (fun m kv => <[fst kv := snd kv]> m) members acc).
Proof.
  induction 1 as [|kv members Hkv _ IH]; intros acc Hacc; [done |].
  cbn [fold_left]. apply IH. by apply map_Forall_insert_2.
Qed.

Lemma map_of_members_size (members : list (string * string)) :
  forall acc : gmap string string,
  (size (fold_left (fun m kv => <[fst kv := snd kv]> m) members acc)
   <= size acc + length members)%nat.
Proof.
  induction members as [|kv members IH]; intros acc; [simpl; lia |].
  cbn [fold_left length]. etransitivity; [apply IH |].
  destruct (acc !! kv.1) eqn:Hkey.
  - rewrite map_size_insert_Some by eauto. lia.
  - rewrite map_size_insert_None by done. lia.
Qed.

(** The JSON text of every report reads back, whatever bytes its strings
    hold: the checks come back in order with their four fields made valid
    UTF-8, and the details come back as valid UTF-8 strings, no more of
    them than there were. *)
Theorem AsJson_always_reads_back (it : DiagnosticStatus) :
  exists parsed : DiagnosticStatus,
    json.Unmarshal (fst (AsJson it)) = Some parsed
    /\ Checks parsed = List.map to_valid_check (Checks it)
    /\ valid_report parsed
    /\ (size (Details parsed) <= size (Details it))%nat.
Proof.
  pose proof (Unmarshal_MarshalIndent_any it "" eq_refl) as Hread.
  rewrite append_empty_r in Hread.
  eexists. split; [exact Hread |]. cbn [Checks Details].
  split; [reflexivity |]. split.
  - split; cbn [Checks Details].
    + apply map_of_members_valid; [| apply map_Forall_empty].
      apply Forall_forall. intros kv Hin.
      apply list_elem_of_In, in_map_iff in Hin as ([k v] & <- & _).
      split; apply to_valid_is_valid.
    + apply Forall_forall. intros c Hin.
      apply list_elem_of_In, in_map_iff in Hin as (check & <- & _).
      repeat split; apply to_valid_is_valid.
  - unfold json.map_of_members.
    etransitivity; [apply map_of_members_size |].
    rewrite map_size_empty, length_map, detail_members_length. lia.
Qed.

(** ** More on the probe *)

(** What a made table holds does not matter to the checks of the probe. *)
Lemma tlsCheckHost_made_ignores_table (env : Env) (host : string)
    (roots roots' : gmap string bool) :
  fst (tlsCheckHost env host roots) = fst (tlsCheckHost env host roots').
Proof.
  unfold tlsCheckHost.
  destruct (tlsCheckHeadOnly env _) as [[state|]|?]; [| done | done].
  destruct (PeerCertificates state) as [|leaf rest]; [done |].
  destruct (collect_intermediates _ _ _) as [intermediates last_seen].
  destruct (x509_Verify env _ _) as [?|]; [| done].
  destruct (common_DebugFlag env); [| done].
  by destruct (certificateChain env _).
Qed.

Lemma AddCert_elem_of (pool : CertPool) (cert c : Certificate) :
  c ∈ AddCert pool cert -> c ∈ pool \/ c = cert.
Proof.
  unfold AddCert. destruct (existsb _ pool); [by left |].
  intros [H|H%list_elem_of_singleton]%elem_of_app; [by left | by right].
Qed.

Lemma AddCert_raw (pool : CertPool) (cert c : Certificate) :
  c ∈ pool \/ c = cert -> Raw c ∈ Raw <$> AddCert pool cert.
Proof.
  intros Hc. unfold AddCert. destruct (existsb _ pool) eqn:Hex.
  - destruct Hc as [Hc| ->]; [by apply list_elem_of_fmap_2 |].
    apply existsb_exists in Hex as (c' & Hin & Heq).
    apply bool_decide_eq_true in Heq. rewrite <- Heq.
    apply list_elem_of_fmap_2. by apply list_elem_of_In.
  - apply list_elem_of_fmap_2, elem_of_app.
    destruct Hc as [Hc| ->]; [by left | right; by apply list_elem_of_singleton].
Qed.

Lemma AddCert_NoDup (pool : CertPool) (cert : Certificate) :
  NoDup (Raw <$> pool) -> NoDup (Raw <$> AddCert pool cert).
Proof.
  intros Hpool. unfold AddCert. destruct (existsb _ pool) eqn:Hex; [done |].
  rewrite fmap_app. apply NoDup_app. split; [done |]. split.
  - intros raw Hin Hcert. simpl in Hcert.
    apply list_elem_of_singleton in Hcert as ->.
    apply list_elem_of_fmap in Hin as (c' & Hraw & Hin).
    assert (existsb (fun c => bool_decide (Raw c = Raw cert)) pool = true)
      as Hfound; [| congruence].
    apply existsb_exists. exists c'. split; [by apply list_elem_of_In |].
    by apply bool_decide_eq_true.
  - apply NoDup_singleton.
Qed.

Lemma collect_intermediates_pool (rest : list Certificate) :
  forall (pool : CertPool) (leaf : Certificate),
  (forall c, c ∈ fst (collect_intermediates rest pool leaf) -> c ∈ pool \/ c ∈ rest)
  /\ (NoDup (Raw <$> pool) ->
      NoDup (Raw <$> fst (collect_intermediates rest pool leaf)))
  /\ (forall c, c ∈ pool \/ c ∈ rest ->
      Raw c ∈ Raw <$> fst (collect_intermediates rest pool leaf)).
Proof.
  unfold collect_intermediates.
  induction rest as [|cert rest IH]; intros pool leaf; cbn [fold_left fst snd].
  - split; [by left |]. split; [done |].
    intros c [Hc|Hc]; [by apply list_elem_of_fmap_2 | by apply elem_of_nil in Hc].
  - destruct (IH (AddCert pool cert) cert) as (Hsub & Hnodup & Hall).
    split; [| split].
    + intros c Hc. destruct (Hsub c Hc) as [H|H].
      * destruct (AddCert_elem_of _ _ _ H) as [?| ->]; [by left |].
        right. apply elem_of_cons. by left.
      * right. apply elem_of_cons. by right.
    + intros Hpool. by apply Hnodup, AddCert_NoDup.
    + intros c [Hc|Hc].
      * pose proof (AddCert_raw pool cert c (or_introl Hc)) as Hin.
        apply list_elem_of_fmap in Hin as (c' & Hraw & Hin).
        rewrite Hraw. apply Hall. by left.
      * apply elem_of_cons in Hc as [->|Hc].
        -- pose proof (AddCert_raw pool cert cert (or_intror eq_refl)) as Hin.
           apply list_elem_of_fmap in Hin as (c' & Hraw & Hin).
           rewrite Hraw. apply Hall. by left.
        -- apply Hall. by right.
Qed.

(** The pool of intermediates that the probe collects for the verification
    holds certificates of the chain after the leaf only, no raw bytes
    twice, and every certificate after the leaf is in it by its raw
    bytes. *)
Theorem collect_intermediates_covers_rest (leaf : Certificate)
    (rest : list Certificate) :
  let pool := fst (collect_intermediates rest NewCertPool leaf) in
  (forall c, c ∈ pool -> c ∈ rest)
  /\ NoDup (Raw <$> pool)
  /\ (forall c, c ∈ rest -> Raw c ∈ Raw <$> pool).
Proof.
  destruct (collect_intermediates_pool rest NewCertPool leaf) as (Hsub & Hnodup & Hall).
  cbn zeta. split; [| split].
  - intros c Hc. destruct (Hsub c Hc) as [H|H]; [by apply elem_of_nil in H | done].
  - apply Hnodup. constructor.
  - intros c Hc. apply Hall. by right.
Qed.

(** [certificateChain] returns exactly on the chains whose certificates all
    have a signature with room for six bytes; on every other chain it
    panics. *)
Theorem certificateChain_returns_iff_room (env : Env)
    (certificates : list Certificate) :
  (exists text, certificateChain env certificates = Returned text) <->
  Forall (fun c => 6 <= slice_cap (Signature c))%nat certificates.
Proof.
  rewrite <- (certificateChain_returns env certificates).
  destruct (certificateChain env certificates) as [text|reason]; simpl.
  - split; [reflexivity | intros _; by exists text].
  - split; [intros [text Habs]; discriminate | discriminate].
Qed.

(** ** The round trip of a report through JSON *)














(** Why the keys are to be valid: two keys that are not UTF-8 are both
    written as U+FFFD, the map read back has one entry for the two, and
    its text is another. *)
Example AsJson_invalid_keys_collide :
  size (Details JsonKeys.colliding_report) = 2%nat
  /\ (json.Unmarshal (fst (AsJson JsonKeys.colliding_report))
        ≫= fun parsed =>
             Some (size (Details parsed),
                   String.eqb (fst (AsJson parsed))
                              (fst (AsJson JsonKeys.colliding_report)))) =
       Some (1%nat, false).
Proof. split; vm_compute; reflexivity. Qed.

(** ** The probe on a table that may be nil *)

(** On a made table, [tlsCheckHost_any] is [tlsCheckHost]. *)
Lemma tlsCheckHost_any_made (env : Env) (host : string) (roots : gmap string bool) :
  tlsCheckHost_any env host (made roots) =
    (fst (tlsCheckHost env host roots), made (snd (tlsCheckHost env host roots))).
Proof.
  unfold tlsCheckHost_any, tlsCheckHost, assign.
  destruct (tlsCheckHeadOnly env _) as [[state|]|?]; [| done | done].
  destruct (PeerCertificates state) as [|leaf rest]; [done |].
  destruct (collect_intermediates _ _ _) as [intermediates last_seen].
  destruct (x509_Verify env _ _) as [?|]; [| done].
  destruct (common_DebugFlag env); [| done].
  by destruct (certificateChain env _).
Qed.

(** On the nil table, the probe goes as on a made one up to the
    assignment, which a chain that is not empty reaches. *)
Lemma tlsCheckHost_any_nil (env : Env) (host : string) :
  tlsCheckHost_any env host nil_map =
    match tlsCheckHeadOnly env (probe_url host) with
    | Ok (Some state) =>
      match PeerCertificates state with
      | [] => (fst (tlsCheckHost env host ∅), nil_map)
      | _ :: _ => (Panicked "assignment to entry in nil map", nil_map)
      end
    | _ => (fst (tlsCheckHost env host ∅), nil_map)
    end.
Proof.
  unfold tlsCheckHost_any, tlsCheckHost, assign. fold (probe_url host).
  destruct (tlsCheckHeadOnly env _) as [[state|]|?]; [| done | done].
  destruct (PeerCertificates state) as [|leaf rest]; [done |].
  by destruct (collect_intermediates _ _ _) as [intermediates last_seen].
Qed.

(** When a probe does not return, whatever table it is given: the
    response carries no TLS state; or the chain is not empty and the table
    is the nil map; or the chain is not empty and, in debug mode, the
    verification fails and the signature slice of some certificate of the
    chain has a capacity below six.  In every other case it returns. *)
Theorem tlsCheckHost_panics_iff (env : Env) (host : string) (roots : gomap) :
  is_returned (fst (tlsCheckHost_any env host roots)) = false <->
  tlsCheckHeadOnly env (probe_url host) = Ok None
  \/ exists state leaf rest,
       tlsCheckHeadOnly env (probe_url host) = Ok (Some state)
       /\ PeerCertificates state = leaf :: rest
       /\ (roots = nil_map
           \/ (common_DebugFlag env = true
               /\ verification env state leaf rest <> None
               /\ Exists (fun c => slice_cap (Signature c) < 6)%nat (leaf :: rest))).
Proof.
  destruct roots as [|entries].
  - rewrite tlsCheckHost_any_nil.
    destruct (tlsCheckHeadOnly env (probe_url host)) as [[state|]|err] eqn:Hhead.
    + destruct (PeerCertificates state) as [|leaf rest] eqn:Hchain; cbn [fst].
      * rewrite (tlsCheckHost_made_panics env host ∅), Hhead.
        split.
        -- intros [[=]|(_ & s & l & r & [= <-] & Hc & _)]. congruence.
        -- intros [[=]|(s & l & r & [= <-] & Hc & _)]. congruence.
      * split; [| done]. intros _. right. exists state, leaf, rest.
        split; [done |]. split; [done |]. by left.
    + cbn [fst]. rewrite (tlsCheckHost_made_panics env host ∅), Hhead.
      split; by left.
    + cbn [fst]. rewrite (tlsCheckHost_made_panics env host ∅), Hhead.
      split.
      * intros [[=]|(_ & s & l & r & [=] & _)].
      * intros [[=]|(s & l & r & [=] & _)].
  - rewrite tlsCheckHost_any_made. cbn [fst].
    rewrite tlsCheckHost_made_panics. split.
    + intros [Hnil|(Hdebug & s & l & r & Hhead & Hc & Hverify & Hshort)];
        [by left |].
      right. exists s, l, r. split; [done |]. split; [done |]. by right.
    + intros [Hnil|(s & l & r & Hhead & Hc & [[=]|(Hdebug & Hverify & Hshort)])];
        [by left |].
      right. split; [done |]. by exists s, l, r.
Qed.

Lemma tlsCheckHost_panics_iff_witness :
  is_returned (fst (tlsCheckHost_any Examples.env_good "good.example" nil_map)) = false.
Proof.
  apply (proj2 (tlsCheckHost_panics_iff Examples.env_good "good.example" nil_map)).
  right.
  exists {| Version := VersionTLS13; ServerName := "good.example";
            PeerCertificates := [Examples.leaf_cert; Examples.intermediate_cert] |},
         Examples.leaf_cert, [Examples.intermediate_cert].
  repeat split; try reflexivity. by left.
Defined.

(** The probe writes to the trust table and never reads it.  On a made
    table the checks it returns, and whether it returns, are the same
    whatever the table holds.  On the nil map it does as on a made table
    when the transport fails, when there is no TLS state and when the
    chain is empty; for a chain that is not empty it panics at the
    assignment to the table. *)
Theorem tlsCheckHost_ignores_table (env : Env) (host : string) :
  (forall roots roots' : gmap string bool,
     fst (tlsCheckHost_any env host (made roots)) =
       fst (tlsCheckHost_any env host (made roots')))
  /\ (forall roots : gmap string bool,
        (fst (tlsCheckHost_any env host nil_map) =
           fst (tlsCheckHost_any env host (made roots))
         /\ forall state, tlsCheckHeadOnly env (probe_url host) = Ok (Some state) ->
                          PeerCertificates state = [])
        \/ (fst (tlsCheckHost_any env host nil_map) =
              Panicked "assignment to entry in nil map"
            /\ exists state leaf rest,
                 tlsCheckHeadOnly env (probe_url host) = Ok (Some state)
                 /\ PeerCertificates state = leaf :: rest)).
Proof.
  split.
  - intros roots roots'. rewrite !tlsCheckHost_any_made. cbn [fst].
    apply tlsCheckHost_made_ignores_table.
  - intros roots. rewrite tlsCheckHost_any_nil, tlsCheckHost_any_made. cbn [fst].
    destruct (tlsCheckHeadOnly env (probe_url host)) as [[state|]|err] eqn:Hhead.
    + destruct (PeerCertificates state) as [|leaf rest] eqn:Hchain; cbn [fst].
      * left. split; [apply tlsCheckHost_made_ignores_table |].
        by intros s [= <-].
      * right. split; [done |]. by exists state, leaf, rest.
    + left. split; [apply tlsCheckHost_made_ignores_table | by intros s [=]].
    + left. split; [apply tlsCheckHost_made_ignores_table | by intros s [=]].
Qed.
